(** * Scribey Companion: decoder, extractor, change detector and upload queue

    A shallow embedding of the TypeScript sources

    - [config-manager.ts]   (class [ConfigManager]),
    - [file-watcher.ts]     (class [FileWatcher]),
    - [data-uploader.ts]    (class [DataUploader]),

    together with the fragment of JavaScript's dynamic semantics those
    classes rely on (truthiness, property access on arbitrary values,
    property-key conversion, own-property order of ordinary objects). *)

From Stdlib Require Import ZArith Lia Ascii String List DecimalString.
From stdpp Require Import base strings list gmap.

Set Warnings "-register-all".

Local Open Scope string_scope.
Local Open Scope Z_scope.

(** ** Exceptions

    A JavaScript computation either completes with a value or throws.  The
    payload of [Throw] is the [message] of the thrown error. *)

Inductive JsResult (A : Type) : Type :=
| Ok (a : A)
| Throw (message : string).
Arguments Ok {A} a.
Arguments Throw {A} message.

Definition js_bind {A B} (m : JsResult A) (k : A -> JsResult B) : JsResult B :=
  match m with
  | Ok a => k a
  | Throw e => Throw e
  end.

#[global] Instance JsResult_ret : MRet JsResult := fun _ a => Ok a.
#[global] Instance JsResult_bind : MBind JsResult := fun _ _ k m => js_bind m k.
#[global] Instance JsResult_fmap : FMap JsResult :=
  fun _ _ f m => js_bind m (fun a => Ok (f a)).

(** [Array.prototype.map] with a callback that may throw: elements are
    visited left to right and the first exception aborts the traversal. *)
Definition js_map {A B} (f : A -> JsResult B) : list A -> JsResult (list B) :=
  fix go (l : list A) : JsResult (list B) :=
    match l with
    | [] => Ok []
    | x :: l' =>
        match f x with
        | Ok y => match go l' with Ok ys => Ok (y :: ys) | Throw e => Throw e end
        | Throw e => Throw e
        end
    end.

(** [try { ... } catch { return fallback }]. *)
Definition js_catch {A} (m : JsResult A) (fallback : A) : A :=
  match m with
  | Ok a => a
  | Throw _ => fallback
  end.

Definition is_Ok {A} (m : JsResult A) : bool :=
  match m with Ok _ => true | Throw _ => false end.

(** ** Values

    Numbers are modelled on the integers together with [NaN]; the two zeros
    of IEEE-754 are identified (they are both falsy and both print as "0").
    Non-integral and infinite doubles are outside the model. *)

Inductive JsNumber : Type :=
| Num (z : Z)
| NaN.

Inductive JsVal : Type :=
| JUndefined
| JNull
| JBool (b : bool)
| JNum (n : JsNumber)
| JStr (s : string)
| JArr (elements : list JsVal)
| JObj (properties : list (string * JsVal)).

(** The grammar of numeric strings ([StringToNumber] in ECMA-262) belongs to
    the language runtime and is taken as an interface. *)
Class JsEngine : Type := {
  StringToNumber : string -> JsNumber
}.

Module Js.

(** *** Strings *)

Definition TypeError_primitive : string :=
  "Cannot convert object to primitive value".
Definition TypeError_read : string :=
  "Cannot read properties of null or undefined".
Definition TypeError_destructure : string :=
  "Cannot destructure null or undefined".

(** [Number::toString] on the modelled numbers. *)
Definition Number_toString (n : JsNumber) : string :=
  match n with
  | Num z => NilZero.string_of_int (Z.to_int z)
  | NaN => "NaN"
  end.

(** [Array.prototype.join] on already converted elements. *)
Fixpoint join (sep : string) (l : list string) : string :=
  match l with
  | [] => ""
  | [s] => s
  | s :: l' => s +:+ sep +:+ join sep l'
  end.

(** [s.split(sep)] for a one-character separator: never the empty list. *)
Fixpoint split (sep : ascii) (s : string) : list string :=
  match s with
  | EmptyString => [""]
  | String c s' =>
      if Ascii.eqb c sep then "" :: split sep s'
      else match split sep s' with
           | [] => [String c ""]
           | w :: ws => String c w :: ws
           end
  end.

(** The code units of a string, each as a one-character string. *)
Fixpoint chars (s : string) : list string :=
  match s with
  | EmptyString => []
  | String c s' => String c "" :: chars s'
  end.

(** [s.slice(1, -1)]. *)
Definition slice_1_m1 (s : string) : string :=
  substring 1 (String.length s - 2) s.

(** *** Ordinary objects

    An object is the list of its own enumerable data properties in
    [OrdinaryOwnPropertyKeys] order: array-index keys first, ascending, then
    the other string keys in creation order. *)

Definition array_index (k : string) : option N :=
  match NilEmpty.uint_of_string k with
  | Some u =>
      let n := N.of_uint u in
      if String.eqb (NilZero.string_of_uint (N.to_uint n)) k && (n <? 4294967295)%N
      then Some n else None
  | None => None
  end.

(** Does a new key [k] come before the existing key [k'] ? *)
Definition key_precedes (k k' : string) : bool :=
  match array_index k, array_index k' with
  | Some i, Some j => (i <? j)%N
  | Some _, None => true
  | None, _ => false
  end.

Section Objects.
Context {V : Type}.

Fixpoint obj_get (k : string) (o : list (string * V)) : option V :=
  match o with
  | [] => None
  | (k', v) :: o' => if String.eqb k k' then Some v else obj_get k o'
  end.

Definition has_own (k : string) (o : list (string * V)) : bool :=
  match obj_get k o with Some _ => true | None => false end.

(** [CreateDataProperty]: overwrite in place, or create at the position
    the key order prescribes. *)
Fixpoint obj_set (k : string) (v : V) (o : list (string * V)) : list (string * V) :=
  match o with
  | [] => [(k, v)]
  | (k', v') :: o' =>
      if String.eqb k k' then (k, v) :: o'
      else if key_precedes k k' && negb (has_own k o') then (k, v) :: (k', v') :: o'
      else (k', v') :: obj_set k v o'
  end.

(** The assignment [o[k] = v] on an object created by a literal [{}]: the
    key ["__proto__"] reaches the accessor inherited from
    [Object.prototype] and never creates an own property. *)
Definition obj_assign (k : string) (v : V) (o : list (string * V)) : list (string * V) :=
  if String.eqb k "__proto__" then o else obj_set k v o.
End Objects.

(** *** Conversions *)

Definition truthy (v : JsVal) : bool :=
  match v with
  | JUndefined | JNull => false
  | JBool b => b
  | JNum (Num z) => negb (z =? 0)
  | JNum NaN => false
  | JStr s => negb (String.eqb s "")
  | JArr _ | JObj _ => true
  end.

(** [a || b] *)
Definition or_else (a b : JsVal) : JsVal := if truthy a then a else b.

(** [ToString].  A decoded object never holds a function, so an own
    property named [toString] makes [OrdinaryToPrimitive] fail; without one
    [Object.prototype.toString] answers. *)
Fixpoint ToString (v : JsVal) : JsResult string :=
  match v with
  | JUndefined => Ok "undefined"
  | JNull => Ok "null"
  | JBool true => Ok "true"
  | JBool false => Ok "false"
  | JNum n => Ok (Number_toString n)
  | JStr s => Ok s
  | JArr l =>
      match js_map (fun e => match e with
                             | JUndefined | JNull => Ok ""
                             | _ => ToString e
                             end) l with
      | Ok parts => Ok (join "," parts)
      | Throw e => Throw e
      end
  | JObj o =>
      if has_own "toString" o then Throw TypeError_primitive
      else Ok "[object Object]"
  end.

(** [ToPropertyKey] on the modelled values. *)
Definition ToPropertyKey (v : JsVal) : JsResult string := ToString v.

Definition ToNumber `{JsEngine} (v : JsVal) : JsResult JsNumber :=
  match v with
  | JUndefined => Ok NaN
  | JNull => Ok (Num 0)
  | JBool true => Ok (Num 1)
  | JBool false => Ok (Num 0)
  | JNum n => Ok n
  | JStr s => Ok (StringToNumber s)
  | JArr _ | JObj _ => StringToNumber <$> ToString v
  end.

(** Unary minus. *)
Definition negate `{JsEngine} (v : JsVal) : JsResult JsVal :=
  n ← ToNumber v;
  Ok (JNum match n with Num z => Num (- z) | NaN => NaN end).

(** *** Property access

    [get v p] is [v.p] for the property names the program reads:
    [__internal_table_key], [key], [value], [character_data],
    [auction_prices], [data], [last_scan], [scan_count], [realm],
    [crafted_cards], [settings], [character_name], [realm_name], [class],
    [professions], [name], [skill_level], [max_skill_level].  None of them
    is an index, [length], or a member of a built-in prototype, so only the
    own properties of an object can answer. *)
Definition get (v : JsVal) (p : string) : JsResult JsVal :=
  match v with
  | JUndefined | JNull => Throw TypeError_read
  | JObj o => Ok (default JUndefined (obj_get p o))
  | _ => Ok JUndefined
  end.

(** [Object.entries] and [Object.keys]. *)
Definition index_key (i : nat) : string := Number_toString (Num (Z.of_nat i)).

Definition entries (v : JsVal) : JsResult (list (string * JsVal)) :=
  match v with
  | JUndefined | JNull => Throw "Cannot convert undefined or null to object"
  | JObj o => Ok o
  | JArr l => Ok (imap (fun i e => (index_key i, e)) l)
  | JStr s => Ok (imap (fun i c => (index_key i, JStr c)) (chars s))
  | _ => Ok []
  end.

Definition keys (v : JsVal) : JsResult (list string) := map fst <$> entries v.

(** [Object.fromEntries] on a list of already evaluated [[key, value]]
    pairs. *)
Fixpoint fromEntries_from (acc : list (string * JsVal)) (pairs : list (JsVal * JsVal))
  : JsResult (list (string * JsVal)) :=
  match pairs with
  | [] => Ok acc
  | (k, v) :: pairs' =>
      match ToPropertyKey k with
      | Ok key => fromEntries_from (obj_set key v acc) pairs'
      | Throw e => Throw e
      end
  end.

Definition fromEntries (pairs : list (JsVal * JsVal)) : JsResult (list (string * JsVal)) :=
  fromEntries_from [] pairs.

End Js.

(** * The table decoder ([file-watcher.ts])

    ** The syntax tree produced by [luaparse]

    [Ast] holds the expression and table-field nodes, which is what can
    occur below the right-hand side of an assignment; [OtherExpression]
    stands for the remaining expression node types ([CallExpression],
    [BinaryExpression], [FunctionDeclaration], [VarargLiteral], ...), whose
    [type] is carried for the error message.  Statements are a separate
    type: the reduction is only ever entered at an initialiser expression,
    so its statement cases ([LocalStatement], [ReturnStatement], [Chunk],
    [AssignmentStatement]) are never reached from this program. *)

Inductive Ast : Type :=
| StringLiteral (value : option string) (raw : string)
| NilLiteral
| BooleanLiteral (value : bool)
| NumericLiteral (value : Z)
| UnaryExpression (operator : string) (argument : Ast)
| Identifier (name : string)
| TableKey (key value : Ast)
| TableKeyString (key value : Ast)
| TableValue (value : Ast)
| TableConstructorExpression (fields : list Ast)
| OtherExpression (type : string).

Inductive Stmt : Type :=
| AssignmentStatement (variables init : list Ast)
| OtherStatement (type : string).

(** [luaparse.parse]: the body of the resulting [Chunk], or a syntax error. *)
Class LuaParser : Type := {
  luaparse_parse : string -> JsResult (list Stmt)
}.

Module Decoder.
Import Js.

Definition cant_parse (type : string) : string :=
  "Can't parse AST node type: " +:+ type.

(** [ast.fields[0] && ast.fields[0].key]: only the two keyed field nodes
    carry a [key] property. *)
Definition first_field_has_key (fields : list Ast) : bool :=
  match fields with
  | TableKey _ _ :: _ | TableKeyString _ _ :: _ => true
  | _ => false
  end.

(** [const { key, value } = x; return [key, value]] *)
Definition destructure_key_value (x : JsVal) : JsResult (JsVal * JsVal) :=
  match x with
  | JUndefined | JNull => Throw TypeError_destructure
  | _ => key ← get x "key"; value ← get x "value"; Ok (key, value)
  end.

(** [value.__internal_table_key ? [value.key, value.value] : value] *)
Definition surface_table_key (value : JsVal) : JsResult JsVal :=
  flag ← get value "__internal_table_key";
  if truthy flag
  then k ← get value "key"; v ← get value "value"; Ok (JArr [k; v])
  else Ok value.

Definition internal_table_key (key value : JsVal) : JsVal :=
  JObj [("__internal_table_key", JBool true); ("key", key); ("value", value)].

Fixpoint luaAstToJson `{JsEngine} (ast : Ast) : JsResult JsVal :=
  match ast with
  | StringLiteral (Some value) _ => Ok (JStr value)
  | StringLiteral None raw =>
      if truthy (JStr raw) then Ok (JStr (slice_1_m1 raw)) else Ok (JStr "")
  | NilLiteral => Ok JNull
  | BooleanLiteral value => Ok (JBool value)
  | NumericLiteral value => Ok (JNum (Num value))
  | UnaryExpression operator argument =>
      if String.eqb operator "-"
      then v ← luaAstToJson argument; negate v
      else Throw (cant_parse "UnaryExpression")
  | Identifier name => Ok (JStr name)
  | TableKey key value | TableKeyString key value =>
      k ← luaAstToJson key;
      v ← luaAstToJson value;
      Ok (internal_table_key k v)
  | TableValue value => luaAstToJson value
  | TableConstructorExpression fields =>
      if first_field_has_key fields then
        pairs ← js_map (fun field => r ← luaAstToJson field; destructure_key_value r) fields;
        object ← fromEntries pairs;
        Ok (if Nat.eqb (length object) 0 then JArr [] else JObj object)
      else
        values ← js_map (fun field => value ← luaAstToJson field; surface_table_key value) fields;
        Ok (JArr values)
  | OtherExpression type => Throw (cant_parse type)
  end.

(** [variable.type === 'Identifier' && variable.name === 'ScribeyDB'] *)
Definition is_ScribeyDB (variable : Ast) : bool :=
  match variable with
  | Identifier name => String.eqb name "ScribeyDB"
  | _ => false
  end.

(** The inner loop of [extractScribeyDBFromAST]: the initialiser paired
    with the first variable, from index [i] on, that is the identifier
    [ScribeyDB] and has an initialiser at its own index. *)
Fixpoint find_binding (i : nat) (variables init : list Ast) : option Ast :=
  match variables with
  | [] => None
  | variable :: variables' =>
      match is_ScribeyDB variable, init !! i with
      | true, Some e => Some e
      | _, _ => find_binding (S i) variables' init
      end
  end.

Fixpoint scan_body `{JsEngine} (body : list Stmt) : JsResult JsVal :=
  match body with
  | [] => Ok JNull
  | AssignmentStatement variables init :: rest =>
      match find_binding 0 variables init with
      | Some e => luaAstToJson e
      | None => scan_body rest
      end
  | OtherStatement _ :: rest => scan_body rest
  end.

Definition extractScribeyDBFromAST `{JsEngine} (body : list Stmt) : JsVal :=
  js_catch (scan_body body) JNull.

End Decoder.

(** * The configuration provider ([config-manager.ts]) *)

(** What the watcher and the uploader consume from their [configManager]
    constructor argument. *)
Class ConfigProvider (C : Type) : Type := {
  cfg_getDeviceId : C -> string;
  cfg_getServerUrl : C -> string;
  cfg_isAutoUploadEnabled : C -> bool;
  cfg_updateCharacterSync : string -> string -> Z -> C -> C
}.

(** The file system and the path library as the program calls them:
    [fs.existsSync], [path.join] and [glob].  A rejected [glob] carries the
    string conversion of the error it was rejected with. *)
Class FileSystem : Type := {
  fs_existsSync : string -> bool;
  path_join : list string -> string;
  fs_glob : string -> JsResult (list string)
}.

Module ConfigManager.

Record CharacterConfig : Type := {
  name : string;
  realm : string;
  enabled : bool;
  lastSync : option Z
}.

(** The persisted [CompanionConfig] (without the [settings] block, which no
    modelled operation reads) and the in-memory [_deviceId]. *)
Record t : Type := {
  wowPath : string;
  serverUrl : string;
  autoUpload : bool;
  uploadInterval : Z;
  characters : list CharacterConfig;
  deviceId : option string;
  _deviceId : option string
}.

Definition getCharacters (cm : t) : list CharacterConfig := characters cm.

Definition set_characters (cs : list CharacterConfig) (cm : t) : t :=
  {| wowPath := wowPath cm; serverUrl := serverUrl cm; autoUpload := autoUpload cm;
     uploadInterval := uploadInterval cm; characters := cs;
     deviceId := deviceId cm; _deviceId := _deviceId cm |}.

Definition set_lastSync (timestamp : Z) (c : CharacterConfig) : CharacterConfig :=
  {| name := name c; realm := realm c; enabled := enabled c; lastSync := Some timestamp |}.

(** [c => c.name === name && c.realm === realm] *)
Definition same_character (n r : string) (c : CharacterConfig) : bool :=
  String.eqb (name c) n && String.eqb (realm c) r.

(** [Array.prototype.findIndex]-style search: index and element of the first
    match. *)
Fixpoint find_from {A} (p : A -> bool) (i : nat) (l : list A) : option (nat * A) :=
  match l with
  | [] => None
  | x :: l' => if p x then Some (i, x) else find_from p (S i) l'
  end.

(** [find] hands back the element itself, so writing its [lastSync] updates
    the array at the position of the first match before it is stored. *)
Definition updateCharacterSync (n r : string) (timestamp : Z) (cm : t) : t :=
  let characters := getCharacters cm in
  match find_from (same_character n r) 0 characters with
  | Some (i, character) =>
      set_characters (<[i := set_lastSync timestamp character]> characters) cm
  | None => cm
  end.

Definition nonempty (o : option string) : option string :=
  match o with
  | Some s => if String.eqb s "" then None else Some s
  | None => None
  end.

(** [this._deviceId || this.store.get('deviceId') || 'unknown-device'] *)
Definition getDeviceId (cm : t) : string :=
  match nonempty (_deviceId cm) with
  | Some d => d
  | None => default "unknown-device" (nonempty (deviceId cm))
  end.

Definition getServerUrl (cm : t) : string := serverUrl cm.
Definition isAutoUploadEnabled (cm : t) : bool := autoUpload cm.

(** [addCharacter]: replace the entry of the same name and realm in place,
    or push. *)
Definition addCharacter (character : CharacterConfig) (cm : t) : t :=
  let characters := getCharacters cm in
  match find_from (same_character (name character) (realm character)) 0 characters with
  | Some (existingIndex, _) =>
      set_characters (<[existingIndex := character]> characters) cm
  | None => set_characters (characters ++ [character]) cm
  end.

(** [removeCharacter]: keep the entries that differ in name or realm. *)
Definition removeCharacter (n r : string) (cm : t) : t :=
  set_characters (List.filter (fun c => negb (same_character n r c)) (getCharacters cm)) cm.

Definition getWowPath (cm : t) : string := wowPath cm.

Definition setWowPath (p : string) (cm : t) : t :=
  {| wowPath := p; serverUrl := serverUrl cm; autoUpload := autoUpload cm;
     uploadInterval := uploadInterval cm; characters := characters cm;
     deviceId := deviceId cm; _deviceId := _deviceId cm |}.

Definition setServerUrl (url : string) (cm : t) : t :=
  {| wowPath := wowPath cm; serverUrl := url; autoUpload := autoUpload cm;
     uploadInterval := uploadInterval cm; characters := characters cm;
     deviceId := deviceId cm; _deviceId := _deviceId cm |}.

Definition setAutoUploadEnabled (enabled : bool) (cm : t) : t :=
  {| wowPath := wowPath cm; serverUrl := serverUrl cm; autoUpload := enabled;
     uploadInterval := uploadInterval cm; characters := characters cm;
     deviceId := deviceId cm; _deviceId := _deviceId cm |}.

Definition getUploadInterval (cm : t) : Z := uploadInterval cm.

(** [reset]: the store is cleared and [DEFAULT_CONFIG], which has no
    [deviceId], is written; the in-memory [_deviceId] is a field of the
    manager and stays. *)
Definition reset (cm : t) : t :=
  {| wowPath := ""; serverUrl := "https://scribey.app"; autoUpload := true;
     uploadInterval := 30000; characters := [];
     deviceId := None; _deviceId := _deviceId cm |}.

(** [initializeDeviceId], once [machineId()] has settled: the id is kept in
    memory and stored unless the store already has a non-empty one; when the
    lookup fails the in-memory id is the placeholder. *)
Definition initializeDeviceId (machineId : JsResult string) (cm : t) : t :=
  match machineId with
  | Ok id =>
      {| wowPath := wowPath cm; serverUrl := serverUrl cm; autoUpload := autoUpload cm;
         uploadInterval := uploadInterval cm; characters := characters cm;
         deviceId := match nonempty (deviceId cm) with
                     | Some _ => deviceId cm
                     | None => Some id
                     end;
         _deviceId := Some id |}
  | Throw _ =>
      {| wowPath := wowPath cm; serverUrl := serverUrl cm; autoUpload := autoUpload cm;
         uploadInterval := uploadInterval cm; characters := characters cm;
         deviceId := deviceId cm; _deviceId := Some "unknown-device" |}
  end.

(** [validateWowPath] *)
Definition indicators : list string :=
  ["Wow.exe"; "WowClassic.exe"; "_retail_"; "_classic_"; "Interface"].

Definition validateWowPath `{FileSystem} (wowPath : string) : bool :=
  if String.eqb wowPath "" || negb (fs_existsSync wowPath) then false
  else existsb (fun indicator => fs_existsSync (path_join [wowPath; indicator])) indicators.

(** [path.join] refuses an argument that is not a string. *)
Definition TypeError_path_argument : string :=
  "The " +:+ String (ascii_of_nat 34) ("path" +:+ String (ascii_of_nat 34)
    " argument must be of type string. Received undefined").

(** [getAddonSavedVariablesPath(characterName?)] *)
Definition getAddonSavedVariablesPath `{FileSystem} (characterName : option string) (cm : t)
  : JsResult string :=
  let wowPath := getWowPath cm in
  if String.eqb wowPath "" then Throw "WoW path not configured" else
  let wtfPath := path_join [wowPath; "_classic_"; "WTF"] in
  match nonempty characterName with
  | Some characterName =>
      match Js.split "-" characterName with
      | charName :: realm :: _ =>
          Ok (path_join [wtfPath; "Account"; "*"; realm; charName; "SavedVariables";
                         "Scribey.lua"])
      | _ => Throw TypeError_path_argument
      end
  | None => Ok (path_join [wtfPath; "Account"; "*"; "SavedVariables"; "Scribey.lua"])
  end.

(** The operations on a configuration after start-up. *)
Inductive Op : Type :=
| AddCharacter (character : CharacterConfig)
| RemoveCharacter (n r : string)
| UpdateCharacterSync (n r : string) (timestamp : Z)
| SetWowPath (p : string)
| SetServerUrl (url : string)
| SetAutoUploadEnabled (enabled : bool)
| Reset.

Definition apply (op : Op) (cm : t) : t :=
  match op with
  | AddCharacter character => addCharacter character cm
  | RemoveCharacter n r => removeCharacter n r cm
  | UpdateCharacterSync n r timestamp => updateCharacterSync n r timestamp cm
  | SetWowPath p => setWowPath p cm
  | SetServerUrl url => setServerUrl url cm
  | SetAutoUploadEnabled enabled => setAutoUploadEnabled enabled cm
  | Reset => reset cm
  end.

Definition apply_all (ops : list Op) (cm : t) : t :=
  fold_left (fun cm op => apply op cm) ops cm.

(** The name and realm of an entry, the key under which the list is
    searched. *)
Definition key_of (c : CharacterConfig) : string * string := (name c, realm c).

#[global] Instance provider : ConfigProvider t := {|
  cfg_getDeviceId := getDeviceId;
  cfg_getServerUrl := getServerUrl;
  cfg_isAutoUploadEnabled := isAutoUploadEnabled;
  cfg_updateCharacterSync := updateCharacterSync
|}.

End ConfigManager.

(** * The snapshot types ([file-watcher.ts])

    Fields that the extractor fills with whatever the decoded tree holds are
    typed [JsVal]: the TypeScript annotations are erased at run time. *)

Module CardData.
Record t : Type := {
  itemId : Z; itemName : string; deckName : string;
  cardNumber : Z; quantity : Z; timestamp : Z
}.
End CardData.

Module ProfessionData.
Record t : Type := {
  name : JsVal;
  skillLevel : JsVal;
  maxSkill : JsVal;
  recipes : list Z
}.
End ProfessionData.

Module CharacterData.
Record t : Type := {
  name : JsVal;
  realm : JsVal;
  cards : list CardData.t;
  professions : list ProfessionData.t;
  class : JsVal;
  lastUpdate : Z
}.
End CharacterData.

Module AuctionData.
Record t : Type := {
  lastScan : JsVal;
  scanCount : JsVal;
  realm : JsVal;
  itemCount : nat;
  data : JsVal
}.
End AuctionData.

Module AddonData.
Record t : Type := {
  characters : list (string * CharacterData.t);
  auctionData : AuctionData.t;
  craftedCards : JsVal;
  settings : JsVal;
  timestamp : Z;
  version : string
}.
End AddonData.

(** * The change detector and the domain extractor ([file-watcher.ts]) *)

(** The clock readings of one [parseLuaData] call: [Date.now()] is read once
    per extracted character (an object has each key once) and once for the
    snapshot. *)
Record ParseClock : Type := {
  character_time : string -> Z;
  snapshot_time : Z
}.

Module FileWatcher.
Import Js Decoder.

(** ** [extractVersion]

    The leftmost match of the regular expression in the source: the word
    [version], optional white space, an equals sign, optional white space,
    and a non-empty run of characters other than the double quote enclosed
    in double quotes; the run is the result.  Strings are read as sequences
    of 8-bit code units, on which the white-space class is the set below. *)

Definition is_space (c : ascii) : bool :=
  let n := nat_of_ascii c in
  ((9 <=? n) && (n <=? 13) || (n =? 32) || (n =? 160))%nat.

Definition double_quote : ascii := ascii_of_nat 34.

Fixpoint skip_spaces (s : string) : string :=
  match s with
  | String c s' => if is_space c then skip_spaces s' else s
  | EmptyString => s
  end.

Fixpoint drop_prefix (p s : string) : option string :=
  match p, s with
  | EmptyString, _ => Some s
  | String a p', String b s' => if Ascii.eqb a b then drop_prefix p' s' else None
  | String _ _, EmptyString => None
  end.

(** The longest run without a double quote, provided a quote closes it. *)
Fixpoint until_quote (s : string) : option string :=
  match s with
  | EmptyString => None
  | String c s' =>
      if Ascii.eqb c double_quote then Some ""
      else option_map (String c) (until_quote s')
  end.

Definition match_version_here (s : string) : option string :=
  s1 ← drop_prefix "version" s;
  s2 ← drop_prefix "=" (skip_spaces s1);
  s3 ← drop_prefix (String double_quote "") (skip_spaces s2);
  v ← until_quote s3;
  if String.eqb v "" then None else Some v.

Fixpoint extractVersion (content : string) : option string :=
  match match_version_here content with
  | Some v => Some v
  | None =>
      match content with
      | EmptyString => None
      | String _ rest => extractVersion rest
      end
  end.

(** ** [parseScribeyCharacterFromJson] *)

Fixpoint parseProfessions (l : list JsVal) : JsResult (list ProfessionData.t) :=
  match l with
  | [] => Ok []
  | prof :: l' =>
      n ← get prof "name";
      if truthy n then
        skill_level ← get prof "skill_level";
        max_skill_level ← get prof "max_skill_level";
        rest ← parseProfessions l';
        Ok ({| ProfessionData.name := n;
               ProfessionData.skillLevel := or_else skill_level (JNum (Num 0));
               ProfessionData.maxSkill := or_else max_skill_level (JNum (Num 525));
               ProfessionData.recipes := [] |} :: rest)
      else parseProfessions l'
  end.

(** [fullName.split('-')[i]] *)
Definition split_part (fullName : string) (i : nat) : JsVal :=
  match split "-" fullName !! i with
  | Some s => JStr s
  | None => JUndefined
  end.

Definition character_body (fullName : string) (charData : JsVal) (now : Z)
  : JsResult CharacterData.t :=
  character_name ← get charData "character_name";
  let characterName := or_else character_name (split_part fullName 0) in
  realm_name ← get charData "realm_name";
  let realmName := or_else (or_else realm_name (split_part fullName 1)) (JStr "Unknown") in
  class ← get charData "class";
  let wowClass := or_else class (JStr "WARRIOR") in
  profs ← get charData "professions";
  professions ← match profs with
                | JArr l => parseProfessions l
                | _ => Ok []
                end;
  Ok {| CharacterData.name := characterName;
        CharacterData.realm := realmName;
        CharacterData.cards := [];
        CharacterData.professions := professions;
        CharacterData.class := wowClass;
        CharacterData.lastUpdate := now |}.

Definition parseScribeyCharacterFromJson (fullName : string) (charData : JsVal) (now : Z)
  : option CharacterData.t :=
  js_catch (Some <$> character_body fullName charData now) None.

(** ** [parseLuaData] *)

(** One entry of the local [parseResults] array. *)
Record ParseResult : Type := {
  fullCharacterName : string;
  rawCharData : JsVal;
  parseSuccess : bool;
  parsedCharacter : option CharacterData.t;
  error : option string
}.

(** The success log line interpolates [character.name] and
    [character.realm]; it sits inside the per-character [try], after the
    record has been stored. *)
Definition log_character (character : CharacterData.t) : JsResult unit :=
  _ ← ToString (CharacterData.name character);
  _ ← ToString (CharacterData.realm character);
  Ok ().

(** The [parseResult] object one iteration of the
    [for ... of Object.entries(characterData)] loop builds and pushes. *)
Definition parse_result (clock : ParseClock) (entry : string * JsVal) : ParseResult :=
  let '(fullCharacterName, charData) := entry in
  match parseScribeyCharacterFromJson fullCharacterName charData
          (character_time clock fullCharacterName) with
  | Some character =>
      {| fullCharacterName := fullCharacterName; rawCharData := charData;
         parseSuccess := true; parsedCharacter := Some character;
         error := match log_character character with
                  | Ok _ => None
                  | Throw e => Some e
                  end |}
  | None =>
      {| fullCharacterName := fullCharacterName; rawCharData := charData;
         parseSuccess := false; parsedCharacter := None;
         error := Some "parseScribeyCharacterFromJson returned null" |}
  end.

(** The body of that loop: [characters[fullCharacterName] = character] on
    success, and the push in both cases. *)
Definition parse_entry (clock : ParseClock)
    (acc : list (string * CharacterData.t) * list ParseResult)
    (entry : string * JsVal)
  : list (string * CharacterData.t) * list ParseResult :=
  let '(characters, parseResults) := acc in
  (match parseScribeyCharacterFromJson entry.1 entry.2 (character_time clock entry.1) with
   | Some character => obj_assign entry.1 character characters
   | None => characters
   end,
   (parseResults ++ [parse_result clock entry])%list).

Definition parse_entries (clock : ParseClock) (entries : list (string * JsVal))
  : list (string * CharacterData.t) * list ParseResult :=
  fold_left (parse_entry clock) entries ([], []).

(** Everything after [luaparse.parse], with the ledger kept next to the
    result. *)
Definition extract `{JsEngine} (clock : ParseClock) (content : string) (body : list Stmt)
  : JsResult (option (AddonData.t * list ParseResult)) :=
  let scribeyDB := extractScribeyDBFromAST body in
  if negb (truthy scribeyDB) then Ok None else
  character_data ← get scribeyDB "character_data";
  if negb (truthy character_data) then Ok None else
  let characterData := or_else character_data (JObj []) in
  characterNames ← keys characterData;
  auction_prices ← get scribeyDB "auction_prices";
  let auctionData := or_else auction_prices (JObj []) in
  data ← get auctionData "data";
  auctionItemCount ← (if truthy data then length <$> keys data else Ok 0%nat);
  last_scan ← get auctionData "last_scan";
  _ ← ToString (or_else last_scan (JStr "never"));
  character_entries ← entries characterData;
  let '(characters, parseResults) := parse_entries clock character_entries in
  scan_count ← get auctionData "scan_count";
  realm ← get auctionData "realm";
  crafted_cards ← get scribeyDB "crafted_cards";
  settings ← get scribeyDB "settings";
  Ok (Some
    ({| AddonData.characters := characters;
        AddonData.auctionData :=
          {| AuctionData.lastScan := or_else last_scan (JNum (Num 0));
             AuctionData.scanCount := or_else scan_count (JNum (Num 0));
             AuctionData.realm := or_else realm (JStr "Unknown");
             AuctionData.itemCount := auctionItemCount;
             AuctionData.data := or_else data (JObj []) |};
        AddonData.craftedCards := or_else crafted_cards (JObj []);
        AddonData.settings := or_else settings (JObj []);
        AddonData.timestamp := snapshot_time clock;
        AddonData.version := default "1.0.0" (ConfigManager.nonempty (extractVersion content)) |},
     parseResults)).

Definition parseLuaData_ledger `{JsEngine} `{LuaParser} (clock : ParseClock) (content : string)
  : option (AddonData.t * list ParseResult) :=
  js_catch (body ← luaparse_parse content; extract clock content body) None.

(** [parseLuaData(content, filePath)]; the path only feeds log lines. *)
Definition parseLuaData `{JsEngine} `{LuaParser} (clock : ParseClock) (content : string)
  : option AddonData.t :=
  fst <$> parseLuaData_ledger clock content.

(** ** [handleFileChange] *)

(** What the file system answers when the handler looks at the path:
    [existsSync] is false, [readFileSync] throws, or the text is read. *)
Inductive FsRead : Type :=
| FileMissing
| ReadError (message : string)
| FileContent (content : string).

(** One file-system notification together with everything the handler reads
    from its environment: the two [Date.now()] readings of the handler
    itself and the clock of the extraction. *)
Record FileEvent : Type := {
  filePath : string;
  read : FsRead;
  update_time : Z;
  now : Z;
  clock : ParseClock
}.

Record t : Type := {
  isActive : bool;
  watchedFiles : list string;
  lastUpdate : option Z;
  lastError : option string;
  lastFileContents : gmap string string;
  lastUploadAttempt : gmap string Z
}.

Definition UPLOAD_COOLDOWN : Z := 30000.

Definition set_lastError (e : option string) (w : t) : t :=
  {| isActive := isActive w; watchedFiles := watchedFiles w; lastUpdate := lastUpdate w;
     lastError := e; lastFileContents := lastFileContents w;
     lastUploadAttempt := lastUploadAttempt w |}.

Definition cache_content (path content : string) (time : Z) (w : t) : t :=
  {| isActive := isActive w; watchedFiles := watchedFiles w; lastUpdate := Some time;
     lastError := lastError w; lastFileContents := <[path := content]> (lastFileContents w);
     lastUploadAttempt := lastUploadAttempt w |}.

Definition stamp_upload (path : string) (time : Z) (w : t) : t :=
  {| isActive := isActive w; watchedFiles := watchedFiles w; lastUpdate := lastUpdate w;
     lastError := lastError w; lastFileContents := lastFileContents w;
     lastUploadAttempt := <[path := time]> (lastUploadAttempt w) |}.

(** What one handler run did towards the pipeline: whether [parseLuaData]
    was called, and the arguments of the [uploadData] call if one was made. *)
Record Effects : Type := {
  decoded : bool;
  enqueued : option (AddonData.t * string)
}.

Definition no_effect : Effects := {| decoded := false; enqueued := None |}.

(** The two places where building [uploadSummary] can throw, in evaluation
    order: [new Date(lastScan * 1000).toISOString()], a [RangeError]
    outside the representable time range, and the template literal that
    renders each profession of each character. *)
Definition summary_date `{JsEngine} (lastScan : JsVal) : JsResult unit :=
  n ← ToNumber lastScan;
  match n with
  | Num z =>
      if Z.abs (z * 1000) <=? 8640000000000000 then Ok ()
      else Throw "Invalid time value"
  | NaN => Throw "Invalid time value"
  end.

Definition summary_profession (prof : ProfessionData.t) : JsResult unit :=
  _ ← ToString (ProfessionData.name prof);
  _ ← ToString (ProfessionData.skillLevel prof);
  _ ← ToString (ProfessionData.maxSkill prof);
  Ok ().

Definition upload_summary `{JsEngine} (addonData : AddonData.t) : JsResult unit :=
  _ ← summary_date (AuctionData.lastScan (AddonData.auctionData addonData));
  _ ← js_map (fun entry : string * CharacterData.t =>
                js_map summary_profession (CharacterData.professions entry.2))
         (AddonData.characters addonData);
  Ok ().

Definition handleFileChange `{JsEngine} `{LuaParser} {C} `{ConfigProvider C}
    (configManager : C) (ev : FileEvent) (w : t) : t * Effects :=
  let path := filePath ev in
  match read ev with
  | FileMissing => (w, no_effect)
  | ReadError message => (set_lastError (Some message) w, no_effect)
  | FileContent content =>
      if decide (lastFileContents w !! path = Some content) then (w, no_effect)
      else
        let w1 := cache_content path content (update_time ev) w in
        let lastUpload := default 0 (lastUploadAttempt w1 !! path) in
        let timeSinceLastUpload := now ev - lastUpload in
        if timeSinceLastUpload <? UPLOAD_COOLDOWN then (w1, no_effect)
        else
          match parseLuaData (clock ev) content with
          | None => (w1, {| decoded := true; enqueued := None |})
          | Some addonData =>
              if cfg_isAutoUploadEnabled configManager then
                let w2 := stamp_upload path (now ev) w1 in
                match upload_summary addonData with
                | Ok _ => (w2, {| decoded := true; enqueued := Some (addonData, path) |})
                | Throw e =>
                    (set_lastError (Some ("Upload failed: " +:+ e)) w2,
                     {| decoded := true; enqueued := None |})
                end
              else (w1, {| decoded := true; enqueued := None |})
          end
  end.

(** [stop()] *)
Definition stop (w : t) : t :=
  {| isActive := false; watchedFiles := []; lastUpdate := lastUpdate w;
     lastError := lastError w; lastFileContents := ∅; lastUploadAttempt := ∅ |}.

(** A sequence of notifications, handled in arrival order. *)
Fixpoint handle_all `{JsEngine} `{LuaParser} {C} `{ConfigProvider C}
    (configManager : C) (evs : list FileEvent) (w : t) : t * list Effects :=
  match evs with
  | [] => (w, [])
  | ev :: evs' =>
      let '(w1, eff) := handleFileChange configManager ev w in
      let '(w2, effs) := handle_all configManager evs' w1 in
      (w2, eff :: effs)
  end.

(** ** [start]

    The call is modelled with nothing else running on the watcher while
    the file search is awaited, and with a [watch] that does not throw.
    The events the new watcher reports later are further [handleFileChange]
    runs. *)

(** [s.replace(/\\/g, '/')] *)
Fixpoint slashes (s : string) : string :=
  match s with
  | EmptyString => EmptyString
  | String c s' =>
      String (if Ascii.eqb c (ascii_of_nat 92) then ascii_of_nat 47 else c) (slashes s')
  end.

Definition findScribeyFiles `{FileSystem} (wowPath : string) : JsResult (list string) :=
  let wtfPath := path_join [wowPath; "_classic_"; "WTF"] in
  if negb (fs_existsSync wtfPath) then
    Throw ("WTF directory not found. Make sure you have WoW Classic installed "
           +:+ "and have logged in at least once.")
  else
    let pattern :=
      slashes (path_join [wtfPath; "Account"; "*"; "SavedVariables"; "Scribey.lua"]) in
    match fs_glob pattern with
    | Ok files => Ok files
    | Throw e => Throw ("Failed to find Scribey.lua files: " +:+ e)
    end.

(** What the initial read of one file finds: the content and the clock
    readings of its handler run. *)
Record Reading : Type := {
  reading_read : FsRead;
  reading_update_time : Z;
  reading_now : Z;
  reading_clock : ParseClock
}.

Definition event_at (file : string) (r : Reading) : FileEvent :=
  {| filePath := file; read := reading_read r; update_time := reading_update_time r;
     now := reading_now r; clock := reading_clock r |}.

(** The three assignments after the handlers are registered. *)
Definition armed (luaFiles : list string) (w : t) : t :=
  {| isActive := true; watchedFiles := luaFiles; lastUpdate := lastUpdate w;
     lastError := None; lastFileContents := lastFileContents w;
     lastUploadAttempt := lastUploadAttempt w |}.

Definition no_files : string :=
  "No Scribey.lua files found. Make sure the addon is installed and you have "
  +:+ "logged in with at least one character.".

(** The events of the loop that closes [start]. *)
Definition initial_events `{FileSystem} (readings : string -> Reading) (luaFiles : list string)
  : list FileEvent :=
  map (fun file => event_at file (readings file)) (List.filter fs_existsSync luaFiles).

Definition start `{JsEngine} `{LuaParser} `{FileSystem}
    (readings : string -> Reading) (configManager : ConfigManager.t) (w : t)
  : JsResult unit * t * list Effects :=
  let w0 := if isActive w then stop w else w in
  let wowPath := ConfigManager.getWowPath configManager in
  if String.eqb wowPath "" then (Throw "WoW installation path not configured", w0, [])
  else if negb (ConfigManager.validateWowPath wowPath) then
    (Throw "Invalid WoW installation path", w0, [])
  else
    match (savedVarsPattern ← ConfigManager.getAddonSavedVariablesPath None configManager;
           luaFiles ← findScribeyFiles wowPath;
           if Nat.eqb (length luaFiles) 0 then Throw no_files else Ok luaFiles) with
    | Throw e => (Throw e, set_lastError (Some e) w0, [])
    | Ok luaFiles =>
        let '(w2, effs) :=
          handle_all configManager (initial_events readings luaFiles) (armed luaFiles w0) in
        (Ok (), w2, effs)
    end.

End FileWatcher.

(** * The upload queue ([data-uploader.ts]) *)

Module DataUploader.
Import Js.

Record QueueItem : Type := {
  data : AddonData.t;
  filePath : string;
  timestamp : Z
}.

Record t : Type := {
  uploadQueue : list QueueItem;
  isUploading : bool;
  lastUploadAttempt : Z;
  consecutiveFailures : Z
}.

Definition initial : t :=
  {| uploadQueue := []; isUploading := false; lastUploadAttempt := 0; consecutiveFailures := 0 |}.

Record UploadResponse : Type := {
  success : bool;
  message : option string;
  error : option string
}.

(** How the promise of one HTTP call settles: the transport rejects it
    (network error, timeout, or a status its validator refuses), or it
    resolves with a response. *)
Inductive HttpOutcome : Type :=
| HttpRejected (message : string)
| HttpResponse (status : Z) (statusText : string).

Definition set_queue (q : list QueueItem) (u : t) : t :=
  {| uploadQueue := q; isUploading := isUploading u;
     lastUploadAttempt := lastUploadAttempt u; consecutiveFailures := consecutiveFailures u |}.

Definition set_isUploading (b : bool) (u : t) : t :=
  {| uploadQueue := uploadQueue u; isUploading := b;
     lastUploadAttempt := lastUploadAttempt u; consecutiveFailures := consecutiveFailures u |}.

Definition set_lastUploadAttempt (time : Z) (u : t) : t :=
  {| uploadQueue := uploadQueue u; isUploading := isUploading u;
     lastUploadAttempt := time; consecutiveFailures := consecutiveFailures u |}.

Definition set_consecutiveFailures (n : Z) (u : t) : t :=
  {| uploadQueue := uploadQueue u; isUploading := isUploading u;
     lastUploadAttempt := lastUploadAttempt u; consecutiveFailures := n |}.

(** The response interceptor installed by the constructor; it sees every
    call made through [httpClient]. *)
Definition intercept (o : HttpOutcome) (u : t) : t :=
  match o with
  | HttpResponse _ _ => set_consecutiveFailures 0 u
  | HttpRejected _ => set_consecutiveFailures (consecutiveFailures u + 1) u
  end.

(** What can run on the event loop while a delivery is awaited. *)
Inductive Interleaved : Type :=
| Arrive (item : QueueItem)          (* [uploadData] while a drain is active *)
| OtherRequest (o : HttpOutcome)     (* [testConnection] or [forceSyncAll] settles *)
| ClearQueue                         (* [clearQueue] *)
| RetryFailed.                       (* [retryFailedUploads] while a drain is active *)

Definition interleave (e : Interleaved) (u : t) : t :=
  match e with
  | Arrive item => set_queue (uploadQueue u ++ [item]) u
  | OtherRequest o => intercept o u
  | ClearQueue => set_queue [] u
  | RetryFailed => set_consecutiveFailures 0 u
  end.

Definition interleave_all (es : list Interleaved) (u : t) : t :=
  fold_left (fun u e => interleave e u) es u.

(** [const [name, realm] = characterName.split('-')] and
    [realm || 'Unknown']. *)
Definition key_name (characterName : string) : string :=
  default "" (split "-" characterName !! 0%nat).

Definition key_realm (characterName : string) : string :=
  match split "-" characterName !! 1%nat with
  | Some r => if String.eqb r "" then "Unknown" else r
  | None => "Unknown"
  end.

Definition sync_characters {C} `{ConfigProvider C}
    (characterNames : list string) (timestamp : Z) (configManager : C) : C :=
  fold_left
    (fun cm characterName =>
       cfg_updateCharacterSync (key_name characterName) (key_realm characterName) timestamp cm)
    characterNames configManager.

Definition status_message (status : Z) (statusText : string) : string :=
  "Upload failed with status " +:+ Number_toString (Num status) +:+ ": " +:+ statusText.

(** [uploadSingleItem]: events that run during the [await], then the
    interceptor, then the continuation. *)
Definition uploadSingleItem {C} `{ConfigProvider C}
    (item : QueueItem) (during : list Interleaved) (o : HttpOutcome)
    (configManager : C) (u : t) : JsResult unit * C * t :=
  let u1 := intercept o (interleave_all during u) in
  match o with
  | HttpRejected message => (Throw message, configManager, u1)
  | HttpResponse status statusText =>
      if status =? 200 then
        (Ok (),
         sync_characters (map fst (AddonData.characters (data item))) (timestamp item)
           configManager,
         u1)
      else (Throw (status_message status statusText), configManager, u1)
  end.

(** The body of the [for (const item of batch)] loop, with its [catch]. *)
Definition attempt {C} `{ConfigProvider C}
    (item : QueueItem) (during : list Interleaved) (o : HttpOutcome)
    (configManager : C) (u : t) : C * t :=
  match uploadSingleItem item during o configManager u with
  | (Ok _, cm, u1) => (cm, u1)
  | (Throw _, cm, u1) =>
      if consecutiveFailures u1 <? 5
      then (cm, set_queue (item :: uploadQueue u1) u1)
      else (cm, u1)
  end.

(** The environment of one drain cycle: the clock at the back-off check,
    what happens during the delivery of the [i]-th batch item, and the clock
    when the batch is done. *)
Record CycleEnv : Type := {
  gate_time : Z;
  delivery : nat -> list Interleaved * HttpOutcome;
  end_time : Z
}.

(** One delivery attempt as it appears in the log of a cycle: the item, the
    value of the consecutive-failure counter when its request was sent, and
    how the request settled. *)
Record Attempt : Type := {
  attempted : QueueItem;
  failures_before : Z;
  outcome : HttpOutcome
}.

Fixpoint run_batch {C} `{ConfigProvider C}
    (delivery : nat -> list Interleaved * HttpOutcome) (i : nat) (batch : list QueueItem)
    (configManager : C) (u : t) : C * t * list Attempt :=
  match batch with
  | [] => (configManager, u, [])
  | item :: batch' =>
      let '(during, o) := delivery i in
      let '(cm1, u1) := attempt item during o configManager u in
      let '(cm2, u2, log) := run_batch delivery (S i) batch' cm1 u1 in
      (cm2, u2,
       {| attempted := item; failures_before := consecutiveFailures u; outcome := o |} :: log)
  end.

Definition batchSize : nat := 5.

Definition backoffTime (u : t) : Z := Z.min (consecutiveFailures u * 5000) 30000.

(** The result of one [processUploadQueue] call: the new state of uploader
    and configuration, the resolved value, the deliveries attempted, and
    whether the [finally] block scheduled another call one second later. *)
Record Cycle (C : Type) : Type := {
  uploader : t;
  config : C;
  response : UploadResponse;
  attempts : list Attempt;
  rescheduled : bool
}.
Arguments uploader {C} _.
Arguments config {C} _.
Arguments response {C} _.
Arguments attempts {C} _.
Arguments rescheduled {C} _.

(** The [finally] block. *)
Definition finish {C} (configManager : C) (u : t) (r : UploadResponse) (log : list Attempt)
  : Cycle C :=
  {| uploader := set_isUploading false u;
     config := configManager;
     response := r;
     attempts := log;
     rescheduled := negb (Nat.eqb (length (uploadQueue u)) 0) |}.

Definition processUploadQueue {C} `{ConfigProvider C}
    (env : CycleEnv) (configManager : C) (u : t) : Cycle C :=
  if isUploading u || Nat.eqb (length (uploadQueue u)) 0 then
    {| uploader := u; config := configManager;
       response := {| success := true; message := None; error := None |};
       attempts := []; rescheduled := false |}
  else
    let u1 := set_isUploading true u in
    if (3 <=? consecutiveFailures u1)
       && (gate_time env - lastUploadAttempt u1 <? backoffTime u1)
    then
      finish configManager u1
        {| success := false; message := None;
           error := Some "Backing off due to consecutive failures" |} []
    else
      let batch := take batchSize (uploadQueue u1) in
      let u2 := set_queue (drop batchSize (uploadQueue u1)) u1 in
      let '(cm, u3, log) := run_batch (delivery env) 0 batch configManager u2 in
      let u4 := set_lastUploadAttempt (end_time env) u3 in
      finish cm u4
        {| success := true;
           message := Some ("Processed " +:+ Number_toString (Num (Z.of_nat (length batch)))
                            +:+ " items");
           error := None |} log.

(** [uploadData]: the push, then a drain unless one is active. *)
Definition uploadData {C} `{ConfigProvider C}
    (addonData : AddonData.t) (path : string) (now : Z) (env : CycleEnv)
    (configManager : C) (u : t) : Cycle C :=
  let u1 := set_queue (uploadQueue u ++ [{| data := addonData; filePath := path; timestamp := now |}]) u in
  if negb (isUploading u1) then processUploadQueue env configManager u1
  else
    {| uploader := u1; config := configManager;
       response := {| success := true; message := Some "Added to upload queue"; error := None |};
       attempts := []; rescheduled := false |}.

(** [retryFailedUploads] and [clearQueue] outside a drain. *)
Definition retryFailedUploads {C} `{ConfigProvider C}
    (env : CycleEnv) (configManager : C) (u : t) : Cycle C :=
  processUploadQueue env configManager (set_consecutiveFailures 0 u).

Definition clearQueue (u : t) : t := set_queue [] u.

(** The two ways a drain cycle gets started, and a run of them. *)
Inductive QueueOp : Type :=
| Drain (env : CycleEnv)
| Upload (addonData : AddonData.t) (path : string) (now : Z) (env : CycleEnv).

Definition op_env (op : QueueOp) : CycleEnv :=
  match op with
  | Drain env => env
  | Upload _ _ _ env => env
  end.

Definition run_op {C} `{ConfigProvider C} (op : QueueOp) (configManager : C) (u : t) : Cycle C :=
  match op with
  | Drain env => processUploadQueue env configManager u
  | Upload addonData path now env => uploadData addonData path now env configManager u
  end.

Fixpoint run_ops {C} `{ConfigProvider C} (ops : list QueueOp) (configManager : C) (u : t)
  : C * t * list Attempt :=
  match ops with
  | [] => (configManager, u, [])
  | op :: ops' =>
      let c := run_op op configManager u in
      let '(cm, u', log) := run_ops ops' (config c) (uploader c) in
      (cm, u', (attempts c ++ log)%list)
  end.

(** The items the [Upload] operations of a run push. *)
Definition pushed (ops : list QueueOp) : list QueueItem :=
  flat_map (fun op => match op with
                      | Drain _ => []
                      | Upload addonData path now _ =>
                          [{| data := addonData; filePath := path; timestamp := now |}]
                      end) ops.

(** An attempt is a delivery when the response has status 200; every other
    settlement makes [uploadSingleItem] throw. *)
Definition delivered (o : HttpOutcome) : bool :=
  match o with
  | HttpResponse status _ => status =? 200
  | HttpRejected _ => false
  end.

(** Queue items are told apart by source path and enqueue time. *)
Definition same_item (a b : QueueItem) : bool :=
  String.eqb (filePath a) (filePath b) && (timestamp a =? timestamp b).

(** How often the deliveries of [x] failed in a log. *)
Definition failure_count (x : QueueItem) (log : list Attempt) : nat :=
  length (List.filter (fun a => same_item x (attempted a) && negb (delivered (outcome a))) log).

(** A cycle environment in which nothing interleaves and every request is
    rejected. *)
Definition rejecting (gate finish : Z) : CycleEnv :=
  {| gate_time := gate;
     delivery := fun _ => ([], HttpRejected "timeout of 30000ms exceeded");
     end_time := finish |}.

(** [testConnection]: the request goes through the same client, hence
    through the interceptor; any response that resolves counts as success. *)
Module ConnectionTest.
Record t : Type := {
  success : bool;
  latency : option Z;
  error : option string;
  serverInfo : option JsVal
}.
End ConnectionTest.

Definition testConnection (startTime endTime : Z) (o : HttpOutcome) (responseData : JsVal)
    (u : t) : ConnectionTest.t * t :=
  match o with
  | HttpResponse _ _ =>
      ({| ConnectionTest.success := true;
          ConnectionTest.latency := Some (endTime - startTime);
          ConnectionTest.error := None;
          ConnectionTest.serverInfo := Some responseData |},
       intercept o u)
  | HttpRejected message =>
      ({| ConnectionTest.success := false;
          ConnectionTest.latency := None;
          ConnectionTest.error := Some message;
          ConnectionTest.serverInfo := None |},
       intercept o u)
  end.

(** [forceSyncAll]: the response, its [timestamp] field, and the uploader
    after the interceptor has run. *)
Definition forceSyncAll (now : Z) (o : HttpOutcome) (u : t) : UploadResponse * option Z * t :=
  match o with
  | HttpResponse _ _ =>
      ({| success := true;
          message := Some "Force sync completed - manually triggered data synchronization";
          error := None |},
       Some now, intercept o u)
  | HttpRejected e =>
      ({| success := false; message := None; error := Some e |}, None, intercept o u)
  end.

Record QueueStatus : Type := {
  queueLength : nat;
  status_isUploading : bool;
  status_consecutiveFailures : Z
}.

Definition getQueueStatus (u : t) : QueueStatus :=
  {| queueLength := length (uploadQueue u);
     status_isUploading := isUploading u;
     status_consecutiveFailures := consecutiveFailures u |}.

(** The items that [uploadData] calls push during a delivery, and whether
    [clearQueue] is among the interleaved events. *)
Definition arrived (during : list Interleaved) : list QueueItem :=
  flat_map (fun e => match e with Arrive item => [item] | _ => [] end) during.

Definition clears (e : Interleaved) : bool :=
  match e with ClearQueue => true | _ => false end.

(** The interleaved events of the first [n] deliveries of a cycle. *)
Definition during_first (env : CycleEnv) (n : nat) : list Interleaved :=
  flat_map (fun i => (delivery env i).1) (seq 0 n).

(** Every delivery of the cycle is answered with status 200 and nothing
    interleaves. *)
Definition delivers_all (env : CycleEnv) : Prop :=
  forall i, exists statusText, delivery env i = ([], HttpResponse 200 statusText).

(** What a cycle that delivers every item of its batch does to the
    configuration. *)
Definition sync_batch {C} `{ConfigProvider C} (batch : list QueueItem) (configManager : C) : C :=
  fold_left
    (fun cm item =>
       sync_characters (map fst (AddonData.characters (data item))) (timestamp item) cm)
    batch configManager.

End DataUploader.

(** * Vocabulary of the statements *)

(** A configuration provider that only records the calls made to its
    [updateCharacterSync]. *)
Module Recorder.
Definition t : Type := list (string * string * Z).

#[global] Instance provider : ConfigProvider t := {|
  cfg_getDeviceId := fun _ => "recorder";
  cfg_getServerUrl := fun _ => "";
  cfg_isAutoUploadEnabled := fun _ => true;
  cfg_updateCharacterSync := fun n r timestamp calls => (calls ++ [(n, r, timestamp)])%list
|}.
End Recorder.

(** Snapshots for closed examples: a character extracted from an empty
    table under the given key, and a snapshot holding such characters. *)
Definition plain_character (key : string) : CharacterData.t :=
  {| CharacterData.name := FileWatcher.split_part key 0;
     CharacterData.realm := Js.or_else (FileWatcher.split_part key 1) (JStr "Unknown");
     CharacterData.cards := [];
     CharacterData.professions := [];
     CharacterData.class := JStr "WARRIOR";
     CharacterData.lastUpdate := 0 |}.

Definition snapshot_of (keys : list string) : AddonData.t :=
  {| AddonData.characters := map (fun key => (key, plain_character key)) keys;
     AddonData.auctionData :=
       {| AuctionData.lastScan := JNum (Num 0); AuctionData.scanCount := JNum (Num 0);
          AuctionData.realm := JStr "Unknown"; AuctionData.itemCount := 0;
          AuctionData.data := JObj [] |};
     AddonData.craftedCards := JObj [];
     AddonData.settings := JObj [];
     AddonData.timestamp := 0;
     AddonData.version := "1.0.0" |}.

Definition configured (n r : string) (lastSync : option Z) : ConfigManager.CharacterConfig :=
  {| ConfigManager.name := n; ConfigManager.realm := r;
     ConfigManager.enabled := true; ConfigManager.lastSync := lastSync |}.

Definition config_with (cs : list ConfigManager.CharacterConfig) : ConfigManager.t :=
  {| ConfigManager.wowPath := ""; ConfigManager.serverUrl := "https://scribey.app";
     ConfigManager.autoUpload := true; ConfigManager.uploadInterval := 30000;
     ConfigManager.characters := cs;
     ConfigManager.deviceId := None; ConfigManager._deviceId := None |}.

(** Scenario E: the queue item of a snapshot with the characters "A-R1"
    and "B-R1", and a configuration that knows both. *)
Definition scenario_E_item : DataUploader.QueueItem :=
  {| DataUploader.data := snapshot_of ["A-R1"; "B-R1"];
     DataUploader.filePath := "Scribey.lua";
     DataUploader.timestamp := 1700000000000 |}.

Definition scenario_E_config : ConfigManager.t :=
  config_with [configured "A" "R1" None; configured "C" "R1" None; configured "B" "R1" (Some 7)].

(** Queue items for closed examples. *)
Definition queue_item (key path : string) (time : Z) : DataUploader.QueueItem :=
  {| DataUploader.data := snapshot_of [key];
     DataUploader.filePath := path;
     DataUploader.timestamp := time |}.

Definition item_X : DataUploader.QueueItem := queue_item "X-R1" "x/Scribey.lua" 25000.
Definition item_Y : DataUploader.QueueItem := queue_item "Y-R1" "y/Scribey.lua" 1000.

(** A run in which [item_Y] is enqueued and rejected four times, [item_X]
    arrives during the back-off, and the next cycle that passes the gate
    takes both. *)
Definition late_arrival_run : list DataUploader.QueueOp :=
  [ DataUploader.Upload (snapshot_of ["Y-R1"]) "y/Scribey.lua" 1000 (DataUploader.rejecting 1000 1001);
    DataUploader.Drain (DataUploader.rejecting 2001 2002);
    DataUploader.Drain (DataUploader.rejecting 3002 3003);
    DataUploader.Drain (DataUploader.rejecting 20000 20001);
    DataUploader.Upload (snapshot_of ["X-R1"]) "x/Scribey.lua" 25000 (DataUploader.rejecting 25000 25001);
    DataUploader.Drain (DataUploader.rejecting 41000 41001) ].

(** A full batch met by a service that rejects everything, one second after
    the previous cycle ended. *)
Definition five_items : list DataUploader.QueueItem :=
  [ queue_item "A-R1" "a/Scribey.lua" 1100; queue_item "B-R1" "b/Scribey.lua" 1200;
    queue_item "C-R1" "c/Scribey.lua" 1300; queue_item "D-R1" "d/Scribey.lua" 1400;
    queue_item "E-R1" "e/Scribey.lua" 1500 ].

Definition after_a_delivery : DataUploader.t :=
  {| DataUploader.uploadQueue := five_items;
     DataUploader.isUploading := false;
     DataUploader.lastUploadAttempt := 1000;
     DataUploader.consecutiveFailures := 0 |}.

(** The back-off gate is open: too few failures, or enough time elapsed. *)
Definition gate_open (env : DataUploader.CycleEnv) (u : DataUploader.t) : Prop :=
  DataUploader.consecutiveFailures u < 3
  \/ DataUploader.backoffTime u <= DataUploader.gate_time env - DataUploader.lastUploadAttempt u.

(** Nothing interleaves and the first request of the cycle is rejected. *)
Definition rejects_first (env : DataUploader.CycleEnv) : Prop :=
  exists message, DataUploader.delivery env 0%nat = ([], DataUploader.HttpRejected message).

(** How many handler runs of a trace entered the pipeline, and how many
    reached the upload queue. *)
Definition decode_count (effs : list FileWatcher.Effects) : nat :=
  length (List.filter FileWatcher.decoded effs).

Definition enqueue_count (effs : list FileWatcher.Effects) : nat :=
  length (List.filter (fun eff => bool_decide (is_Some (FileWatcher.enqueued eff))) effs).

(** ** Instances for closed examples *)

(** The conversion of strings of decimal digits (and of the empty string);
    the examples below never convert any other string to a number. *)
Definition digits_engine : JsEngine :=
  {| StringToNumber := fun s =>
       if String.eqb s "" then Num 0
       else match NilEmpty.uint_of_string s with
            | Some u => Num (Z.of_N (N.of_uint u))
            | None => NaN
            end |}.

(** A string literal as [luaparse] 0.3 reports it in its default encoding
    mode: no [value], and the [raw] source text with its quotes. *)
Definition quoted (s : string) : string :=
  String FileWatcher.double_quote (s +:+ String FileWatcher.double_quote "").

Definition string_literal (s : string) : Ast := StringLiteral None (quoted s).

Definition named_field (k : string) (v : Ast) : Ast := TableKeyString (Identifier k) v.

(** Scenario A: the table text and the tree [luaparse] builds for it. *)
Definition scenario_A_text : string :=
  "ScribeyDB = { character_data = { [" +:+ quoted "Foo-Bar" +:+ "] = { character_name="
  +:+ quoted "Foo" +:+ ", realm_name=" +:+ quoted "Bar" +:+ ", class=" +:+ quoted "MAGE"
  +:+ ", professions={{name=" +:+ quoted "Tailoring"
  +:+ ",skill_level=300,max_skill_level=300}} } } }".

Definition scenario_A_character : Ast :=
  TableConstructorExpression
    [ named_field "character_name" (string_literal "Foo");
      named_field "realm_name" (string_literal "Bar");
      named_field "class" (string_literal "MAGE");
      named_field "professions"
        (TableConstructorExpression
           [ TableValue
               (TableConstructorExpression
                  [ named_field "name" (string_literal "Tailoring");
                    named_field "skill_level" (NumericLiteral 300);
                    named_field "max_skill_level" (NumericLiteral 300) ]) ]) ].

Definition scenario_A_body : list Stmt :=
  [ AssignmentStatement [Identifier "ScribeyDB"]
      [ TableConstructorExpression
          [ named_field "character_data"
              (TableConstructorExpression
                 [ TableKey (string_literal "Foo-Bar") scenario_A_character ]) ] ] ].

(** A parser that knows the text of Scenario A and rejects everything
    else. *)
Definition scenario_parser : LuaParser :=
  {| luaparse_parse := fun content =>
       if String.eqb content scenario_A_text then Ok scenario_A_body
       else Throw "unexpected symbol" |}.

(** The clock of closed examples. *)
Definition fixed_clock (time : Z) : ParseClock :=
  {| character_time := fun _ => time; snapshot_time := time |}.

(** A watcher that has seen nothing yet. *)
Definition fresh_watcher : FileWatcher.t :=
  {| FileWatcher.isActive := true;
     FileWatcher.watchedFiles := ["acct/SavedVariables/Scribey.lua"];
     FileWatcher.lastUpdate := None;
     FileWatcher.lastError := None;
     FileWatcher.lastFileContents := ∅;
     FileWatcher.lastUploadAttempt := ∅ |}.

(** The file of Scenario A, read at the given times. *)
Definition scenario_A_event (time : Z) : FileWatcher.FileEvent :=
  {| FileWatcher.filePath := "acct/SavedVariables/Scribey.lua";
     FileWatcher.read := FileWatcher.FileContent scenario_A_text;
     FileWatcher.update_time := time;
     FileWatcher.now := time;
     FileWatcher.clock := fixed_clock time |}.

(** The handler with the instances above and the real configuration. *)
Definition example_handle
  : ConfigManager.t -> FileWatcher.FileEvent -> FileWatcher.t
    -> FileWatcher.t * FileWatcher.Effects :=
  @FileWatcher.handleFileChange digits_engine scenario_parser
     ConfigManager.t ConfigManager.provider.

(** A watcher that uploaded an older content of the scenario file at the
    given time. *)
Definition watcher_after_upload (time : Z) : FileWatcher.t :=
  {| FileWatcher.isActive := true;
     FileWatcher.watchedFiles := ["acct/SavedVariables/Scribey.lua"];
     FileWatcher.lastUpdate := Some time;
     FileWatcher.lastError := None;
     FileWatcher.lastFileContents := {[ "acct/SavedVariables/Scribey.lua" := "ScribeyDB = {}" ]};
     FileWatcher.lastUploadAttempt := {[ "acct/SavedVariables/Scribey.lua" := time ]} |}.

(** ** Top-level bindings of the global table

    The [i]-th target of the statement is the identifier [ScribeyDB] and the
    statement has a right-hand expression [e] at the same position. *)
Definition binds_at (i : nat) (stmt : Stmt) (e : Ast) : Prop :=
  match stmt with
  | AssignmentStatement variables init =>
      variables !! i = Some (Identifier "ScribeyDB") /\ init !! i = Some e
  | OtherStatement _ => False
  end.

Definition binds (stmt : Stmt) : Prop := exists i e, binds_at i stmt e.

(** [e] is the expression of the leftmost binding of the statement. *)
Definition first_binding (stmt : Stmt) (e : Ast) : Prop :=
  exists i, binds_at i stmt e /\ forall j e', (j < i)%nat -> ~ binds_at j stmt e'.

(** ** The extraction rules, stated independently of the code

    A field counts as present when the table has it with a truthy value;
    otherwise the fallback applies. *)
Definition field_or (o : list (string * JsVal)) (k : string) (fallback : JsVal) : JsVal :=
  match Js.obj_get k o with
  | Some v => if Js.truthy v then v else fallback
  | None => fallback
  end.

(** The part of the map key before the first separator, and the part
    between the first and the second one (["Unknown"] when there is none or
    it is empty). *)
Definition key_first (fullName : string) : JsVal :=
  JStr (default "" (head (Js.split "-" fullName))).

Definition key_second (fullName : string) : JsVal :=
  match Js.split "-" fullName !! 1%nat with
  | Some r => if String.eqb r "" then JStr "Unknown" else JStr r
  | None => JStr "Unknown"
  end.

(** A profession entry without a name is skipped; skill level and cap
    default to 0 and 525. *)
Definition spec_profession (p : JsVal) : option ProfessionData.t :=
  match p with
  | JObj o =>
      match Js.obj_get "name" o with
      | Some n =>
          if Js.truthy n then
            Some {| ProfessionData.name := n;
                    ProfessionData.skillLevel := field_or o "skill_level" (JNum (Num 0));
                    ProfessionData.maxSkill := field_or o "max_skill_level" (JNum (Num 525));
                    ProfessionData.recipes := [] |}
          else None
      | None => None
      end
  | _ => None
  end.

Definition spec_character (fullName : string) (o : list (string * JsVal)) (now : Z)
  : CharacterData.t :=
  {| CharacterData.name := field_or o "character_name" (key_first fullName);
     CharacterData.realm := field_or o "realm_name" (key_second fullName);
     CharacterData.cards := [];
     CharacterData.professions :=
       match Js.obj_get "professions" o with
       | Some (JArr l) => omap spec_profession l
       | _ => []
       end;
     CharacterData.class := field_or o "class" (JStr "WARRIOR");
     CharacterData.lastUpdate := now |}.

(** The record Scenario A expects under the key "Foo-Bar". *)
Definition scenario_A_record (time : Z) : CharacterData.t :=
  {| CharacterData.name := JStr "Foo";
     CharacterData.realm := JStr "Bar";
     CharacterData.cards := [];
     CharacterData.professions :=
       [{| ProfessionData.name := JStr "Tailoring";
           ProfessionData.skillLevel := JNum (Num 300);
           ProfessionData.maxSkill := JNum (Num 300);
           ProfessionData.recipes := [] |}];
     CharacterData.class := JStr "MAGE";
     CharacterData.lastUpdate := time |}.

(** A character table that names its character with the empty string. *)
Definition unnamed_character : Ast :=
  TableConstructorExpression
    [ named_field "character_name" (string_literal "");
      named_field "realm_name" (string_literal "Bar") ].

(** Statements around two bindings of the global table. *)
Definition two_bindings_pre : list Stmt :=
  [ OtherStatement "LocalStatement";
    AssignmentStatement [Identifier "ScribeyConfig"] [TableConstructorExpression []];
    AssignmentStatement [Identifier "a"; Identifier "ScribeyDB"] [NumericLiteral 1] ].

Definition two_bindings_first : Stmt :=
  AssignmentStatement [Identifier "b"; Identifier "ScribeyDB"]
    [ NumericLiteral 1; TableConstructorExpression [named_field "first" (BooleanLiteral true)] ].

Definition two_bindings_post : list Stmt :=
  [ AssignmentStatement [Identifier "ScribeyDB"]
      [ TableConstructorExpression [named_field "second" (BooleanLiteral true)] ] ].

(** Neither [nil] nor [undefined]. *)
Definition not_nil (p : JsVal) : Prop := p <> JNull /\ p <> JUndefined.

(** The log line about the auction section does not throw: it interpolates
    [auctionData.last_scan || 'never']. *)
Definition auction_log_line (scribeyDB : JsVal) : JsResult unit :=
  auction_prices ← Js.get scribeyDB "auction_prices";
  last_scan ← Js.get (Js.or_else auction_prices (JObj [])) "last_scan";
  _ ← Js.ToString (Js.or_else last_scan (JStr "never"));
  Ok ().

(** A parser with a fixed answer, to run the extraction on a given tree. *)
Definition parser_of (body : list Stmt) : LuaParser :=
  {| luaparse_parse := fun _ => Ok body |}.

(** Scenario C: a character table, an entry whose value is [nil], and an
    entry whose value is a number. *)
Definition scenario_C_body : list Stmt :=
  [ AssignmentStatement [Identifier "ScribeyDB"]
      [ TableConstructorExpression
          [ named_field "character_data"
              (TableConstructorExpression
                 [ TableKey (string_literal "Good-One")
                     (TableConstructorExpression [named_field "class" (string_literal "MAGE")]);
                   TableKey (string_literal "Gone-Two") NilLiteral;
                   TableKey (string_literal "Odd-Three") (NumericLiteral 5);
                   TableKey (string_literal "Good-Four") scenario_A_character ]) ] ] ].

(** The entries of the [character_data] table of Scenario C, decoded. *)
Definition scenario_C_entries : list (string * JsVal) :=
  [ ("Good-One", JObj [("class", JStr "MAGE")]);
    ("Gone-Two", JNull);
    ("Odd-Three", JNum (Num 5));
    ("Good-Four",
     JObj [("character_name", JStr "Foo"); ("realm_name", JStr "Bar"); ("class", JStr "MAGE");
           ("professions",
            JArr [JObj [("name", JStr "Tailoring"); ("skill_level", JNum (Num 300));
                        ("max_skill_level", JNum (Num 300))]])]) ].

(** An array-style table with a hole, as the game client writes them, alone
    and inside the global table. *)
Definition table_with_hole : Ast :=
  TableConstructorExpression
    [ TableValue (NumericLiteral 1); TableValue NilLiteral; TableValue (NumericLiteral 3) ].

Definition body_with_hole : list Stmt :=
  [ AssignmentStatement [Identifier "ScribeyDB"]
      [ TableConstructorExpression
          [ named_field "character_data"
              (TableConstructorExpression [TableKey (string_literal "Foo-Bar") scenario_A_character]);
            named_field "order" table_with_hole ] ] ].

(** The first request of the cycle resolves, with nothing interleaved, with
    a status other than 200. *)
Definition answers_without_200 (env : DataUploader.CycleEnv) : Prop :=
  exists status statusText,
    DataUploader.delivery env 0%nat = ([], DataUploader.HttpResponse status statusText)
    /\ status <> 200.

(** A cycle in which every request is answered with status 200. *)
Definition delivering (gate finish : Z) : DataUploader.CycleEnv :=
  {| DataUploader.gate_time := gate;
     DataUploader.delivery := fun _ => ([], DataUploader.HttpResponse 200 "OK");
     DataUploader.end_time := finish |}.

(** A cycle in which every request is answered with status 201. *)
Definition accepting (gate finish : Z) : DataUploader.CycleEnv :=
  {| DataUploader.gate_time := gate;
     DataUploader.delivery := fun _ => ([], DataUploader.HttpResponse 201 "Created");
     DataUploader.end_time := finish |}.

(** A queue of seven items behind a closed gate. *)
Definition seven_items : list DataUploader.QueueItem :=
  (five_items ++ [queue_item "F-R1" "f/Scribey.lua" 1600; queue_item "G-R1" "g/Scribey.lua" 1700])%list.

Definition backed_off : DataUploader.t :=
  {| DataUploader.uploadQueue := seven_items;
     DataUploader.isUploading := false;
     DataUploader.lastUploadAttempt := 1000;
     DataUploader.consecutiveFailures := 4 |}.

(** A cycle in which an upload arrives while the first request is in
    flight; the first request is answered with 200, the second is rejected,
    every later one is answered with 202. *)
Definition mixed_cycle (gate finish : Z) : DataUploader.CycleEnv :=
  {| DataUploader.gate_time := gate;
     DataUploader.delivery := fun i =>
       match i with
       | O => ([DataUploader.Arrive item_X], DataUploader.HttpResponse 200 "OK")
       | S O => ([], DataUploader.HttpRejected "socket hang up")
       | _ => ([], DataUploader.HttpResponse 202 "Accepted")
       end;
     DataUploader.end_time := finish |}.

(** No [clearQueue] runs during the deliveries of the cycle's batch. *)
Definition never_cleared (env : DataUploader.CycleEnv) (u : DataUploader.t) : Prop :=
  Forall (fun e => DataUploader.clears e = false)
    (DataUploader.during_first env (length (take 5 (DataUploader.uploadQueue u)))).

(** A request made outside the queue, with the way it settled. *)
Inductive Probe : Type :=
| TestConnection (startTime endTime : Z) (o : DataUploader.HttpOutcome) (responseData : JsVal)
| ForceSync (now : Z) (o : DataUploader.HttpOutcome).

Definition probe_outcome (p : Probe) : DataUploader.HttpOutcome :=
  match p with
  | TestConnection _ _ o _ => o
  | ForceSync _ o => o
  end.

Definition probe (p : Probe) (u : DataUploader.t) : DataUploader.t :=
  match p with
  | TestConnection startTime endTime o responseData =>
      (DataUploader.testConnection startTime endTime o responseData u).2
  | ForceSync now o => (DataUploader.forceSyncAll now o u).2
  end.

Definition probes (ps : list Probe) (u : DataUploader.t) : DataUploader.t :=
  fold_left (fun u p => probe p u) ps u.

Definition resolved (o : DataUploader.HttpOutcome) : bool :=
  match o with
  | DataUploader.HttpResponse _ _ => true
  | DataUploader.HttpRejected _ => false
  end.

(** Every request of the cycle resolves with a status other than 200 and
    nothing interleaves. *)
Definition never_200 (env : DataUploader.CycleEnv) : Prop :=
  forall i, exists status statusText,
    DataUploader.delivery env i = ([], DataUploader.HttpResponse status statusText)
    /\ status <> 200.

(** The scenario path read with a text the parser rejects. *)
Definition unreadable_event (time : Z) : FileWatcher.FileEvent :=
  {| FileWatcher.filePath := "acct/SavedVariables/Scribey.lua";
     FileWatcher.read := FileWatcher.FileContent "ScribeyDB = ";
     FileWatcher.update_time := time;
     FileWatcher.now := time;
     FileWatcher.clock := fixed_clock time |}.

(** The handler on a trace, with the instances of the closed examples. *)
Definition example_handle_all
  : ConfigManager.t -> list FileWatcher.FileEvent -> FileWatcher.t
    -> FileWatcher.t * list FileWatcher.Effects :=
  @FileWatcher.handle_all digits_engine scenario_parser
     ConfigManager.t ConfigManager.provider.

(** Two watcher states remember the same contents and upload times. *)
Definition same_memory (w w' : FileWatcher.t) : Prop :=
  FileWatcher.lastFileContents w = FileWatcher.lastFileContents w'
  /\ FileWatcher.lastUploadAttempt w = FileWatcher.lastUploadAttempt w'.

(** [x] sits in [root] at a place the reduction of [root] reaches: the
    operand of a minus, the key or the value of a field, a field of a
    table. *)
Inductive evaluated_in : Ast -> Ast -> Prop :=
| ev_here (x : Ast) : evaluated_in x x
| ev_minus (argument x : Ast) :
    evaluated_in argument x -> evaluated_in (UnaryExpression "-" argument) x
| ev_key (key value x : Ast) :
    evaluated_in key x -> evaluated_in (TableKey key value) x
| ev_key_value (key value x : Ast) :
    evaluated_in value x -> evaluated_in (TableKey key value) x
| ev_name (key value x : Ast) :
    evaluated_in key x -> evaluated_in (TableKeyString key value) x
| ev_name_value (key value x : Ast) :
    evaluated_in value x -> evaluated_in (TableKeyString key value) x
| ev_positional (value x : Ast) :
    evaluated_in value x -> evaluated_in (TableValue value) x
| ev_field (fields : list Ast) (field x : Ast) :
    In field fields -> evaluated_in field x ->
    evaluated_in (TableConstructorExpression fields) x.

(** A saved-variables file in which one profession entry holds a function
    value. *)
Definition body_with_function : list Stmt :=
  [ AssignmentStatement [Identifier "ScribeyDB"]
      [ TableConstructorExpression
          [ named_field "character_data"
              (TableConstructorExpression
                 [ TableKey (string_literal "Foo-Bar") scenario_A_character;
                   TableKey (string_literal "Baz-Bar")
                     (TableConstructorExpression
                        [ named_field "on_update" (OtherExpression "FunctionDeclaration") ]) ]) ] ] ].





(** A value that is not an object carrying a truthy property
    [__internal_table_key] of its own. *)
Definition unmarked (v : JsVal) : Prop :=
  forall o, v = JObj o ->
    Js.truthy (default JUndefined (Js.obj_get "__internal_table_key" o)) = false.

(** ** The shape of a version assignment

    White space only, and no double quote. *)
Definition all_spaces (s : string) : Prop :=
  Forall (fun c => FileWatcher.is_space c = true) (list_ascii_of_string s).

Definition quote_free (s : string) : Prop :=
  Forall (fun c => c <> FileWatcher.double_quote) (list_ascii_of_string s).

(** Somewhere in [content] the word [version] is followed by an equals sign
    and the quoted text [v], with nothing but white space in between. *)
Definition assigns_version (content v : string) : Prop :=
  exists pre ws1 ws2 post,
    all_spaces ws1 /\ all_spaces ws2
    /\ content = pre +:+ "version" +:+ ws1 +:+ "=" +:+ ws2 +:+ quoted v +:+ post.

(** What every extracted profession and character satisfies. *)
Definition profession_ok (p : ProfessionData.t) : Prop :=
  Js.truthy (ProfessionData.name p) = true
  /\ Js.truthy (ProfessionData.maxSkill p) = true
  /\ (Js.truthy (ProfessionData.skillLevel p) = true
      \/ ProfessionData.skillLevel p = JNum (Num 0))
  /\ ProfessionData.recipes p = [].

Definition character_ok (fullName : string) (now : Z) (c : CharacterData.t) : Prop :=
  (Js.truthy (CharacterData.name c) = true
   \/ CharacterData.name c = FileWatcher.split_part fullName 0)
  /\ Js.truthy (CharacterData.realm c) = true
  /\ Js.truthy (CharacterData.class c) = true
  /\ CharacterData.cards c = []
  /\ CharacterData.lastUpdate c = now
  /\ Forall profession_ok (CharacterData.professions c).

(** A character entry whose list of professions has a hole. *)
Definition entry_with_hole : JsVal :=
  JObj [("character_name", JStr "Foo");
        ("professions", JArr [JObj [("name", JStr "Tailoring")]; JNull])].

(** The snapshot and the ledger Scenario A yields when every clock reading
    is [time]. *)
Definition scenario_A_snapshot (time : Z) : AddonData.t :=
  {| AddonData.characters := [("Foo-Bar", scenario_A_record time)];
     AddonData.auctionData :=
       {| AuctionData.lastScan := JNum (Num 0);
          AuctionData.scanCount := JNum (Num 0);
          AuctionData.realm := JStr "Unknown";
          AuctionData.itemCount := 0;
          AuctionData.data := JObj [] |};
     AddonData.craftedCards := JObj [];
     AddonData.settings := JObj [];
     AddonData.timestamp := time;
     AddonData.version := "1.0.0" |}.

Definition scenario_A_ledger (time : Z) : list FileWatcher.ParseResult :=
  [ {| FileWatcher.fullCharacterName := "Foo-Bar";
       FileWatcher.rawCharData :=
         JObj [("character_name", JStr "Foo"); ("realm_name", JStr "Bar");
               ("class", JStr "MAGE");
               ("professions",
                JArr [JObj [("name", JStr "Tailoring"); ("skill_level", JNum (Num 300));
                            ("max_skill_level", JNum (Num 300))]])];
       FileWatcher.parseSuccess := true;
       FileWatcher.parsedCharacter := Some (scenario_A_record time);
       FileWatcher.error := None |} ].

(** Only uploads arrive and the queue is cleared while a request is in
    flight; nothing else touches the uploader. *)
Definition only_pushes_and_clears (during : list DataUploader.Interleaved) : Prop :=
  Forall (fun e => match e with
                   | DataUploader.Arrive _ | DataUploader.ClearQueue => True
                   | _ => False
                   end) during.

(** A cycle whose only request is rejected while the queue is cleared. *)
Definition cleared_in_flight (gate finish : Z) : DataUploader.CycleEnv :=
  {| DataUploader.gate_time := gate;
     DataUploader.delivery := fun _ =>
       ([DataUploader.ClearQueue], DataUploader.HttpRejected "socket hang up");
     DataUploader.end_time := finish |}.

(** An installation at [C:/WoW] with one account file, seen through a
    [path.join] that puts a slash between the parts; and the same disk
    without the [WTF] directory. *)
Definition slash_join (parts : list string) : string := Js.join "/" parts.

Definition installed : FileSystem :=
  {| fs_existsSync := fun p =>
       bool_decide (p ∈ ["C:/WoW"; "C:/WoW/_classic_"; "C:/WoW/_classic_/WTF";
                         "acct/SavedVariables/Scribey.lua"]);
     path_join := slash_join;
     fs_glob := fun _ => Ok ["acct/SavedVariables/Scribey.lua"] |}.

Definition never_logged_in : FileSystem :=
  {| fs_existsSync := fun p => bool_decide (p ∈ ["C:/WoW"; "C:/WoW/_classic_"]);
     path_join := slash_join;
     fs_glob := fun _ => Ok [] |}.

(** Every initial read finds the text of Scenario A at the given time. *)
Definition reads_scenario_A (time : Z) (file : string) : FileWatcher.Reading :=
  {| FileWatcher.reading_read := FileWatcher.FileContent scenario_A_text;
     FileWatcher.reading_update_time := time;
     FileWatcher.reading_now := time;
     FileWatcher.reading_clock := fixed_clock time |}.

(** A file whose auction section records its last scan as a word, the
    snapshot it decodes to, and the event of reading it. *)
Definition body_with_worded_scan : list Stmt :=
  [ AssignmentStatement [Identifier "ScribeyDB"]
      [ TableConstructorExpression
          [ named_field "character_data"
              (TableConstructorExpression
                 [ TableKey (string_literal "Foo-Bar") scenario_A_character ]);
            named_field "auction_prices"
              (TableConstructorExpression
                 [ named_field "last_scan" (string_literal "yesterday") ]) ] ] ].

Definition worded_scan_snapshot (time : Z) : AddonData.t :=
  {| AddonData.characters := [("Foo-Bar", scenario_A_record time)];
     AddonData.auctionData :=
       {| AuctionData.lastScan := JStr "yesterday";
          AuctionData.scanCount := JNum (Num 0);
          AuctionData.realm := JStr "Unknown";
          AuctionData.itemCount := 0;
          AuctionData.data := JObj [] |};
     AddonData.craftedCards := JObj [];
     AddonData.settings := JObj [];
     AddonData.timestamp := time;
     AddonData.version := "1.0.0" |}.

Definition worded_scan_event (time : Z) : FileWatcher.FileEvent :=
  {| FileWatcher.filePath := "acct/SavedVariables/Scribey.lua";
     FileWatcher.read := FileWatcher.FileContent "ScribeyDB = { }";
     FileWatcher.update_time := time;
     FileWatcher.now := time;
     FileWatcher.clock := fixed_clock time |}.

(** * Properties of the configuration provider *)

Module ConfigManagerFacts.
Import ConfigManager.

Lemma find_from_None {A} (p : A -> bool) (l : list A) (i : nat) :
  Forall (fun x => p x = false) l -> find_from p i l = None.
Proof.
  intros Hall. revert i.
  induction Hall as [|x l Hx _ IH]; intros i; simpl; [reflexivity|].
  rewrite Hx. apply IH.
Qed.

Lemma find_from_Some {A} (p : A -> bool) (l : list A) (i j : nat) (x : A) :
  find_from p i l = Some (j, x) ->
  (i <= j)%nat /\ l !! (j - i)%nat = Some x /\ p x = true
  /\ forall k y, (k < j - i)%nat -> l !! k = Some y -> p y = false.
Proof.
  revert i. induction l as [|y l IH]; intros i; simpl; [discriminate|].
  destruct (p y) eqn:Hy.
  - intros [= <- <-]. replace (i - i)%nat with 0%nat by lia.
    split; [lia|]. split; [reflexivity|]. split; [exact Hy|].
    intros k z Hk. lia.
  - intros Hf. destruct (IH _ Hf) as (Hle & Hlk & Hp & Hbefore).
    split; [lia|]. replace (j - i)%nat with (S (j - S i)) by lia.
    split; [exact Hlk|]. split; [exact Hp|].
    intros [|k] z Hk; simpl.
    + intros [= <-]. exact Hy.
    + intros Hz. apply (Hbefore k z); [lia | exact Hz].
Qed.

Lemma find_from_exists {A} (p : A -> bool) (l : list A) (i : nat) (x : A) :
  x ∈ l -> p x = true -> exists j y, find_from p i l = Some (j, y).
Proof.
  intros Hin Hp. revert i.
  induction Hin as [x l | x y l _ IH]; intros i; simpl.
  - rewrite Hp. eauto.
  - destruct (p y); eauto.
Qed.

Lemma same_character_spec (n r : string) (c : CharacterConfig) :
  same_character n r c = true <-> name c = n /\ realm c = r.
Proof.
  unfold same_character. rewrite andb_true_iff, !String.eqb_eq. reflexivity.
Qed.

(** The list after an update, position by position. *)
Lemma updateCharacterSync_lookup (n r : string) (timestamp : Z) (cm : t) (i : nat) :
  characters (updateCharacterSync n r timestamp cm) !! i =
    match characters cm !! i with
    | Some c =>
        match find_from (same_character n r) 0 (characters cm) with
        | Some (j, _) => if decide (i = j) then Some (set_lastSync timestamp c) else Some c
        | None => Some c
        end
    | None => None
    end.
Proof.
  unfold updateCharacterSync, getCharacters.
  destruct (find_from _ 0 (characters cm)) as [[j x]|] eqn:Hf; simpl.
  - destruct (find_from_Some _ _ _ _ _ Hf) as (_ & Hj & _ & _).
    rewrite Nat.sub_0_r in Hj.
    destruct (decide (i = j)) as [->|Hne].
    + rewrite Hj. rewrite list_lookup_insert_eq; [reflexivity|].
      eapply lookup_lt_Some; eauto.
    + rewrite list_lookup_insert_ne by congruence.
      destruct (characters cm !! i); [|reflexivity].
      destruct (decide (i = j)); [contradiction | reflexivity].
  - destruct (characters cm !! i); reflexivity.
Qed.

Lemma updateCharacterSync_length (n r : string) (timestamp : Z) (cm : t) :
  length (characters (updateCharacterSync n r timestamp cm)) = length (characters cm).
Proof.
  unfold updateCharacterSync, getCharacters.
  destruct (find_from _ 0 (characters cm)) as [[j x]|]; simpl; [|reflexivity].
  apply length_insert.
Qed.

End ConfigManagerFacts.

Section CharacterSync.
Import ConfigManager ConfigManagerFacts.

(** C10. [updateCharacterSync(name, realm, timestamp)] changes the stored
    character list only at an already configured character whose name and
    realm both equal the arguments: without such an entry the whole
    configuration is returned unchanged, and in every case the list keeps
    its length, every entry keeps its name, realm and enabled flag, an entry
    that differs from the old one matched both arguments and now carries the
    timestamp, and no other setting is touched. *)
Theorem C10_updateCharacterSync_only_touches_a_match
    (n r : string) (timestamp : Z) (cm : ConfigManager.t) :
  (Forall (fun c => ~ (name c = n /\ realm c = r)) (characters cm) ->
     updateCharacterSync n r timestamp cm = cm)
  /\ length (characters (updateCharacterSync n r timestamp cm)) = length (characters cm)
  /\ (forall i c', characters (updateCharacterSync n r timestamp cm) !! i = Some c' ->
        exists c, characters cm !! i = Some c
          /\ name c' = name c /\ realm c' = realm c /\ enabled c' = enabled c
          /\ (c' <> c -> name c = n /\ realm c = r /\ lastSync c' = Some timestamp))
  /\ wowPath (updateCharacterSync n r timestamp cm) = wowPath cm
  /\ serverUrl (updateCharacterSync n r timestamp cm) = serverUrl cm
  /\ autoUpload (updateCharacterSync n r timestamp cm) = autoUpload cm
  /\ getDeviceId (updateCharacterSync n r timestamp cm) = getDeviceId cm.
Proof.
  split; [|split; [|split]].
  - intros Hnone. unfold updateCharacterSync, getCharacters.
    rewrite find_from_None; [reflexivity|].
    eapply Forall_impl; [exact Hnone|]. intros c Hc. simpl in Hc.
    destruct (same_character n r c) eqn:E; [|reflexivity].
    apply same_character_spec in E. contradiction.
  - apply updateCharacterSync_length.
  - intros i c' Hc'. rewrite updateCharacterSync_lookup in Hc'.
    destruct (characters cm !! i) as [c|] eqn:Hi; [|discriminate].
    exists c. split; [reflexivity|].
    destruct (find_from _ 0 (characters cm)) as [[j x]|] eqn:Hf.
    + destruct (decide (i = j)) as [->|Hne]; injection Hc' as <-.
      * destruct (find_from_Some _ _ _ _ _ Hf) as (_ & Hj & Hp & _).
        rewrite Nat.sub_0_r, Hi in Hj. injection Hj as <-.
        apply same_character_spec in Hp. simpl. tauto.
      * split; [reflexivity|]. split; [reflexivity|]. split; [reflexivity|].
        intros Hd. contradiction.
    + injection Hc' as <-.
      split; [reflexivity|]. split; [reflexivity|]. split; [reflexivity|].
      intros Hd. contradiction.
  - unfold updateCharacterSync, getCharacters.
    destruct (find_from _ 0 (characters cm)) as [[j x]|]; simpl; tauto.
Qed.

(** C10 on an update for an absent character: nothing is added, nothing
    changes. *)
Lemma C10_witness_absent_character :
  updateCharacterSync "A" "R1" 1700000000000
      (config_with [configured "B" "R1" None; configured "A" "R2" (Some 5)])
    = config_with [configured "B" "R1" None; configured "A" "R2" (Some 5)].
Proof.
  apply (proj1 (C10_updateCharacterSync_only_touches_a_match "A" "R1" 1700000000000
                  (config_with [configured "B" "R1" None; configured "A" "R2" (Some 5)]))).
  simpl. repeat constructor; simpl; intros [Hn Hr]; discriminate.
Defined.

End CharacterSync.

(** * Properties of the upload queue *)

Module SyncFacts.
Import ConfigManager ConfigManagerFacts DataUploader.

(** One update keeps every configured character in place, with its name
    and realm, and never clears a time stamp equal to the one it writes. *)
Lemma update_preserves (n r : string) (timestamp : Z) (cm : ConfigManager.t)
    (c : CharacterConfig) :
  c ∈ characters cm ->
  exists c', c' ∈ characters (updateCharacterSync n r timestamp cm)
    /\ name c' = name c /\ realm c' = realm c
    /\ (lastSync c = Some timestamp -> lastSync c' = Some timestamp).
Proof.
  intros Hin. apply list_elem_of_lookup in Hin as [i Hi].
  pose proof (updateCharacterSync_lookup n r timestamp cm i) as Hl.
  rewrite Hi in Hl.
  destruct (find_from _ 0 (characters cm)) as [[j x]|].
  - destruct (decide (i = j)).
    + exists (set_lastSync timestamp c). split; [eapply list_elem_of_lookup_2; eauto|].
      simpl. tauto.
    + exists c. split; [eapply list_elem_of_lookup_2; eauto|]. tauto.
  - exists c. split; [eapply list_elem_of_lookup_2; eauto|]. tauto.
Qed.

(** An update for a configured character stamps an entry of that name and
    realm. *)
Lemma update_marks (n r : string) (timestamp : Z) (cm : ConfigManager.t)
    (c : CharacterConfig) :
  c ∈ characters cm -> name c = n -> realm c = r ->
  exists c', c' ∈ characters (updateCharacterSync n r timestamp cm)
    /\ name c' = n /\ realm c' = r /\ lastSync c' = Some timestamp.
Proof.
  intros Hin Hn Hr.
  assert (Hp : same_character n r c = true) by (apply same_character_spec; tauto).
  destruct (find_from_exists _ _ 0 _ Hin Hp) as (j & y & Hf).
  destruct (find_from_Some _ _ _ _ _ Hf) as (_ & Hj & Hy & _).
  rewrite Nat.sub_0_r in Hj. apply same_character_spec in Hy as [Hyn Hyr].
  pose proof (updateCharacterSync_lookup n r timestamp cm j) as Hl.
  rewrite Hj, Hf in Hl. destruct (decide (j = j)); [|contradiction].
  exists (set_lastSync timestamp y).
  split; [eapply list_elem_of_lookup_2; eauto|]. simpl. tauto.
Qed.

Lemma sync_preserves (keys : list string) (timestamp : Z) (cm : ConfigManager.t)
    (c : CharacterConfig) :
  c ∈ characters cm ->
  exists c', c' ∈ characters (sync_characters keys timestamp cm)
    /\ name c' = name c /\ realm c' = realm c
    /\ (lastSync c = Some timestamp -> lastSync c' = Some timestamp).
Proof.
  revert cm c. induction keys as [|key keys IH]; intros cm c Hin; simpl.
  - exists c. tauto.
  - destruct (update_preserves (key_name key) (key_realm key) timestamp cm c Hin)
      as (c1 & Hin1 & Hn1 & Hr1 & Hs1).
    destruct (IH _ c1 Hin1) as (c2 & Hin2 & Hn2 & Hr2 & Hs2).
    exists c2. split; [exact Hin2|]. rewrite Hn2, Hr2. tauto.
Qed.

Lemma sync_marks (keys : list string) (timestamp : Z) (cm : ConfigManager.t)
    (key : string) (c : CharacterConfig) :
  In key keys -> c ∈ characters cm ->
  name c = key_name key -> realm c = key_realm key ->
  exists c', c' ∈ characters (sync_characters keys timestamp cm)
    /\ name c' = key_name key /\ realm c' = key_realm key
    /\ lastSync c' = Some timestamp.
Proof.
  revert cm c. induction keys as [|k keys IH]; intros cm c Hkey Hin Hn Hr; simpl.
  - destruct Hkey.
  - destruct Hkey as [->|Hkey].
    + destruct (update_marks _ _ timestamp cm c Hin Hn Hr) as (c1 & Hin1 & Hn1 & Hr1 & Hs1).
      destruct (sync_preserves keys timestamp _ c1 Hin1) as (c2 & Hin2 & Hn2 & Hr2 & Hs2).
      exists c2. split; [exact Hin2|]. rewrite Hn2, Hr2. tauto.
    + destruct (update_preserves (key_name k) (key_realm k) timestamp cm c Hin)
        as (c1 & Hin1 & Hn1 & Hr1 & _).
      apply (IH _ c1 Hkey Hin1); congruence.
Qed.

(** With the recording provider the calls appear one per key, in key
    order. *)
Lemma sync_records (keys : list string) (timestamp : Z) (calls : Recorder.t) :
  sync_characters keys timestamp calls
  = (calls ++ map (fun key => (key_name key, key_realm key, timestamp)) keys)%list.
Proof.
  revert calls. induction keys as [|k keys IH]; intros calls; simpl.
  - symmetry. apply app_nil_r.
  - rewrite IH. rewrite <- app_assoc. reflexivity.
Qed.

End SyncFacts.

Section DeliverySuccess.
Import ConfigManager DataUploader SyncFacts.

(** C8. When the upload request resolves with status 200, whatever ran on
    the event loop meanwhile: [uploadSingleItem] completes normally, the
    consecutive-failure counter is 0, the provider's [updateCharacterSync]
    has been called once for every character key of the delivered snapshot
    with the name and realm split from the key and the time stamp of the
    queue item (seen on the recording provider), and with the real
    [ConfigManager] every such key that names a configured character leaves
    a configured character of that name and realm stamped with that time. *)
Theorem C8_success_resets_counter_and_syncs_every_character
    (item : QueueItem) (during : list Interleaved) (statusText : string)
    (u : DataUploader.t) :
  let keys := map fst (AddonData.characters (data item)) in
  (forall calls : Recorder.t,
     uploadSingleItem item during (HttpResponse 200 statusText) calls u
     = (Ok (),
        (calls ++ map (fun key => (key_name key, key_realm key, timestamp item)) keys)%list,
        set_consecutiveFailures 0 (interleave_all during u)))
  /\ (forall cm : ConfigManager.t,
        let '(result, cm', u') :=
          uploadSingleItem item during (HttpResponse 200 statusText) cm u in
        result = Ok ()
        /\ consecutiveFailures u' = 0
        /\ uploadQueue u' = uploadQueue (interleave_all during u)
        /\ forall key c,
             In key keys -> c ∈ characters cm ->
             name c = key_name key -> realm c = key_realm key ->
             exists c', c' ∈ characters cm'
               /\ name c' = key_name key /\ realm c' = key_realm key
               /\ lastSync c' = Some (timestamp item)).
Proof.
  intros keys. split.
  - intros calls. unfold uploadSingleItem. simpl.
    rewrite sync_records. reflexivity.
  - intros cm. unfold uploadSingleItem. simpl.
    split; [reflexivity|]. split; [reflexivity|]. split; [reflexivity|].
    intros key c Hkey Hin Hn Hr.
    exact (sync_marks keys (timestamp item) cm key c Hkey Hin Hn Hr).
Qed.

(** C8 on Scenario E: both delivered characters end up stamped. *)
Lemma C8_witness_scenario_E :
  let cm' := snd (fst (uploadSingleItem scenario_E_item [] (HttpResponse 200 "OK")
                         scenario_E_config initial)) in
  (exists a, a ∈ characters cm' /\ name a = "A" /\ realm a = "R1"
             /\ lastSync a = Some 1700000000000)
  /\ (exists b, b ∈ characters cm' /\ name b = "B" /\ realm b = "R1"
               /\ lastSync b = Some 1700000000000).
Proof.
  pose proof (proj2 (C8_success_resets_counter_and_syncs_every_character
                       scenario_E_item [] "OK" initial) scenario_E_config) as H.
  destruct (uploadSingleItem scenario_E_item [] (HttpResponse 200 "OK")
              scenario_E_config initial) as [[result cm'] u'].
  destruct H as (_ & _ & _ & H). simpl. split.
  - apply (H "A-R1" (configured "A" "R1" None)).
    + simpl. left. reflexivity.
    + apply elem_of_cons. left. reflexivity.
    + reflexivity.
    + reflexivity.
  - apply (H "B-R1" (configured "B" "R1" (Some 7))).
    + simpl. right. left. reflexivity.
    + apply elem_of_cons. right. apply elem_of_cons. right.
      apply elem_of_cons. left. reflexivity.
    + reflexivity.
    + reflexivity.
Defined.

(** Scenario E, evaluated: the two delivered characters are stamped, the
    third configured character is left alone, and the calls are the two
    expected ones. *)
Example scenario_E_evaluated :
  uploadSingleItem scenario_E_item [] (HttpResponse 200 "OK") scenario_E_config initial
  = (Ok (),
     config_with [configured "A" "R1" (Some 1700000000000); configured "C" "R1" None;
                  configured "B" "R1" (Some 1700000000000)],
     initial)
  /\ uploadSingleItem scenario_E_item [] (HttpResponse 200 "OK") ([] : Recorder.t) initial
     = (Ok (), [("A", "R1", 1700000000000); ("B", "R1", 1700000000000)], initial).
Proof. split; reflexivity. Qed.

End DeliverySuccess.

Module QueueFacts.
Import DataUploader.

Lemma set_isUploading_restore (u : DataUploader.t) :
  isUploading u = false -> set_isUploading false (set_isUploading true u) = u.
Proof. destruct u; simpl; intros ->; reflexivity. Qed.

(** The loop body on a rejected request. *)
Lemma attempt_rejected {C} `{ConfigProvider C}
    (item : QueueItem) (during : list Interleaved) (message : string)
    (cm : C) (u : DataUploader.t) :
  attempt item during (HttpRejected message) cm u
  = (cm,
     let u1 := intercept (HttpRejected message) (interleave_all during u) in
     if consecutiveFailures u1 <? 5 then set_queue (item :: uploadQueue u1) u1 else u1).
Proof.
  unfold attempt, uploadSingleItem. simpl.
  destruct (consecutiveFailures (interleave_all during u) + 1 <? 5); reflexivity.
Qed.

(** A cycle that meets the closed gate gives back the state it was given. *)
Lemma closed_gate {C} `{ConfigProvider C} (env : CycleEnv) (cm : C) (u : DataUploader.t) :
  3 <= consecutiveFailures u ->
  gate_time env - lastUploadAttempt u < Z.min (consecutiveFailures u * 5000) 30000 ->
  uploader (processUploadQueue env cm u) = u
  /\ config (processUploadQueue env cm u) = cm
  /\ attempts (processUploadQueue env cm u) = []
  /\ (isUploading u = false -> uploadQueue u <> [] ->
       response (processUploadQueue env cm u)
       = {| success := false; message := None;
            error := Some "Backing off due to consecutive failures" |}
       /\ rescheduled (processUploadQueue env cm u) = true).
Proof.
  intros Hf Hw. unfold processUploadQueue.
  destruct (isUploading u) eqn:Hbusy; simpl.
  - repeat split; intros; discriminate.
  - destruct (uploadQueue u) as [|x q] eqn:Hq; simpl.
    + split; [reflexivity|]. split; [reflexivity|]. split; [reflexivity|].
      intros _ Hne. contradiction.
    + assert (Hge : (3 <=? consecutiveFailures u) = true) by (apply Z.leb_le; exact Hf).
      assert (Hlt : (gate_time env - lastUploadAttempt u <? backoffTime (set_isUploading true u))
                    = true) by (apply Z.ltb_lt; exact Hw).
      rewrite Hge, Hlt. simpl. unfold finish. simpl.
      split; [apply set_isUploading_restore; exact Hbusy|].
      split; [reflexivity|]. split; [reflexivity|].
      intros _ _. rewrite Hq. split; reflexivity.
Qed.

Lemma uploadData_closed_gate {C} `{ConfigProvider C}
    (addonData : AddonData.t) (path : string) (now : Z) (env : CycleEnv)
    (cm : C) (u : DataUploader.t) :
  3 <= consecutiveFailures u ->
  gate_time env - lastUploadAttempt u < Z.min (consecutiveFailures u * 5000) 30000 ->
  uploader (uploadData addonData path now env cm u)
  = set_queue (uploadQueue u ++ [{| data := addonData; filePath := path; timestamp := now |}]) u
  /\ config (uploadData addonData path now env cm u) = cm
  /\ attempts (uploadData addonData path now env cm u) = [].
Proof.
  intros Hf Hw. unfold uploadData.
  set (u1 := set_queue _ u).
  destruct (isUploading u1) eqn:Hbusy; simpl.
  - repeat split.
  - destruct (closed_gate env cm u1 Hf Hw) as (Hu & Hc & Ha & _).
    rewrite Hu, Hc, Ha. repeat split.
Qed.

End QueueFacts.

Section Backoff.
Import DataUploader QueueFacts.
Context {C : Type} `{ConfigProvider C}.

(** A run of drain cycles and uploads that all meet the closed gate. *)
Lemma run_ops_closed_gate (ops : list QueueOp) (cm : C) (u : DataUploader.t) :
  3 <= consecutiveFailures u ->
  Forall (fun op => gate_time (op_env op) - lastUploadAttempt u
                    < Z.min (consecutiveFailures u * 5000) 30000) ops ->
  run_ops ops cm u = (cm, set_queue (uploadQueue u ++ pushed ops) u, []).
Proof.
  intros Hf Hall. revert u Hf Hall.
  induction ops as [|op ops IH]; intros u Hf Hall; simpl.
  - rewrite app_nil_r. destruct u; reflexivity.
  - apply Forall_cons in Hall as [Hop Hall].
    destruct op as [env | addonData path now env]; simpl in *.
    + destruct (closed_gate env cm u Hf Hop) as (Hu & Hc & Ha & _).
      rewrite Hu, Hc, Ha. rewrite (IH u Hf Hall). reflexivity.
    + destruct (uploadData_closed_gate addonData path now env cm u Hf Hop) as (Hu & Hc & Ha).
      rewrite Hu, Hc, Ha.
      rewrite (IH (set_queue _ u)); [|exact Hf|exact Hall].
      simpl. rewrite <- app_assoc. reflexivity.
Qed.

(** C2, as the code has it.  While the consecutive-failure counter is at least 3
    and less than [min(counter * 5000, 30000)] ms have passed since the last
    upload attempt, a drain cycle hands back the uploader exactly as it
    found it: nothing is removed from the queue, nothing is attempted, and
    (when it really started, on a non-empty queue) it reports the back-off
    and is scheduled again.  Hence no run of drain cycles and uploads that
    start inside that window attempts any delivery: the queue only grows by
    what was pushed.  The gate is per cycle, not per item. *)
Theorem C2_closed_gate_aborts_without_consuming (cm : C) (u : DataUploader.t) :
  3 <= consecutiveFailures u ->
  (forall env,
     gate_time env - lastUploadAttempt u < Z.min (consecutiveFailures u * 5000) 30000 ->
     uploader (processUploadQueue env cm u) = u
     /\ config (processUploadQueue env cm u) = cm
     /\ attempts (processUploadQueue env cm u) = []
     /\ (isUploading u = false -> uploadQueue u <> [] ->
          response (processUploadQueue env cm u)
          = {| success := false; message := None;
               error := Some "Backing off due to consecutive failures" |}
          /\ rescheduled (processUploadQueue env cm u) = true))
  /\ (forall ops,
        Forall (fun op => gate_time (op_env op) - lastUploadAttempt u
                          < Z.min (consecutiveFailures u * 5000) 30000) ops ->
        let '(cm', u', log) := run_ops ops cm u in
        log = [] /\ cm' = cm
        /\ uploadQueue u' = (uploadQueue u ++ pushed ops)%list
        /\ consecutiveFailures u' = consecutiveFailures u
        /\ lastUploadAttempt u' = lastUploadAttempt u).
Proof.
  intros Hf. split.
  - intros env Hw. exact (closed_gate env cm u Hf Hw).
  - intros ops Hall. rewrite (run_ops_closed_gate ops cm u Hf Hall).
    simpl. repeat split.
Qed.

End Backoff.

Section BackoffExamples.
Import DataUploader.

(** C2 after four failures, within 20 s of the last attempt: three timer
    cycles and an upload all bounce off the gate. *)
Lemma C2_witness_four_failures :
  let u := {| uploadQueue := [item_Y]; isUploading := false;
              lastUploadAttempt := 20001; consecutiveFailures := 4 |} in
  let ops := [Drain (rejecting 21001 21002); Drain (rejecting 22002 22003);
              Upload (snapshot_of ["X-R1"]) "x/Scribey.lua" 25000 (rejecting 25000 25001);
              Drain (rejecting 26001 26002)] in
  attempts (processUploadQueue (rejecting 25000 25001) scenario_E_config u) = []
  /\ snd (run_ops ops scenario_E_config u) = [].
Proof.
  intros u ops.
  assert (Hf : 3 <= consecutiveFailures u) by (simpl; lia).
  destruct (C2_closed_gate_aborts_without_consuming scenario_E_config u Hf) as [Hone Hrun].
  split.
  - apply (Hone (rejecting 25000 25001)). simpl. lia.
  - assert (Hall : Forall (fun op => gate_time (op_env op) - lastUploadAttempt u
                                     < Z.min (consecutiveFailures u * 5000) 30000) ops).
    { repeat constructor; simpl; lia. }
    specialize (Hrun ops Hall).
    destruct (run_ops ops scenario_E_config u) as [[cm' u'] log].
    simpl. apply Hrun.
Defined.

(** C2, counterexample to "at most one delivery attempt inside the
    back-off window".  The gate is not consulted inside a batch: the cycle
    below starts 1 s after the last upload attempt with the counter at 0,
    its first three deliveries are rejected, and the fourth and fifth items
    are still attempted, with the counter at 3 and 4, before the cycle ends
    1005 ms after that last attempt: two delivery attempts inside the 15 s
    window that three consecutive failures open. *)
Lemma C2_counterexample_rest_of_batch_is_attempted :
  let c := processUploadQueue (rejecting 2000 2005) scenario_E_config after_a_delivery in
  map failures_before (attempts c) = [0; 1; 2; 3; 4]
  /\ length (List.filter (fun a => 3 <=? failures_before a) (attempts c)) = 2%nat
  /\ end_time (rejecting 2000 2005) - lastUploadAttempt after_a_delivery
     < Z.min (3 * 5000) 30000
  /\ ~ (length (List.filter (fun a => (3 <=? failures_before a)%Z) (attempts c)) <= 1)%nat.
Proof.
  simpl. split; [reflexivity|]. split; [reflexivity|]. split; [lia|]. lia.
Qed.

End BackoffExamples.

Section Requeue.
Import DataUploader QueueFacts.
Context {C : Type} `{ConfigProvider C}.

(** A cycle over a queue holding one item, whose request is rejected. *)
Lemma cycle_single_rejected (x : QueueItem) (message : string) (env : CycleEnv)
    (cm : C) (u : DataUploader.t) :
  uploadQueue u = [x] -> isUploading u = false ->
  delivery env 0%nat = ([], HttpRejected message) ->
  gate_open env u ->
  processUploadQueue env cm u
  = {| uploader :=
         {| uploadQueue := if consecutiveFailures u + 1 <? 5 then [x] else [];
            isUploading := false;
            lastUploadAttempt := end_time env;
            consecutiveFailures := consecutiveFailures u + 1 |};
       config := cm;
       response := {| success := true; message := Some "Processed 1 items"; error := None |};
       attempts := [{| attempted := x; failures_before := consecutiveFailures u;
                       outcome := HttpRejected message |}];
       rescheduled := consecutiveFailures u + 1 <? 5 |}.
Proof.
  intros Hq Hbusy Hd Hgate. unfold processUploadQueue.
  rewrite Hbusy, Hq. simpl.
  assert (Hopen : (3 <=? consecutiveFailures u)
                  && (gate_time env - lastUploadAttempt u
                      <? backoffTime (set_isUploading true u)) = false).
  { unfold gate_open in Hgate. unfold backoffTime in *. simpl.
    destruct Hgate as [Hlt | Hge].
    - apply andb_false_iff. left. apply Z.leb_gt. exact Hlt.
    - apply andb_false_iff. right. apply Z.ltb_ge. exact Hge. }
  rewrite Hopen, Hq. simpl. rewrite Hd.
  rewrite attempt_rejected. simpl.
  destruct (consecutiveFailures u + 1 <? 5); reflexivity.
Qed.

(** A batch of which every delivery is rejected, with nothing interleaved:
    the items attempted while the counter is still below 4 are put back,
    each in front of the previous one, and the others are gone. *)
Lemma batch_all_rejected (delivery : nat -> list Interleaved * HttpOutcome)
    (batch : list QueueItem) (i : nat) (cm : C) (u : DataUploader.t) :
  (forall j, exists message, delivery j = ([], HttpRejected message)) ->
  (run_batch delivery i batch cm u).1.1 = cm
  /\ consecutiveFailures (run_batch delivery i batch cm u).1.2
     = consecutiveFailures u + Z.of_nat (length batch)
  /\ uploadQueue (run_batch delivery i batch cm u).1.2
     = (rev (take (Z.to_nat (4 - consecutiveFailures u)) batch) ++ uploadQueue u)%list
  /\ map attempted (run_batch delivery i batch cm u).2 = batch.
Proof.
  intros Hall. revert i u.
  induction batch as [|x batch IH]; intros i u.
  - simpl. rewrite take_nil. simpl. repeat split. lia.
  - simpl. destruct (Hall i) as [message Hd]. rewrite Hd.
    rewrite attempt_rejected. simpl.
    destruct (Z.ltb_spec (consecutiveFailures u + 1) 5) as [Hlt | Hge].
    + specialize (IH (S i) (set_queue (x :: uploadQueue u)
                              (intercept (HttpRejected message) u))).
      destruct (run_batch delivery (S i) batch cm _) as [[cm2 u2] log].
      simpl in *. destruct IH as (Hcm & Hcount & Hqueue & Hlog).
      split; [exact Hcm|]. split; [lia|]. split; [|rewrite Hlog; reflexivity].
      rewrite Hqueue.
      replace (Z.to_nat (4 - consecutiveFailures u))
        with (S (Z.to_nat (4 - (consecutiveFailures u + 1)))) by lia.
      simpl. rewrite <- app_assoc. reflexivity.
    + specialize (IH (S i) (intercept (HttpRejected message) u)).
      destruct (run_batch delivery (S i) batch cm _) as [[cm2 u2] log].
      simpl in *. destruct IH as (Hcm & Hcount & Hqueue & Hlog).
      split; [exact Hcm|]. split; [lia|]. split; [|rewrite Hlog; reflexivity].
      rewrite Hqueue.
      replace (Z.to_nat (4 - (consecutiveFailures u + 1))) with 0%nat by lia.
      replace (Z.to_nat (4 - consecutiveFailures u)) with 0%nat by lia.
      reflexivity.
Qed.

(** Rewrite the next cycle of a run, whose state is known, with
    [cycle_single_rejected]. *)
Ltac step_cycle e Hd gate :=
  match goal with
  | Hd : delivery e 0%nat = ([], HttpRejected ?m) |- context [processUploadQueue e ?cm ?u] =>
      rewrite (cycle_single_rejected _ m e cm u eq_refl eq_refl Hd) by gate;
      cbn [uploader config attempts]
  end.

(** C1, as the code has it.  When the delivery of a batch item is rejected by the
    transport, the consecutive-failure counter, as it stands after whatever
    ran during the request, goes up by one; if the new value is below 5 the
    item is put back at the head of the queue, ahead of everything queued
    including what arrived during the request, and otherwise the queue is
    left without it; the decision looks at that global counter only.  In
    particular, when an item alone in the queue is rejected by five cycles
    in a row that pass the back-off gate, starting from a counter of 0, the
    first four cycles requeue it and the fifth drops it, after which no
    cycle attempts anything. *)
Theorem C1_rejected_item_requeued_while_global_counter_below_5 :
  (forall (item : QueueItem) (during : list Interleaved) (message : string)
          (cm : C) (u : DataUploader.t),
     let u0 := interleave_all during u in
     let '(cm', u') := attempt item during (HttpRejected message) cm u in
     cm' = cm
     /\ consecutiveFailures u' = consecutiveFailures u0 + 1
     /\ (consecutiveFailures u0 + 1 < 5 -> uploadQueue u' = item :: uploadQueue u0)
     /\ (5 <= consecutiveFailures u0 + 1 -> uploadQueue u' = uploadQueue u0))
  /\ (forall (delivery : nat -> list Interleaved * HttpOutcome) (batch : list QueueItem)
             (cm : C) (u : DataUploader.t),
        (forall j, exists message, delivery j = ([], HttpRejected message)) ->
        let '(cm', u', log) := run_batch delivery 0 batch cm u in
        cm' = cm
        /\ map attempted log = batch
        /\ consecutiveFailures u' = consecutiveFailures u + Z.of_nat (length batch)
        /\ uploadQueue u'
           = (rev (take (Z.to_nat (4 - consecutiveFailures u)) batch) ++ uploadQueue u)%list)
  /\ (forall (x : QueueItem) (cm : C) (started : Z) (e1 e2 e3 e4 e5 : CycleEnv),
        rejects_first e1 -> rejects_first e2 -> rejects_first e3 ->
        rejects_first e4 -> rejects_first e5 ->
        15000 <= gate_time e4 - end_time e3 ->
        20000 <= gate_time e5 - end_time e4 ->
        let u0 := {| uploadQueue := [x]; isUploading := false;
                     lastUploadAttempt := started; consecutiveFailures := 0 |} in
        let '(cm4, u4, log4) := run_ops [Drain e1; Drain e2; Drain e3; Drain e4] cm u0 in
        let '(cm5, u5, log5) := run_ops [Drain e5] cm4 u4 in
        uploadQueue u4 = [x] /\ consecutiveFailures u4 = 4
        /\ map attempted log4 = [x; x; x; x]
        /\ map attempted log5 = [x]
        /\ uploadQueue u5 = [] /\ consecutiveFailures u5 = 5
        /\ forall env, attempts (processUploadQueue env cm5 u5) = []).
Proof.
  split; [|split].
  - intros item during message cm u u0.
    rewrite attempt_rejected. simpl. fold u0.
    split; [reflexivity|].
    destruct (Z.ltb_spec (consecutiveFailures u0 + 1) 5) as [Hlt | Hge]; simpl.
    + split; [reflexivity|]. split; [reflexivity|]. lia.
    + split; [reflexivity|]. split; [lia|]. reflexivity.
  - intros delivery batch cm u Hall.
    pose proof (batch_all_rejected delivery batch 0 cm u Hall) as Hb.
    destruct (run_batch delivery 0 batch cm u) as [[cm' u'] log]. simpl in Hb. tauto.
  - intros x cm started e1 e2 e3 e4 e5 [m1 H1] [m2 H2] [m3 H3] [m4 H4] [m5 H5] Hg4 Hg5 u0.
    unfold run_ops, run_op.
    rewrite (cycle_single_rejected x m1 e1 cm u0 eq_refl eq_refl H1) by (left; simpl; lia).
    cbn [uploader config attempts].
    step_cycle e2 H2 ltac:(left; simpl; lia).
    step_cycle e3 H3 ltac:(left; simpl; lia).
    step_cycle e4 H4 ltac:(right; unfold backoffTime; simpl; lia).
    step_cycle e5 H5 ltac:(right; unfold backoffTime; simpl; lia).
    simpl.
    split; [reflexivity|]. split; [reflexivity|]. split; [reflexivity|].
    split; [reflexivity|]. split; [reflexivity|]. split; [reflexivity|].
    intros env. reflexivity.
Qed.

End Requeue.

Section RequeueExamples.
Import DataUploader.

Lemma rejecting_rejects_first (gate finish : Z) : rejects_first (rejecting gate finish).
Proof. eexists. reflexivity. Defined.

(** C1 on Scenario D: four rejected cycles keep the item, the fifth drops
    it. *)
Lemma C1_witness_scenario_D :
  let u0 := {| uploadQueue := [item_Y]; isUploading := false;
               lastUploadAttempt := 0; consecutiveFailures := 0 |} in
  let '(cm4, u4, log4) :=
    run_ops [Drain (rejecting 1000 1001); Drain (rejecting 2001 2002);
             Drain (rejecting 3002 3003); Drain (rejecting 20000 20001)]
      scenario_E_config u0 in
  let '(cm5, u5, log5) := run_ops [Drain (rejecting 41000 41001)] cm4 u4 in
  uploadQueue u4 = [item_Y] /\ uploadQueue u5 = [].
Proof.
  intros u0.
  pose proof (proj2 (proj2 (C1_rejected_item_requeued_while_global_counter_below_5
                              (C := ConfigManager.t)))
                item_Y scenario_E_config 0
                (rejecting 1000 1001) (rejecting 2001 2002) (rejecting 3002 3003)
                (rejecting 20000 20001) (rejecting 41000 41001)
                (rejecting_rejects_first _ _) (rejecting_rejects_first _ _)
                (rejecting_rejects_first _ _) (rejecting_rejects_first _ _)
                (rejecting_rejects_first _ _)) as Hd.
  simpl in Hd.
  assert (H4 : 15000 <= 20000 - 3003) by lia.
  assert (H5 : 20000 <= 41000 - 20001) by lia.
  specialize (Hd H4 H5).
  simpl. split; apply Hd.
Defined.

(** C1, counterexample to "requeued while the item's own failure count is
    below 5".  [item_X] is enqueued while [item_Y] has been
    rejected four times; the first cycle that passes the gate takes both,
    the rejection of [item_Y] brings the global counter to 5, and the
    rejection of [item_X] that follows, its first failure ever, finds the
    counter at 6: [item_X] is dropped with a failure count of 1. *)
Lemma C1_counterexample_dropped_on_first_failure :
  let '(cm, u, log) := run_ops late_arrival_run scenario_E_config initial in
  failure_count item_X log = 1%nat
  /\ (failure_count item_X log < 5)%nat
  /\ last log = Some {| attempted := item_X; failures_before := 5;
                        outcome := HttpRejected "timeout of 30000ms exceeded" |}
  /\ uploadQueue u = []
  /\ failure_count item_Y log = 5%nat.
Proof.
  vm_compute. split; [reflexivity|]. split; [lia|]. repeat split.
Qed.

End RequeueExamples.

(** * Properties of the change detector *)

Section ChangeDetector.
Import FileWatcher.
Context `{JsEngine} `{LuaParser} {C : Type} `{ConfigProvider C}.
Implicit Types (cm : C) (ev : FileEvent) (w : FileWatcher.t).

(** Case analysis along the branches of [handleFileChange]. *)
Ltac handler_cases :=
  unfold handleFileChange;
  repeat match goal with
         | |- context [match read ?ev with _ => _ end] => destruct (read ev) eqn:?
         | |- context [decide ?P] => destruct (decide P)
         | |- context [if ?a <? ?b then _ else _] => destruct (Z.ltb_spec a b)
         | |- context [match parseLuaData ?c ?s with _ => _ end] =>
             destruct (parseLuaData c s) eqn:?
         | |- context [if cfg_isAutoUploadEnabled ?cm then _ else _] =>
             destruct (cfg_isAutoUploadEnabled cm) eqn:?
         | |- context [match upload_summary ?v with _ => _ end] =>
             destruct (upload_summary v) eqn:?
         end;
  simpl.

(** After a successful read the cache holds what was read. *)
Lemma cache_holds_what_was_read cm ev w (content : string) :
  read ev = FileContent content ->
  lastFileContents (handleFileChange cm ev w).1 !! filePath ev = Some content.
Proof.
  intros Hr. unfold handleFileChange. rewrite Hr.
  handler_cases; try assumption; apply lookup_insert_eq.
Qed.

(** A handler run leaves the cache and the cooldown stamp of every other
    path alone. *)
Lemma other_paths_untouched cm ev w (p : string) :
  filePath ev <> p ->
  lastFileContents (handleFileChange cm ev w).1 !! p = lastFileContents w !! p
  /\ lastUploadAttempt (handleFileChange cm ev w).1 !! p = lastUploadAttempt w !! p.
Proof.
  intros Hne. handler_cases; rewrite ?lookup_insert_ne by exact Hne; split; reflexivity.
Qed.

Lemma other_paths_untouched_all cm (evs : list FileEvent) w (p : string) :
  Forall (fun ev => filePath ev <> p) evs ->
  lastFileContents (handle_all cm evs w).1 !! p = lastFileContents w !! p
  /\ lastUploadAttempt (handle_all cm evs w).1 !! p = lastUploadAttempt w !! p.
Proof.
  intros Hall. revert w. induction Hall as [|ev evs Hev _ IH]; intros w; simpl.
  - split; reflexivity.
  - destruct (handleFileChange cm ev w) as [w1 eff] eqn:E1.
    destruct (handle_all cm evs w1) as [w2 effs] eqn:E2. simpl.
    specialize (IH w1). rewrite E2 in IH. simpl in IH.
    pose proof (other_paths_untouched cm ev w p Hev) as Hone.
    rewrite E1 in Hone. simpl in Hone.
    destruct IH as [-> ->]. exact Hone.
Qed.

(** An enqueue stamps the path with the time of the event. *)
Lemma enqueue_stamps_the_path cm ev w (x : AddonData.t * string) :
  enqueued (handleFileChange cm ev w).2 = Some x ->
  lastUploadAttempt (handleFileChange cm ev w).1 !! filePath ev = Some (now ev).
Proof.
  handler_cases; try discriminate. intros _. apply lookup_insert_eq.
Qed.

(** Identical content is a no-op. *)
Lemma same_content_noop cm ev w (content : string) :
  read ev = FileContent content ->
  lastFileContents w !! filePath ev = Some content ->
  handleFileChange cm ev w = (w, no_effect).
Proof.
  intros Hr Hc. unfold handleFileChange. rewrite Hr.
  destruct (decide _) as [_|Hne]; [reflexivity | contradiction].
Qed.

(** Inside the cooldown nothing is decoded. *)
Lemma cooldown_noop cm ev w (stamp : Z) :
  lastUploadAttempt w !! filePath ev = Some stamp ->
  now ev - stamp < UPLOAD_COOLDOWN ->
  (handleFileChange cm ev w).2 = no_effect.
Proof.
  intros Hs Hlt. unfold handleFileChange.
  destruct (read ev); try reflexivity.
  destruct (decide _); [reflexivity|]. simpl. rewrite Hs. simpl.
  destruct (Z.ltb_spec (now ev - stamp) UPLOAD_COOLDOWN); [reflexivity | lia].
Qed.

(** C3. A file-system event whose content equals the content cached for its
    path is a no-op: the watcher state is unchanged, [parseLuaData] is not
    called and nothing is handed to the upload queue.  So when the same
    content is fed twice for a path, with events on other paths possibly in
    between, the second event does nothing, and the two events together run
    the decode/extract/enqueue pipeline exactly once whenever the first one
    runs it (its content differs from the cache and the path is outside its
    cooldown). *)
Theorem C3_identical_content_is_a_noop cm w :
  (forall ev (content : string),
     read ev = FileContent content ->
     lastFileContents w !! filePath ev = Some content ->
     handleFileChange cm ev w = (w, no_effect))
  /\ (forall ev1 ev2 (others : list FileEvent) (content : string),
        filePath ev2 = filePath ev1 ->
        read ev1 = FileContent content ->
        read ev2 = FileContent content ->
        Forall (fun ev => filePath ev <> filePath ev1) others ->
        let '(w1, eff1) := handleFileChange cm ev1 w in
        let '(w2, effs) := handle_all cm others w1 in
        handleFileChange cm ev2 w2 = (w2, no_effect)
        /\ (lastFileContents w !! filePath ev1 <> Some content ->
             UPLOAD_COOLDOWN <= now ev1 - default 0 (lastUploadAttempt w !! filePath ev1) ->
             decode_count [eff1; (handleFileChange cm ev2 w2).2] = 1%nat)).
Proof.
  split.
  - intros ev content. apply same_content_noop.
  - intros ev1 ev2 others content Hp Hr1 Hr2 Hothers.
    pose proof (cache_holds_what_was_read cm ev1 w content Hr1) as Hcache.
    pose proof (other_paths_untouched_all cm others (handleFileChange cm ev1 w).1
                  (filePath ev1) Hothers) as [Hkeep _].
    destruct (handleFileChange cm ev1 w) as [w1 eff1] eqn:E1. simpl in Hcache, Hkeep.
    destruct (handle_all cm others w1) as [w2 effs] eqn:E2. simpl in Hkeep.
    assert (Hnoop : handleFileChange cm ev2 w2 = (w2, no_effect)).
    { apply (same_content_noop cm ev2 w2 content Hr2).
      rewrite Hp, Hkeep. exact Hcache. }
    split; [exact Hnoop|].
    intros Hchanged Hcool. rewrite Hnoop. simpl.
    assert (Hdec : decoded eff1 = true).
    { revert E1. unfold handleFileChange. rewrite Hr1.
      destruct (decide _) as [Heq|_]; [contradiction|]. simpl.
      destruct (Z.ltb_spec (now ev1 - default 0 (lastUploadAttempt w !! filePath ev1))
                  UPLOAD_COOLDOWN) as [Hlt|_]; [lia|].
      destruct (parseLuaData _ _); [|intros [= _ <-]; reflexivity].
      destruct (cfg_isAutoUploadEnabled cm); [|intros [= _ <-]; reflexivity].
      destruct (upload_summary _); intros [= _ <-]; reflexivity. }
    unfold decode_count. simpl. rewrite Hdec. reflexivity.
Qed.

(** C4. A change of content that arrives less than 30 s after the upload
    attempt recorded for its path is not decoded and not enqueued, but the
    cache (and [lastUpdate]) take the new content, so the next comparison is
    against it, and the recorded attempt stays.  Consequently, of two
    events on one path whose times are less than 30 s apart, with events on
    other paths possibly in between, at most one reaches the upload queue:
    if the first one does, the second has no effect on the pipeline. *)
Theorem C4_cooldown_skips_pipeline_but_updates_cache cm w :
  (forall ev (content : string) (stamp : Z),
     read ev = FileContent content ->
     lastFileContents w !! filePath ev <> Some content ->
     lastUploadAttempt w !! filePath ev = Some stamp ->
     now ev - stamp < 30000 ->
     handleFileChange cm ev w = (cache_content (filePath ev) content (update_time ev) w, no_effect)
     /\ lastFileContents (handleFileChange cm ev w).1 !! filePath ev = Some content
     /\ lastUploadAttempt (handleFileChange cm ev w).1 = lastUploadAttempt w)
  /\ (forall ev1 ev2 (others : list FileEvent),
        filePath ev2 = filePath ev1 ->
        Forall (fun ev => filePath ev <> filePath ev1) others ->
        now ev2 - now ev1 < 30000 ->
        let '(w1, eff1) := handleFileChange cm ev1 w in
        let '(w2, effs) := handle_all cm others w1 in
        let '(w3, eff2) := handleFileChange cm ev2 w2 in
        (is_Some (enqueued eff1) -> eff2 = no_effect)
        /\ (enqueue_count [eff1; eff2] <= 1)%nat).
Proof.
  split.
  - intros ev content stamp Hr Hchanged Hstamp Hlt.
    assert (E : handleFileChange cm ev w
                = (cache_content (filePath ev) content (update_time ev) w, no_effect)).
    { unfold handleFileChange. rewrite Hr.
      destruct (decide _) as [Heq|_]; [contradiction|]. simpl. rewrite Hstamp. simpl.
      destruct (Z.ltb_spec (now ev - stamp) UPLOAD_COOLDOWN) as [_|Hge];
        [reflexivity | unfold UPLOAD_COOLDOWN in Hge; lia]. }
    rewrite E. simpl. split; [reflexivity|]. split; [apply lookup_insert_eq | reflexivity].
  - intros ev1 ev2 others Hp Hothers Hclose.
    pose proof (enqueue_stamps_the_path cm ev1 w) as Hstamp.
    pose proof (other_paths_untouched_all cm others (handleFileChange cm ev1 w).1
                  (filePath ev1) Hothers) as [_ Hkeep].
    destruct (handleFileChange cm ev1 w) as [w1 eff1] eqn:E1. simpl in Hstamp, Hkeep.
    destruct (handle_all cm others w1) as [w2 effs] eqn:E2. simpl in Hkeep.
    pose proof (cooldown_noop cm ev2 w2 (now ev1)) as Hcool.
    destruct (handleFileChange cm ev2 w2) as [w3 eff2] eqn:E3. simpl in Hcool.
    assert (Hfirst : is_Some (enqueued eff1) -> eff2 = no_effect).
    { intros [x Hx]. apply Hcool.
      - rewrite Hp, Hkeep. exact (Hstamp x Hx).
      - unfold UPLOAD_COOLDOWN. exact Hclose. }
    split; [exact Hfirst|].
    unfold enqueue_count. simpl.
    destruct (enqueued eff1) as [x|] eqn:Hx.
    + rewrite (Hfirst (mk_is_Some _ _ eq_refl)). simpl. lia.
    + simpl. destruct (bool_decide _); simpl; lia.
Qed.

End ChangeDetector.

Section ChangeDetectorExamples.
Import FileWatcher.

(** C3 on the start-up double read: [start] handles each file once itself
    and the watcher reports it once more; the second run does nothing and
    the file is decoded once. *)
Lemma C3_witness_startup_double_read :
  let '(w1, eff1) :=
    example_handle scenario_E_config (scenario_A_event 1700000000000) fresh_watcher in
  example_handle scenario_E_config (scenario_A_event 1700000000500) w1 = (w1, no_effect)
  /\ decode_count
       [eff1; (example_handle scenario_E_config (scenario_A_event 1700000000500) w1).2]
     = 1%nat.
Proof.
  unfold example_handle.
  pose proof (proj2 (@C3_identical_content_is_a_noop digits_engine scenario_parser
                       ConfigManager.t ConfigManager.provider
                       scenario_E_config fresh_watcher)
                (scenario_A_event 1700000000000) (scenario_A_event 1700000000500) []
                scenario_A_text eq_refl eq_refl eq_refl (List.Forall_nil _)) as Hw.
  simpl handle_all in Hw.
  destruct (handleFileChange scenario_E_config (scenario_A_event 1700000000000) fresh_watcher)
    as [w1 eff1].
  destruct Hw as [Hnoop Hone]. split; [exact Hnoop|].
  apply Hone.
  - simpl. rewrite lookup_empty. discriminate.
  - simpl. rewrite lookup_empty. simpl. unfold UPLOAD_COOLDOWN. lia.
Defined.

(** C4, five seconds after an upload: the scenario file changes, the cache
    takes the new text and nothing is decoded; and of two such events at
    most one is enqueued. *)
Lemma C4_witness_change_inside_cooldown :
  (example_handle scenario_E_config (scenario_A_event 1700000005000)
     (watcher_after_upload 1700000000000)).2 = no_effect
  /\ lastFileContents
       (example_handle scenario_E_config (scenario_A_event 1700000005000)
          (watcher_after_upload 1700000000000)).1
     !! "acct/SavedVariables/Scribey.lua" = Some scenario_A_text
  /\ (let '(w1, eff1) :=
         example_handle scenario_E_config (scenario_A_event 1700000000000) fresh_watcher in
       let '(w3, eff2) :=
         example_handle scenario_E_config (scenario_A_event 1700000005000) w1 in
       enqueue_count [eff1; eff2] <= 1)%nat.
Proof.
  unfold example_handle.
  destruct (@C4_cooldown_skips_pipeline_but_updates_cache digits_engine scenario_parser
              ConfigManager.t ConfigManager.provider
              scenario_E_config (watcher_after_upload 1700000000000)) as [Hskip _].
  destruct (@C4_cooldown_skips_pipeline_but_updates_cache digits_engine scenario_parser
              ConfigManager.t ConfigManager.provider
              scenario_E_config fresh_watcher) as [_ Htwo].
  assert (Hchanged : lastFileContents (watcher_after_upload 1700000000000)
                       !! filePath (scenario_A_event 1700000005000)
                     <> Some scenario_A_text).
  { simpl. rewrite lookup_singleton_eq. intros E. vm_compute in E. discriminate E. }
  assert (Hstamp : lastUploadAttempt (watcher_after_upload 1700000000000)
                     !! filePath (scenario_A_event 1700000005000)
                   = Some 1700000000000).
  { simpl. apply lookup_singleton_eq. }
  assert (Hlt : now (scenario_A_event 1700000005000) - 1700000000000 < 30000).
  { simpl. lia. }
  destruct (Hskip (scenario_A_event 1700000005000) scenario_A_text 1700000000000
              eq_refl Hchanged Hstamp Hlt) as (Heq & Hcache & _).
  split; [rewrite Heq; reflexivity|]. split; [exact Hcache|].
  assert (Hclose : now (scenario_A_event 1700000005000)
                   - now (scenario_A_event 1700000000000) < 30000).
  { simpl. lia. }
  specialize (Htwo (scenario_A_event 1700000000000) (scenario_A_event 1700000005000) []
                eq_refl (List.Forall_nil _) Hclose).
  simpl handle_all in Htwo.
  destruct (handleFileChange scenario_E_config (scenario_A_event 1700000000000) fresh_watcher)
    as [w1 eff1].
  destruct (handleFileChange scenario_E_config (scenario_A_event 1700000005000) w1)
    as [w3 eff2].
  apply Htwo.
Defined.

End ChangeDetectorExamples.

(** * Properties of the table decoder *)

Module DecoderFacts.
Import Js Decoder.

Lemma is_ScribeyDB_spec (variable : Ast) :
  is_ScribeyDB variable = true <-> variable = Identifier "ScribeyDB".
Proof.
  destruct variable; simpl; try (split; [discriminate | intros [=]]).
  rewrite String.eqb_eq. split; [intros ->; reflexivity | intros [= ->]; reflexivity].
Qed.

(** What the inner loop finds, scanning from index [i]. *)
Lemma find_binding_Some (variables init : list Ast) (i : nat) (e : Ast) :
  find_binding i variables init = Some e ->
  exists k, variables !! k = Some (Identifier "ScribeyDB")
    /\ init !! (i + k)%nat = Some e
    /\ forall j e', (j < k)%nat ->
         ~ (variables !! j = Some (Identifier "ScribeyDB") /\ init !! (i + j)%nat = Some e').
Proof.
  revert i. induction variables as [|v vs IH]; intros i; simpl; [discriminate|].
  destruct (is_ScribeyDB v) eqn:Hv.
  - apply is_ScribeyDB_spec in Hv. subst v.
    destruct (init !! i) as [e0|] eqn:Hi.
    + intros [= ->]. exists 0%nat. rewrite Nat.add_0_r.
      split; [reflexivity|]. split; [exact Hi|]. intros j e' Hj. lia.
    + intros Hf. destruct (IH _ Hf) as (k & Hk & He & Hmin).
      exists (S k). split; [exact Hk|].
      split; [replace (i + S k)%nat with (S i + k)%nat by lia; exact He|].
      intros [|j] e' Hj [Hvar Hinit].
      * rewrite Nat.add_0_r in Hinit. congruence.
      * apply (Hmin j e'); [lia|]. split; [exact Hvar|].
        replace (S i + j)%nat with (i + S j)%nat by lia. exact Hinit.
  - intros Hf.
    assert (Hf' : find_binding (S i) vs init = Some e).
    { destruct (init !! i); exact Hf. }
    destruct (IH _ Hf') as (k & Hk & He & Hmin).
    exists (S k). split; [exact Hk|].
    split; [replace (i + S k)%nat with (S i + k)%nat by lia; exact He|].
    intros [|j] e' Hj [Hvar Hinit].
    + simpl in Hvar. injection Hvar as ->. simpl in Hv. discriminate.
    + apply (Hmin j e'); [lia|]. split; [exact Hvar|].
      replace (S i + j)%nat with (i + S j)%nat by lia. exact Hinit.
Qed.

Lemma find_binding_None (variables init : list Ast) (i : nat) :
  find_binding i variables init = None ->
  forall k e, ~ (variables !! k = Some (Identifier "ScribeyDB")
                 /\ init !! (i + k)%nat = Some e).
Proof.
  revert i. induction variables as [|v vs IH]; intros i; simpl.
  - intros _ k e [Hk _]. destruct k; discriminate.
  - intros Hf [|k] e [Hvar Hinit].
    + simpl in Hvar. injection Hvar as ->. simpl in Hf.
      rewrite Nat.add_0_r in Hinit. rewrite Hinit in Hf. discriminate.
    + simpl in Hvar.
      assert (Hf' : find_binding (S i) vs init = None).
      { destruct (is_ScribeyDB v); [destruct (init !! i); [discriminate|]|]; exact Hf. }
      apply (IH _ Hf' k e). split; [exact Hvar|].
      replace (S i + k)%nat with (i + S k)%nat by lia. exact Hinit.
Qed.

(** The loop agrees with the leftmost binding of a statement. *)
Lemma find_first_binding (variables init : list Ast) (e : Ast) :
  first_binding (AssignmentStatement variables init) e ->
  find_binding 0 variables init = Some e.
Proof.
  intros (i & [Hvar Hinit] & Hmin).
  destruct (find_binding 0 variables init) as [e0|] eqn:Hf.
  - destruct (find_binding_Some _ _ _ _ Hf) as (k & Hk & He & Hkmin). simpl in He.
    destruct (Nat.lt_trichotomy k i) as [Hlt | [-> | Hgt]].
    + exfalso. apply (Hmin k e0 Hlt). split; assumption.
    + congruence.
    + exfalso. apply (Hkmin i e Hgt). split; assumption.
  - exfalso. apply (find_binding_None _ _ _ Hf i e). split; assumption.
Qed.

Lemma find_no_binding (variables init : list Ast) :
  ~ binds (AssignmentStatement variables init) ->
  find_binding 0 variables init = None.
Proof.
  intros Hno. destruct (find_binding 0 variables init) as [e|] eqn:Hf; [|reflexivity].
  exfalso. apply Hno.
  destruct (find_binding_Some _ _ _ _ Hf) as (k & Hk & He & _).
  exists k, e. split; assumption.
Qed.

Section Scan.
Context `{JsEngine}.

Lemma scan_body_skips (pre rest : list Stmt) :
  Forall (fun s => ~ binds s) pre ->
  scan_body (pre ++ rest) = scan_body rest.
Proof.
  induction 1 as [|s pre Hs _ IH]; simpl; [reflexivity|].
  destruct s as [variables init | type]; [|exact IH].
  rewrite (find_no_binding _ _ Hs). exact IH.
Qed.

End Scan.

End DecoderFacts.

Section FirstBinding.
Import Js Decoder DecoderFacts.
Context `{JsEngine}.

(** C9. [extractScribeyDBFromAST] reduces and returns the expression of the
    first top-level binding of [ScribeyDB] in statement order (first by
    statement, then by position among the targets of that statement), with
    [null] in place of a reduction that throws; whatever follows that
    statement, further bindings of the name included, has no influence on
    the result.  When no statement binds the name the result is [null]. *)
Theorem C9_first_binding_wins (pre post : list Stmt) (stmt : Stmt) (e : Ast) :
  (Forall (fun s => ~ binds s) pre ->
   first_binding stmt e ->
   extractScribeyDBFromAST (pre ++ stmt :: post) = js_catch (luaAstToJson e) JNull
   /\ extractScribeyDBFromAST (pre ++ stmt :: post) = extractScribeyDBFromAST (pre ++ [stmt]))
  /\ (Forall (fun s => ~ binds s) pre -> extractScribeyDBFromAST pre = JNull).
Proof.
  split.
  - intros Hpre Hfirst.
    assert (Hscan : forall rest,
               scan_body (pre ++ stmt :: rest) = luaAstToJson e).
    { intros rest. rewrite (scan_body_skips pre _ Hpre).
      destruct stmt as [variables init | type].
      - simpl. rewrite (find_first_binding _ _ _ Hfirst). reflexivity.
      - destruct Hfirst as (i & [] & _). }
    unfold extractScribeyDBFromAST. rewrite !Hscan. split; reflexivity.
  - intros Hpre. unfold extractScribeyDBFromAST.
    rewrite <- (app_nil_r pre). rewrite (scan_body_skips pre [] Hpre). reflexivity.
Qed.

End FirstBinding.

Section FirstBindingExample.
Import Js Decoder.

(** C9 on two bindings of the global table that follow a statement naming
    it without giving it a value: the first binding is the result. *)
Lemma C9_witness_two_bindings :
  @extractScribeyDBFromAST digits_engine
     (two_bindings_pre ++ two_bindings_first :: two_bindings_post)
  = JObj [("first", JBool true)]
  /\ @extractScribeyDBFromAST digits_engine two_bindings_pre = JNull.
Proof.
  assert (Hpre : Forall (fun s => ~ binds s) two_bindings_pre).
  { unfold two_bindings_pre. repeat constructor.
    - intros (i & e & []).
    - intros (i & e & Hv & Hi). destruct i as [|i]; simpl in Hv; [discriminate|].
      destruct i; discriminate.
    - intros (i & e & Hv & Hi). destruct i as [|[|i]]; simpl in Hv, Hi; discriminate. }
  assert (Hfirst : first_binding two_bindings_first
                     (TableConstructorExpression [named_field "first" (BooleanLiteral true)])).
  { exists 1%nat. split; [split; reflexivity|].
    intros j e' Hj [Hv _]. destruct j; [discriminate | lia]. }
  destruct (@C9_first_binding_wins digits_engine two_bindings_pre two_bindings_post
              two_bindings_first
              (TableConstructorExpression [named_field "first" (BooleanLiteral true)]))
    as [Hwins Hnone].
  split.
  - rewrite (proj1 (Hwins Hpre Hfirst)). reflexivity.
  - exact (Hnone Hpre).
Defined.

End FirstBindingExample.

(** * Properties of the domain extractor *)

Module ExtractorFacts.
Import Js FileWatcher.

Lemma split_cons (sep : ascii) (s : string) : exists w ws, split sep s = w :: ws.
Proof.
  induction s as [|c s IH]; simpl; [eauto|].
  destruct (Ascii.eqb c sep); [eauto|].
  destruct IH as (w & ws & ->). eauto.
Qed.

Lemma split_part_first (fullName : string) : split_part fullName 0 = key_first fullName.
Proof.
  unfold split_part, key_first.
  destruct (split_cons "-" fullName) as (w & ws & ->). reflexivity.
Qed.

(** [a || b] on a property read is the field or its fallback. *)
Lemma or_else_field (o : list (string * JsVal)) (k : string) (fallback : JsVal) :
  or_else (default JUndefined (obj_get k o)) fallback = field_or o k fallback.
Proof.
  unfold or_else, field_or. destruct (obj_get k o) as [v|]; reflexivity.
Qed.

Lemma realm_chain (o : list (string * JsVal)) (fullName : string) :
  or_else (or_else (default JUndefined (obj_get "realm_name" o)) (split_part fullName 1))
    (JStr "Unknown")
  = field_or o "realm_name" (key_second fullName).
Proof.
  unfold field_or, key_second, split_part, or_else.
  destruct (obj_get "realm_name" o) as [v|]; simpl.
  - destruct (truthy v) eqn:Hv; [rewrite Hv; reflexivity|].
    destruct (split "-" fullName !! 1%nat) as [r|]; simpl; [|reflexivity].
    destruct (String.eqb r ""); reflexivity.
  - destruct (split "-" fullName !! 1%nat) as [r|]; simpl; [|reflexivity].
    destruct (String.eqb r ""); reflexivity.
Qed.

Lemma parseProfessions_spec (l : list JsVal) :
  Forall not_nil l -> parseProfessions l = Ok (omap spec_profession l).
Proof.
  induction 1 as [|p l [Hnull Hundef] _ IH]; simpl; [reflexivity|].
  destruct p as [| |b|n|s|elements|o]; simpl; try contradiction; try exact IH.
  destruct (obj_get "name" o) as [n|] eqn:Hn; simpl; [|exact IH].
  destruct (truthy n) eqn:Ht; [|exact IH].
  rewrite IH. simpl. rewrite !or_else_field. reflexivity.
Qed.

End ExtractorFacts.

Section CharacterExtraction.
Import Js Decoder FileWatcher ExtractorFacts.

(** C7, as the code has it.  For a character entry that is a table whose
    [professions], if an array, holds no [nil]: the record is always
    produced; name and realm are the [character_name] and [realm_name]
    fields when these are present with a truthy value, else the first and
    second part of the map key split at "-" (the realm "Unknown" when the
    key has no non-empty second part); the class is the [class] field when
    present and truthy, else "WARRIOR"; the professions are the entries of
    the [professions] array that have a truthy [name], in order, with
    [skill_level] and [max_skill_level] when present and truthy and else 0
    and 525; a [professions] field that is not an array gives none.  And
    the table text of Scenario A yields under "Foo-Bar" exactly the record
    the scenario states. *)
Theorem C7_character_extraction_fallbacks :
  (forall (fullName : string) (o : list (string * JsVal)) (now : Z),
     (forall l, obj_get "professions" o = Some (JArr l) -> Forall not_nil l) ->
     parseScribeyCharacterFromJson fullName (JObj o) now
     = Some (spec_character fullName o now))
  /\ (forall (engine : JsEngine) (clock : ParseClock),
        option_map (fun d => AddonData.characters d)
          (@parseLuaData engine scenario_parser clock scenario_A_text)
        = Some [("Foo-Bar", scenario_A_record (character_time clock "Foo-Bar"))]).
Proof.
  split.
  - intros fullName o now Hprofs.
    unfold parseScribeyCharacterFromJson, character_body. simpl.
    rewrite split_part_first, realm_chain, !or_else_field.
    unfold spec_character.
    destruct (obj_get "professions" o) as [profs|] eqn:Hp; simpl; [|reflexivity].
    destruct profs as [| |b|n|s|l|o']; simpl; try reflexivity.
    rewrite (parseProfessions_spec l (Hprofs l eq_refl)). reflexivity.
  - intros engine clock. reflexivity.
Qed.

(** C7 on the character table of Scenario A, decoded. *)
Lemma C7_witness_scenario_A_character :
  parseScribeyCharacterFromJson "Foo-Bar"
    (js_catch (@luaAstToJson digits_engine scenario_A_character) JNull) 1700000000000
  = Some (scenario_A_record 1700000000000).
Proof.
  change (js_catch (@luaAstToJson digits_engine scenario_A_character) JNull)
    with (JObj [("character_name", JStr "Foo"); ("realm_name", JStr "Bar");
                ("class", JStr "MAGE");
                ("professions",
                 JArr [JObj [("name", JStr "Tailoring"); ("skill_level", JNum (Num 300));
                             ("max_skill_level", JNum (Num 300))]])]).
  rewrite (proj1 C7_character_extraction_fallbacks).
  - reflexivity.
  - intros l [= <-]. repeat constructor; discriminate.
Defined.

(** C7, counterexample to "the name comes from the explicit field when
    present".  A character table whose [character_name] is present as the
    empty string gets its name from the map key. *)
Lemma C7_counterexample_empty_name_is_replaced :
  @luaAstToJson digits_engine unnamed_character
  = Ok (JObj [("character_name", JStr ""); ("realm_name", JStr "Bar")])
  /\ obj_get "character_name" [("character_name", JStr ""); ("realm_name", JStr "Bar")]
     = Some (JStr "")
  /\ option_map CharacterData.name
       (parseScribeyCharacterFromJson "Foo-Baz"
          (JObj [("character_name", JStr ""); ("realm_name", JStr "Bar")]) 0)
     = Some (JStr "Foo")
  /\ JStr "Foo" <> JStr "".
Proof.
  split; [reflexivity|]. split; [reflexivity|]. split; [reflexivity|]. discriminate.
Qed.

End CharacterExtraction.

Module ObjectFacts.
Import Js.

Section Lookup.
Context {V : Type}.
Implicit Types (o : list (string * V)) (k : string) (v : V).

Lemma obj_get_set_eq k v o : obj_get k (obj_set k v o) = Some v.
Proof.
  induction o as [|[k' v'] o IH]; simpl.
  - rewrite String.eqb_refl. reflexivity.
  - destruct (String.eqb k k') eqn:E; simpl.
    + rewrite String.eqb_refl. reflexivity.
    + destruct (key_precedes k k' && negb (has_own k o)); simpl.
      * rewrite String.eqb_refl. reflexivity.
      * rewrite E. exact IH.
Qed.

Lemma obj_get_set_ne k k' v o : k <> k' -> obj_get k (obj_set k' v o) = obj_get k o.
Proof.
  intros Hne. apply String.eqb_neq in Hne.
  induction o as [|[k'' v''] o IH]; simpl.
  - rewrite Hne. reflexivity.
  - destruct (String.eqb k' k'') eqn:E; simpl.
    + apply String.eqb_eq in E. subst k''. rewrite Hne. reflexivity.
    + destruct (key_precedes k' k'' && negb (has_own k' o)); simpl.
      * rewrite Hne. reflexivity.
      * destruct (String.eqb k k''); [reflexivity | exact IH].
Qed.

Lemma obj_get_assign_eq k v o : k <> "__proto__" -> obj_get k (obj_assign k v o) = Some v.
Proof.
  intros Hk. unfold obj_assign. apply String.eqb_neq in Hk. rewrite Hk.
  apply obj_get_set_eq.
Qed.

Lemma obj_get_assign_ne k k' v o : k <> k' -> obj_get k (obj_assign k' v o) = obj_get k o.
Proof.
  intros Hne. unfold obj_assign.
  destruct (String.eqb k' "__proto__"); [reflexivity | apply obj_get_set_ne; exact Hne].
Qed.

End Lookup.
End ObjectFacts.

Module LoopFacts.
Import Js FileWatcher ObjectFacts.

Section Loop.
Variable clock : ParseClock.
Implicit Types (es : list (string * JsVal)).

Lemma fold_ledger es (acc : list (string * CharacterData.t) * list ParseResult) :
  (fold_left (parse_entry clock) es acc).2 = (acc.2 ++ map (parse_result clock) es)%list.
Proof.
  revert acc. induction es as [|e es IH]; intros [chars ledger]; simpl.
  - symmetry. apply app_nil_r.
  - rewrite IH. simpl. rewrite <- app_assoc. reflexivity.
Qed.

(** Entries under other keys leave the record of a key alone. *)
Lemma fold_other_keys es (acc : list (string * CharacterData.t) * list ParseResult)
    (k : string) :
  (forall j v', es !! j <> Some (k, v')) ->
  obj_get k (fold_left (parse_entry clock) es acc).1 = obj_get k acc.1.
Proof.
  revert acc. induction es as [|[k' v'] es IH]; intros [chars ledger] Hother; simpl;
    [reflexivity|].
  rewrite IH.
  - simpl. assert (Hne : k <> k').
    { intros ->. exact (Hother 0%nat v' eq_refl). }
    destruct (parseScribeyCharacterFromJson k' v' (character_time clock k'));
      [apply obj_get_assign_ne; exact Hne | reflexivity].
  - intros j v'' Hj. exact (Hother (S j) v'' Hj).
Qed.

(** The record extracted from the last entry of a key is the one stored. *)
Lemma fold_stores es (acc : list (string * CharacterData.t) * list ParseResult)
    (i : nat) (k : string) (v : JsVal) (c : CharacterData.t) :
  es !! i = Some (k, v) ->
  (forall j v', (i < j)%nat -> es !! j <> Some (k, v')) ->
  parseScribeyCharacterFromJson k v (character_time clock k) = Some c ->
  k <> "__proto__" ->
  obj_get k (fold_left (parse_entry clock) es acc).1 = Some c.
Proof.
  revert acc i. induction es as [|e es IH]; intros [chars ledger] i Hi Hlast Hc Hk;
    [destruct i; discriminate|].
  destruct i as [|i]; simpl in Hi.
  - injection Hi as ->. simpl. rewrite fold_other_keys.
    + simpl. rewrite Hc. apply obj_get_assign_eq. exact Hk.
    + intros j v' Hj. apply (Hlast (S j) v'); [lia | exact Hj].
  - simpl. apply (IH _ i Hi); [|exact Hc|exact Hk].
    intros j v' Hj Hjv. apply (Hlast (S j) v'); [lia | exact Hjv].
Qed.

End Loop.

Lemma get_truthy (v : JsVal) (p : string) :
  truthy v = true -> exists x, get v p = Ok x.
Proof. destruct v; simpl; try discriminate; eauto. Qed.

Lemma entries_truthy (v : JsVal) :
  truthy v = true -> exists es, entries v = Ok es.
Proof. destruct v; simpl; try discriminate; eauto. Qed.

End LoopFacts.

Section Isolation.
Import Js Decoder FileWatcher ObjectFacts LoopFacts.
Context `{JsEngine} `{LuaParser}.

Lemma or_else_object_truthy (a : JsVal) : truthy (or_else a (JObj [])) = true.
Proof. unfold or_else. destruct (truthy a) eqn:E; [exact E | reflexivity]. Qed.

(** With a usable root the extraction returns a snapshot whose characters
    and ledger are those of the per-character loop. *)
Lemma extract_runs_the_loop (clock : ParseClock) (content : string) (body : list Stmt)
    (cd : JsVal) (es : list (string * JsVal)) :
  truthy (extractScribeyDBFromAST body) = true ->
  get (extractScribeyDBFromAST body) "character_data" = Ok cd ->
  truthy cd = true ->
  entries cd = Ok es ->
  auction_log_line (extractScribeyDBFromAST body) = Ok () ->
  exists addonData,
    extract clock content body = Ok (Some (addonData, (parse_entries clock es).2))
    /\ AddonData.characters addonData = (parse_entries clock es).1.
Proof.
  intros Hdb Hget Hcd Hes Hlog.
  unfold extract. cbv zeta. rewrite Hdb. simpl. rewrite Hget. simpl.
  rewrite Hcd. simpl.
  assert (Hor : or_else cd (JObj []) = cd) by (unfold or_else; rewrite Hcd; reflexivity).
  rewrite !Hor. unfold keys. rewrite Hes. simpl.
  unfold auction_log_line in Hlog.
  destruct (get (extractScribeyDBFromAST body) "auction_prices") as [ap|] eqn:Hap;
    simpl in Hlog; [|discriminate].
  simpl.
  destruct (get_truthy _ "data" (or_else_object_truthy ap)) as [data Hdata].
  rewrite Hdata. simpl.
  destruct (truthy data) eqn:Ht;
    [destruct (entries_truthy data Ht) as [des Hdes]; rewrite Hdes|];
    simpl.
  all: destruct (get (or_else ap (JObj [])) "last_scan") as [ls|] eqn:Hls;
    simpl in Hlog; [|discriminate].
  all: simpl.
  all: destruct (ToString (or_else ls (JStr "never"))) as [line|] eqn:Hline;
    simpl in Hlog; [|discriminate].
  all: simpl.
  all: destruct (parse_entries clock es) as [characters parseResults] eqn:Hloop.
  all: destruct (get_truthy _ "scan_count" (or_else_object_truthy ap)) as [sc Hsc].
  all: destruct (get_truthy _ "realm" (or_else_object_truthy ap)) as [rl Hrl].
  all: destruct (get_truthy _ "crafted_cards" Hdb) as [cc Hcc].
  all: destruct (get_truthy _ "settings" Hdb) as [st Hst].
  all: rewrite Hsc; simpl; rewrite Hrl; simpl; rewrite Hcc; simpl; rewrite Hst; simpl.
  all: eexists; split; reflexivity.
Qed.

(** C5. Whenever the decoded root is usable (it is truthy, has a truthy
    [character_data], and its auction section can be logged),
    [parseLuaData] returns a snapshot, whatever the character entries are.
    The ledger has one record per entry, in order: an entry whose
    extraction throws or yields no record is recorded as a failure with an
    error text, and an entry whose extraction yields a record is recorded
    as a success and its record is in the snapshot under its key (for the
    last entry of that key, and any key but "__proto__", which assignment
    to a plain object cannot create), whatever happens to the other
    entries. *)
Theorem C5_character_failures_are_isolated
    (clock : ParseClock) (content : string) (body : list Stmt)
    (cd : JsVal) (es : list (string * JsVal)) :
  luaparse_parse content = Ok body ->
  truthy (extractScribeyDBFromAST body) = true ->
  get (extractScribeyDBFromAST body) "character_data" = Ok cd ->
  truthy cd = true ->
  entries cd = Ok es ->
  auction_log_line (extractScribeyDBFromAST body) = Ok () ->
  exists addonData ledger,
    parseLuaData_ledger clock content = Some (addonData, ledger)
    /\ parseLuaData clock content = Some addonData
    /\ length ledger = length es
    /\ forall i k v,
         es !! i = Some (k, v) ->
         (parseScribeyCharacterFromJson k v (character_time clock k) = None ->
          exists r, ledger !! i = Some r
            /\ fullCharacterName r = k /\ parseSuccess r = false /\ is_Some (error r))
         /\ (forall c,
               parseScribeyCharacterFromJson k v (character_time clock k) = Some c ->
               (exists r, ledger !! i = Some r
                  /\ fullCharacterName r = k /\ parseSuccess r = true
                  /\ parsedCharacter r = Some c)
               /\ (k <> "__proto__" ->
                   (forall j v', (i < j)%nat -> es !! j <> Some (k, v')) ->
                   obj_get k (AddonData.characters addonData) = Some c)).
Proof.
  intros Hparse Hdb Hget Hcd Hes Hlog.
  destruct (extract_runs_the_loop clock content body cd es Hdb Hget Hcd Hes Hlog)
    as (addonData & Hextract & Hchars).
  exists addonData, (parse_entries clock es).2.
  assert (Hledger : parseLuaData_ledger clock content
                    = Some (addonData, (parse_entries clock es).2)).
  { unfold parseLuaData_ledger. rewrite Hparse. simpl. rewrite Hextract. reflexivity. }
  split; [exact Hledger|].
  split; [unfold parseLuaData; rewrite Hledger; reflexivity|].
  unfold parse_entries in *. rewrite fold_ledger. simpl.
  split; [apply length_map|].
  intros i k v Hi.
  assert (Hr : map (parse_result clock) es !! i = Some (parse_result clock (k, v))).
  { change (map (parse_result clock) es) with (parse_result clock <$> es).
    rewrite list_lookup_fmap, Hi. reflexivity. }
  split.
  - intros Hnone. exists (parse_result clock (k, v)). split; [exact Hr|].
    simpl. rewrite Hnone. simpl. split; [reflexivity|]. split; [reflexivity|]. eauto.
  - intros c Hc. split.
    + exists (parse_result clock (k, v)). split; [exact Hr|].
      simpl. rewrite Hc. simpl. split; [reflexivity|]. split; reflexivity.
    + intros Hk Hlast. rewrite Hchars.
      exact (fold_stores clock es ([], []) i k v c Hi Hlast Hc Hk).
Qed.

End Isolation.

Section IsolationExamples.
Import Js Decoder FileWatcher.

(** C5 on Scenario C: the entry without a value is recorded as a failure
    and the two well-formed characters are in the snapshot. *)
Lemma C5_witness_scenario_C :
  exists addonData ledger,
    @parseLuaData_ledger digits_engine (parser_of scenario_C_body) (fixed_clock 5) "any text"
    = Some (addonData, ledger)
    /\ (exists r, ledger !! 1%nat = Some r
           /\ fullCharacterName r = "Gone-Two" /\ parseSuccess r = false /\ is_Some (error r))
    /\ obj_get "Good-One" (AddonData.characters addonData)
       = Some (spec_character "Good-One" [("class", JStr "MAGE")] 5)
    /\ obj_get "Good-Four" (AddonData.characters addonData) = Some (scenario_A_record 5).
Proof.
  destruct (@C5_character_failures_are_isolated digits_engine (parser_of scenario_C_body)
              (fixed_clock 5) "any text" scenario_C_body
              (JObj scenario_C_entries) scenario_C_entries
              eq_refl eq_refl eq_refl eq_refl eq_refl eq_refl)
    as (addonData & ledger & Hrun & _ & _ & Hentries).
  exists addonData, ledger. split; [exact Hrun|].
  assert (Hlast : forall (i : nat) (k : string),
             (i < 4)%nat ->
             fst <$> scenario_C_entries !! i = Some k ->
             forall j v', (i < j)%nat -> scenario_C_entries !! j <> Some (k, v')).
  { intros i k Hi Hk j v' Hj.
    destruct i as [|[|[|[|i]]]]; try lia; injection Hk as <-;
      destruct j as [|[|[|[|j]]]]; try lia; discriminate. }
  split; [|split].
  - apply (proj1 (Hentries 1%nat "Gone-Two" JNull eq_refl)). reflexivity.
  - apply (proj2 (Hentries 0%nat "Good-One" (JObj [("class", JStr "MAGE")]) eq_refl)).
    + reflexivity.
    + discriminate.
    + apply (Hlast 0%nat); [lia | reflexivity].
  - apply (proj2 (Hentries 3%nat "Good-Four" _ eq_refl)).
    + reflexivity.
    + discriminate.
    + apply (Hlast 3%nat); [lia | reflexivity].
Defined.

(** Scenario C, evaluated: four ledger records of which only the second is
    a failure; the entry whose value is a number is extracted with
    every default. *)
Example scenario_C_evaluated :
  (fun r => (map parseSuccess r.2, map fst (AddonData.characters r.1)))
    <$> @parseLuaData_ledger digits_engine (parser_of scenario_C_body) (fixed_clock 5) "any text"
  = Some ([true; false; true; true], ["Good-One"; "Odd-Three"; "Good-Four"])
  /\ parseScribeyCharacterFromJson "Odd-Three" (JNum (Num 5)) 5
     = Some (spec_character "Odd-Three" [] 5).
Proof. split; reflexivity. Qed.

End IsolationExamples.

Section TableReduction.
Import Js Decoder DecoderFacts.
Context `{JsEngine}.

(** The two rules of the table constructor. *)
Lemma table_rules (fields : list Ast) :
  luaAstToJson (TableConstructorExpression fields)
  = if first_field_has_key fields then
      pairs ← js_map (fun field => r ← luaAstToJson field; destructure_key_value r) fields;
      object ← fromEntries pairs;
      Ok (if Nat.eqb (length object) 0 then JArr [] else JObj object)
    else
      values ← js_map (fun field => value ← luaAstToJson field; surface_table_key value) fields;
      Ok (JArr values).
Proof. reflexivity. Qed.

(** An empty table constructor reduces to the empty array, by the array
    rule. *)
Lemma empty_table_is_empty_array :
  luaAstToJson (TableConstructorExpression []) = Ok (JArr []).
Proof. reflexivity. Qed.

(** [Object.fromEntries] keeps at least the first pair it is given. *)
Lemma obj_set_not_nil (k : string) (v : JsVal) (o : list (string * JsVal)) :
  obj_set k v o <> [].
Proof.
  destruct o as [|[k' v'] o]; simpl; [discriminate|].
  destruct (String.eqb k k'); [discriminate|].
  destruct (key_precedes k k' && negb (has_own k o)); discriminate.
Qed.

Lemma fromEntries_from_not_nil (pairs : list (JsVal * JsVal)) (acc o : list (string * JsVal)) :
  acc <> [] -> fromEntries_from acc pairs = Ok o -> o <> [].
Proof.
  revert acc. induction pairs as [|[k v] pairs IH]; intros acc Hacc; simpl.
  - intros [= <-]. exact Hacc.
  - destruct (ToPropertyKey k) as [key|]; [|discriminate].
    apply IH. apply obj_set_not_nil.
Qed.

(** A table whose first field has a key never ends up with zero entries:
    the branch that turns an empty map into an empty array is not taken. *)
Lemma keyed_table_is_a_map (fields : list Ast) (result : JsVal) :
  first_field_has_key fields = true ->
  luaAstToJson (TableConstructorExpression fields) = Ok result ->
  exists o, result = JObj o /\ o <> [].
Proof.
  intros Hkey. rewrite table_rules, Hkey.
  destruct (js_map _ fields) as [pairs|] eqn:Hmap; simpl; [|discriminate].
  destruct (fromEntries pairs) as [object|] eqn:Hobj; simpl; [|discriminate].
  assert (Hne : object <> []).
  { destruct fields as [|f fields]; [discriminate|].
    simpl in Hmap.
    destruct (luaAstToJson f ≫= destructure_key_value) as [[k v]|]; [|discriminate].
    destruct (js_map _ fields); [|discriminate].
    injection Hmap as <-. unfold fromEntries in Hobj. simpl in Hobj.
    destruct (ToPropertyKey k) as [key|]; [|discriminate].
    eapply fromEntries_from_not_nil; [|exact Hobj]. discriminate. }
  destruct object as [|p object]; [contradiction|].
  simpl. intros [= <-]. eauto.
Qed.

(** A keyed field after an unkeyed first field comes out as the pair of its
    reduced key and value, in its position. *)
Lemma later_keyed_field_is_a_pair (first key value : Ast) (a k v : JsVal) :
  first_field_has_key [first] = false ->
  luaAstToJson first = Ok a ->
  surface_table_key a = Ok a ->
  luaAstToJson key = Ok k ->
  luaAstToJson value = Ok v ->
  luaAstToJson (TableConstructorExpression [first; TableKey key value])
  = Ok (JArr [a; JArr [k; v]]).
Proof.
  intros Hfirst Ha Hsurf Hk Hv.
  assert (Hkeyless : first_field_has_key [first; TableKey key value] = false).
  { destruct first; try discriminate; reflexivity. }
  rewrite table_rules, Hkeyless. simpl. rewrite Ha. simpl. rewrite Hsurf. simpl.
  rewrite Hk. simpl. rewrite Hv. reflexivity.
Qed.

(** C6, at the failing input.  The table [{ 1, nil, 3 }] has an unkeyed
    first field, so it should reduce to the array of its three reduced
    values; the reduction instead throws when it reads
    [__internal_table_key] off the [null] that the second field reduces
    to, and a file whose global table contains such a table is reported as
    having no [ScribeyDB] at all. *)
Theorem C6_array_table_with_nil_throws :
  first_field_has_key
    [TableValue (NumericLiteral 1); TableValue NilLiteral; TableValue (NumericLiteral 3)]
  = false
  /\ luaAstToJson (TableValue NilLiteral) = Ok JNull
  /\ luaAstToJson table_with_hole = Throw TypeError_read
  /\ extractScribeyDBFromAST body_with_hole = JNull.
Proof. repeat split. Qed.

End TableReduction.

(** * Further properties of the configuration provider *)

Module CharacterListFacts.
Import ConfigManager ConfigManagerFacts.

Lemma find_from_None_inv {A} (p : A -> bool) (l : list A) (i : nat) :
  find_from p i l = None -> Forall (fun x => p x = false) l.
Proof.
  revert i. induction l as [|x l IH]; intros i; simpl; [constructor|].
  destruct (p x) eqn:Hx; [discriminate|]. intros Hf. constructor; [exact Hx | eauto].
Qed.

Lemma same_character_key (n r : string) (c : CharacterConfig) :
  same_character n r c = true <-> key_of c = (n, r).
Proof.
  rewrite same_character_spec. unfold key_of. split.
  - intros [-> ->]. reflexivity.
  - intros [= -> ->]. split; reflexivity.
Qed.

Lemma set_characters_same (cm : ConfigManager.t) : set_characters (characters cm) cm = cm.
Proof. destruct cm; reflexivity. Qed.

(** Without a match the key is not in the list, and conversely. *)
Lemma find_from_None_key (n r : string) (l : list CharacterConfig) (i : nat) :
  find_from (same_character n r) i l = None <-> (n, r) ∉ key_of <$> l.
Proof.
  split.
  - intros Hf Hin. apply find_from_None_inv in Hf.
    apply list_elem_of_fmap in Hin as (c & Hk & Hc).
    rewrite Forall_forall in Hf. specialize (Hf c Hc).
    assert (Ht : same_character n r c = true) by (apply same_character_key; congruence).
    congruence.
  - intros Hnot. apply find_from_None. apply Forall_forall. intros c Hc.
    destruct (same_character n r c) eqn:E; [|reflexivity].
    exfalso. apply Hnot. apply same_character_key in E.
    apply list_elem_of_fmap. exists c. split; [congruence | exact Hc].
Qed.

(** Overwriting an entry with one of the same name and realm keeps the
    list of keys. *)
Lemma keys_insert_same (l : list CharacterConfig) (i : nat) (x c : CharacterConfig) :
  l !! i = Some x -> key_of c = key_of x ->
  key_of <$> <[i := c]> l = key_of <$> l.
Proof.
  intros Hi Hk. rewrite list_fmap_insert. apply list_insert_id.
  rewrite list_lookup_fmap, Hi. simpl. congruence.
Qed.

Lemma keys_filter_sub (p : CharacterConfig -> bool) (l : list CharacterConfig) (k : string * string) :
  k ∈ key_of <$> List.filter p l -> k ∈ key_of <$> l.
Proof.
  intros Hin. apply list_elem_of_fmap in Hin as (c & -> & Hc).
  apply list_elem_of_In, filter_In in Hc as [Hc _].
  apply list_elem_of_fmap. exists c. split; [reflexivity | apply list_elem_of_In; exact Hc].
Qed.

Lemma keys_filter_NoDup (p : CharacterConfig -> bool) (l : list CharacterConfig) :
  NoDup (key_of <$> l) -> NoDup (key_of <$> List.filter p l).
Proof.
  induction l as [|x l IH]; simpl; [trivial|].
  rewrite NoDup_cons. intros [Hx Hl].
  destruct (p x); simpl; [|exact (IH Hl)].
  apply NoDup_cons. split; [|exact (IH Hl)].
  intros Hin. apply Hx. exact (keys_filter_sub p l _ Hin).
Qed.


Lemma addCharacter_keys_NoDup (c : CharacterConfig) (cm : ConfigManager.t) :
  NoDup (key_of <$> characters cm) -> NoDup (key_of <$> characters (addCharacter c cm)).
Proof.
  intros Hnd. unfold addCharacter, getCharacters.
  destruct (find_from _ 0 (characters cm)) as [[i x]|] eqn:Hf; simpl.
  - destruct (find_from_Some _ _ _ _ _ Hf) as (_ & Hi & Hx & _).
    rewrite Nat.sub_0_r in Hi. apply same_character_key in Hx.
    rewrite (keys_insert_same _ i x c Hi); [exact Hnd | symmetry; exact Hx].
  - apply find_from_None_key in Hf. rewrite fmap_app. apply NoDup_app.
    split; [exact Hnd|]. split; [|apply NoDup_singleton].
    intros k Hk Hk'. apply list_elem_of_singleton in Hk'. subst k. exact (Hf Hk).
Qed.

Lemma updateCharacterSync_keys (n r : string) (timestamp : Z) (cm : ConfigManager.t) :
  key_of <$> characters (updateCharacterSync n r timestamp cm) = key_of <$> characters cm.
Proof.
  unfold updateCharacterSync, getCharacters.
  destruct (find_from _ 0 (characters cm)) as [[i x]|] eqn:Hf; simpl; [|reflexivity].
  destruct (find_from_Some _ _ _ _ _ Hf) as (_ & Hi & _ & _).
  rewrite Nat.sub_0_r in Hi. apply (keys_insert_same _ i x); [exact Hi | reflexivity].
Qed.

Lemma filter_keeps_all {A} (p : A -> bool) (l : list A) :
  Forall (fun x => p x = false) l -> List.filter (fun x => negb (p x)) l = l.
Proof.
  induction 1 as [|x l Hx _ IH]; simpl; [reflexivity|].
  rewrite Hx. simpl. rewrite IH. reflexivity.
Qed.


Lemma apply_keys_NoDup (op : Op) (cm : ConfigManager.t) :
  NoDup (key_of <$> characters cm) -> NoDup (key_of <$> characters (apply op cm)).
Proof.
  intros Hnd. destruct op; simpl; try exact Hnd.
  - apply addCharacter_keys_NoDup. exact Hnd.
  - apply keys_filter_NoDup. exact Hnd.
  - rewrite updateCharacterSync_keys. exact Hnd.
  - apply NoDup_nil. exact I.
Qed.

End CharacterListFacts.

Section CharacterList.
Import ConfigManager ConfigManagerFacts CharacterListFacts.

(** X1. No sequence of configuration operations ([addCharacter],
    [removeCharacter], [updateCharacterSync], the setters, [reset]) ever
    leaves two configured characters with the same name and realm, when
    there were none before. *)
Theorem X1_characters_stay_unique (ops : list Op) (cm : ConfigManager.t) :
  NoDup (key_of <$> characters cm) ->
  NoDup (key_of <$> characters (apply_all ops cm)).
Proof.
  revert cm. induction ops as [|op ops IH]; intros cm Hnd; simpl; [exact Hnd|].
  apply IH. apply apply_keys_NoDup. exact Hnd.
Qed.


(** X3. After [removeCharacter(name, realm)] no entry has that name and
    realm and every other entry is kept; and removing a character that was
    just added to a list without it gives back the configuration as it
    was. *)
Theorem X3_removeCharacter_removes_exactly_the_pair
    (n r : string) (c : CharacterConfig) (cm : ConfigManager.t) :
  (forall c', c' ∈ characters (removeCharacter n r cm) <->
              c' ∈ characters cm /\ key_of c' <> (n, r))
  /\ (key_of c ∉ key_of <$> characters cm ->
      removeCharacter (name c) (realm c) (addCharacter c cm) = cm).
Proof.
  split.
  - intros c'. unfold removeCharacter, getCharacters. simpl.
    rewrite !list_elem_of_In, filter_In, negb_true_iff.
    split; intros [Hin Hk]; (split; [exact Hin|]).
    + intros Hkey. apply same_character_key in Hkey. congruence.
    + destruct (same_character n r c') eqn:E; [|reflexivity].
      apply same_character_key in E. contradiction.
  - intros Hnew.
    assert (Hf : find_from (same_character (name c) (realm c)) 0 (characters cm) = None).
    { apply find_from_None_key. exact Hnew. }
    unfold removeCharacter, addCharacter, getCharacters. rewrite Hf. simpl.
    rewrite List.filter_app. simpl.
    assert (Hc : same_character (name c) (realm c) c = true)
      by (apply same_character_key; reflexivity).
    rewrite Hc. simpl. rewrite app_nil_r.
    rewrite (filter_keeps_all _ _ (find_from_None_inv _ _ _ Hf)).
    destruct cm; reflexivity.
Qed.


End CharacterList.

Section CharacterListExamples.
Import ConfigManager.

Lemma X1_witness_add_twice :
  NoDup (key_of <$> characters
           (apply_all [ AddCharacter (configured "A" "R1" None);
                        AddCharacter (configured "A" "R1" (Some 3));
                        AddCharacter (configured "B" "R1" None);
                        RemoveCharacter "B" "R1";
                        UpdateCharacterSync "A" "R1" 9 ]
              (config_with []))).
Proof.
  apply X1_characters_stay_unique. simpl. apply NoDup_nil. exact I.
Defined.


Lemma X3_witness_add_then_remove :
  removeCharacter "D" "R1" (addCharacter (configured "D" "R1" None) scenario_E_config)
  = scenario_E_config.
Proof.
  apply (proj2 (X3_removeCharacter_removes_exactly_the_pair "D" "R1"
                  (configured "D" "R1" None) scenario_E_config)).
  apply (bool_decide_unpack _). vm_compute. exact I.
Defined.


End CharacterListExamples.

Section DeviceIdentity.
Import ConfigManager.

Lemma apply_keeps_memory_id (op : Op) (cm : ConfigManager.t) :
  _deviceId (apply op cm) = _deviceId cm.
Proof.
  destruct op; simpl; try reflexivity.
  - unfold addCharacter. destruct (find_from _ _ _) as [[i x]|]; reflexivity.
  - unfold updateCharacterSync. destruct (find_from _ _ _) as [[i x]|]; reflexivity.
Qed.

Lemma apply_all_keeps_memory_id (ops : list Op) (cm : ConfigManager.t) :
  _deviceId (apply_all ops cm) = _deviceId cm.
Proof.
  revert cm. induction ops as [|op ops IH]; intros cm; simpl; [reflexivity|].
  unfold apply_all in IH. rewrite IH. apply apply_keeps_memory_id.
Qed.

Lemma nonempty_Some (o : option string) (s : string) :
  nonempty o = Some s -> o = Some s /\ s <> "".
Proof.
  destruct o as [s'|]; simpl; [|discriminate].
  destruct (String.eqb s' "") eqn:E; [discriminate|].
  intros [= <-]. split; [reflexivity|]. apply String.eqb_neq. exact E.
Qed.

(** X5. [getDeviceId] never answers the empty string.  Once the machine id
    has been obtained and is not empty it is the answer, and it stays the
    answer through every configuration operation, [reset] included, which
    wipes the stored copy; when the machine id cannot be obtained the
    answer is the placeholder. *)
Theorem X5_device_identity_is_stable (cm : ConfigManager.t) :
  getDeviceId cm <> ""
  /\ (forall (id : string) (ops : list Op),
        id <> "" ->
        getDeviceId (apply_all ops (initializeDeviceId (Ok id) cm)) = id)
  /\ (forall (e : string) (ops : list Op),
        getDeviceId (apply_all ops (initializeDeviceId (Throw e) cm)) = "unknown-device").
Proof.
  split; [|split].
  - unfold getDeviceId.
    destruct (nonempty (_deviceId cm)) as [d|] eqn:Hm.
    + apply nonempty_Some in Hm. tauto.
    + destruct (nonempty (deviceId cm)) as [d|] eqn:Hs; simpl.
      * apply nonempty_Some in Hs. tauto.
      * discriminate.
  - intros id ops Hid. unfold getDeviceId.
    rewrite apply_all_keeps_memory_id. simpl.
    apply String.eqb_neq in Hid. rewrite Hid. reflexivity.
  - intros e ops. unfold getDeviceId.
    rewrite apply_all_keeps_memory_id. reflexivity.
Qed.

Lemma X5_witness_reset_keeps_identity :
  getDeviceId (apply_all [Reset; SetServerUrl "http://localhost:3000"]
                 (initializeDeviceId (Ok "4c4c4544-0042") (config_with [])))
  = "4c4c4544-0042".
Proof.
  apply (proj1 (proj2 (X5_device_identity_is_stable (config_with [])))).
  discriminate.
Defined.

End DeviceIdentity.

(** * Further properties of the upload queue *)

Module CycleFacts.
Import DataUploader QueueFacts.

Section Provider.
Context {C : Type} `{ConfigProvider C}.

Lemma gate_open_false (env : CycleEnv) (u : DataUploader.t) :
  gate_open env u ->
  (3 <=? consecutiveFailures u)
  && (gate_time env - lastUploadAttempt u <? backoffTime (set_isUploading true u)) = false.
Proof.
  unfold gate_open, backoffTime. simpl. intros [Hlt | Hge]; apply andb_false_iff.
  - left. apply Z.leb_gt. exact Hlt.
  - right. apply Z.ltb_ge. exact Hge.
Qed.

(** A cycle that starts (idle uploader, non-empty queue, open gate) takes
    the first five items and runs the batch on the rest. *)
Lemma cycle_open (env : CycleEnv) (cm : C) (u : DataUploader.t) :
  isUploading u = false -> uploadQueue u <> [] -> gate_open env u ->
  processUploadQueue env cm u
  = let batch := take batchSize (uploadQueue u) in
    let started := set_queue (drop batchSize (uploadQueue u)) (set_isUploading true u) in
    let r := run_batch (delivery env) 0 batch cm started in
    finish r.1.1 (set_lastUploadAttempt (end_time env) r.1.2)
      {| success := true;
         message := Some ("Processed " +:+ Js.Number_toString (Num (Z.of_nat (length batch)))
                          +:+ " items");
         error := None |} r.2.
Proof.
  intros Hidle Hq Hgate. unfold processUploadQueue. rewrite Hidle.
  destruct (uploadQueue u) as [|x q] eqn:E; [contradiction|].
  cbn [length Nat.eqb orb].
  pose proof (gate_open_false env u Hgate) as Hg.
  cbn [consecutiveFailures set_isUploading lastUploadAttempt] in *.
  rewrite Hg. cbn [uploadQueue set_isUploading]. rewrite E.
  destruct (run_batch _ _ _ _ _) as [[cm' u'] log]. reflexivity.
Qed.

(** The log of a batch lists the batch, in order. *)
Lemma run_batch_log (delivery : nat -> list Interleaved * HttpOutcome)
    (batch : list QueueItem) (i : nat) (cm : C) (u : DataUploader.t) :
  map attempted (run_batch delivery i batch cm u).2 = batch.
Proof.
  revert i cm u. induction batch as [|x batch IH]; intros i cm u; simpl; [reflexivity|].
  destruct (delivery i) as [during o].
  destruct (attempt x during o cm u) as [cm1 u1].
  specialize (IH (S i) cm1 u1).
  destruct (run_batch delivery (S i) batch cm1 u1) as [[cm2 u2] log].
  simpl in *. rewrite IH. reflexivity.
Qed.

(** Neither the loop body nor the batch touches the busy flag or the time
    stamp. *)
Lemma interleave_all_frame (during : list Interleaved) (u : DataUploader.t) :
  isUploading (interleave_all during u) = isUploading u
  /\ lastUploadAttempt (interleave_all during u) = lastUploadAttempt u.
Proof.
  unfold interleave_all.
  revert u. induction during as [|e during IH]; intros u; simpl; [tauto|].
  destruct (IH (interleave e u)) as [-> ->].
  destruct e as [item | [m | s t] | |]; simpl; tauto.
Qed.

Lemma attempt_frame (item : QueueItem) (during : list Interleaved) (o : HttpOutcome)
    (cm : C) (u : DataUploader.t) :
  isUploading (attempt item during o cm u).2 = isUploading u
  /\ lastUploadAttempt (attempt item during o cm u).2 = lastUploadAttempt u.
Proof.
  destruct (interleave_all_frame during u) as [Hb Ht].
  unfold attempt, uploadSingleItem.
  destruct o as [m | status txt]; simpl.
  - destruct (_ <? 5); simpl; rewrite Hb, Ht; tauto.
  - destruct (status =? 200); simpl; [|destruct (0 <? 5)]; simpl; rewrite Hb, Ht; tauto.
Qed.

Lemma run_batch_frame (delivery : nat -> list Interleaved * HttpOutcome)
    (batch : list QueueItem) (i : nat) (cm : C) (u : DataUploader.t) :
  isUploading (run_batch delivery i batch cm u).1.2 = isUploading u
  /\ lastUploadAttempt (run_batch delivery i batch cm u).1.2 = lastUploadAttempt u.
Proof.
  revert i cm u. induction batch as [|x batch IH]; intros i cm u; simpl; [tauto|].
  destruct (delivery i) as [during o].
  pose proof (attempt_frame x during o cm u) as Ha.
  destruct (attempt x during o cm u) as [cm1 u1].
  specialize (IH (S i) cm1 u1).
  destruct (run_batch delivery (S i) batch cm1 u1) as [[cm2 u2] log].
  simpl in *. destruct IH as [-> ->]. exact Ha.
Qed.

End Provider.
End CycleFacts.

Section BatchOrder.
Import DataUploader QueueFacts CycleFacts.
Context {C : Type} `{ConfigProvider C}.

(** X6. A drain cycle never attempts more than five deliveries.  When it
    starts (idle uploader, open gate) it attempts exactly the first five
    items of the queue as it was at that moment, in queue order, whatever
    the outcomes are and whatever is pushed, cleared or reset while the
    deliveries are awaited; and when a drain is already active it attempts
    nothing. *)
Theorem X6_batch_is_the_first_five_in_order (env : CycleEnv) (cm : C) (u : DataUploader.t) :
  (length (attempts (processUploadQueue env cm u)) <= 5)%nat
  /\ (isUploading u = false -> gate_open env u ->
      map attempted (attempts (processUploadQueue env cm u)) = take 5 (uploadQueue u))
  /\ (isUploading u = true -> processUploadQueue env cm u
      = {| uploader := u; config := cm;
           response := {| success := true; message := None; error := None |};
           attempts := []; rescheduled := false |}).
Proof.
  assert (Hopen : isUploading u = false -> gate_open env u ->
                  map attempted (attempts (processUploadQueue env cm u))
                  = take 5 (uploadQueue u)).
  { intros Hidle Hgate.
    destruct (uploadQueue u) as [|x q] eqn:E.
    - unfold processUploadQueue. rewrite Hidle, E. reflexivity.
    - rewrite (cycle_open env cm u Hidle) by (rewrite ?E; congruence || exact Hgate).
      cbv zeta. unfold finish. cbn [attempts]. rewrite run_batch_log, E. reflexivity. }
  split; [|split].
  - destruct (isUploading u) eqn:Hbusy.
    + unfold processUploadQueue. rewrite Hbusy. simpl. lia.
    + unfold processUploadQueue. rewrite Hbusy.
      destruct (uploadQueue u) as [|x q] eqn:E; [simpl; lia|].
      cbn [length Nat.eqb orb].
      destruct ((3 <=? _) && _); [simpl; lia|].
      pose proof (run_batch_log (delivery env) (take batchSize (uploadQueue (set_isUploading true u)))
                    0 cm (set_queue (drop batchSize (uploadQueue (set_isUploading true u)))
                            (set_isUploading true u))) as Hlog.
      destruct (run_batch _ _ _ _ _) as [[cm' u'] log]. simpl in Hlog.
      unfold finish. cbn [attempts].
      rewrite <- (length_map attempted), Hlog, length_take. unfold batchSize. lia.
  - exact Hopen.
  - intros Hbusy. unfold processUploadQueue. rewrite Hbusy. reflexivity.
Qed.

End BatchOrder.

Section BatchOrderExamples.
Import DataUploader.

Lemma X6_witness_full_batch :
  map attempted (attempts (processUploadQueue (rejecting 2000 2005) scenario_E_config
                             after_a_delivery))
  = five_items.
Proof.
  apply (proj1 (proj2 (X6_batch_is_the_first_five_in_order (rejecting 2000 2005)
                         scenario_E_config after_a_delivery))).
  - reflexivity.
  - left. simpl. lia.
Defined.

End BatchOrderExamples.

Module DeliveryFacts.
Import DataUploader QueueFacts CycleFacts.

Section Provider.
Context {C : Type} `{ConfigProvider C}.

Lemma sync_batch_app (a b : list QueueItem) (cm : C) :
  sync_batch (a ++ b) cm = sync_batch b (sync_batch a cm).
Proof. unfold sync_batch. apply fold_left_app. Qed.

(** A batch of which every item is delivered. *)
Lemma run_batch_delivers (delivery : nat -> list Interleaved * HttpOutcome)
    (batch : list QueueItem) (i : nat) (cm : C) (u : DataUploader.t) :
  (forall j, exists statusText, delivery j = ([], HttpResponse 200 statusText)) ->
  (run_batch delivery i batch cm u).1
  = (sync_batch batch cm,
     match batch with [] => u | _ :: _ => set_consecutiveFailures 0 u end).
Proof.
  intros Hall. revert i cm u.
  induction batch as [|x batch IH]; intros i cm u; simpl; [reflexivity|].
  destruct (Hall i) as [txt ->]. unfold attempt, uploadSingleItem. simpl.
  specialize (IH (S i)
                (sync_characters (map fst (AddonData.characters (data x))) (timestamp x) cm)
                (set_consecutiveFailures 0 u)).
  destruct (run_batch delivery (S i) batch _ _) as [[cm2 u2] log].
  simpl in *. injection IH as -> ->. destruct batch; reflexivity.
Qed.

(** A started cycle of which every item is delivered. *)
Lemma cycle_delivers (env : CycleEnv) (cm : C) (u : DataUploader.t) :
  isUploading u = false -> uploadQueue u <> [] -> gate_open env u -> delivers_all env ->
  uploader (processUploadQueue env cm u)
  = {| uploadQueue := drop 5 (uploadQueue u); isUploading := false;
       lastUploadAttempt := end_time env; consecutiveFailures := 0 |}
  /\ config (processUploadQueue env cm u) = sync_batch (take 5 (uploadQueue u)) cm
  /\ map attempted (attempts (processUploadQueue env cm u)) = take 5 (uploadQueue u)
  /\ rescheduled (processUploadQueue env cm u)
     = negb (Nat.eqb (length (drop 5 (uploadQueue u))) 0)
  /\ success (response (processUploadQueue env cm u)) = true.
Proof.
  intros Hidle Hq Hgate Hall.
  rewrite (cycle_open env cm u Hidle Hq Hgate). cbv zeta.
  pose proof (run_batch_delivers (delivery env) (take batchSize (uploadQueue u)) 0 cm
                (set_queue (drop batchSize (uploadQueue u)) (set_isUploading true u)) Hall)
    as Hrun.
  pose proof (run_batch_log (delivery env) (take batchSize (uploadQueue u)) 0 cm
                (set_queue (drop batchSize (uploadQueue u)) (set_isUploading true u)))
    as Hlog.
  destruct (run_batch _ _ _ _ _) as [[cm' u'] log]. simpl in Hrun, Hlog.
  injection Hrun as -> ->. unfold finish. simpl.
  destruct (uploadQueue u) as [|x q]; [contradiction|]. simpl.
  split; [reflexivity|]. split; [reflexivity|]. split; [exact Hlog|]. split; reflexivity.
Qed.

(** Drain cycles on an empty queue do nothing. *)
Lemma drains_on_empty_queue (envs : list CycleEnv) (cm : C) (u : DataUploader.t) :
  uploadQueue u = [] -> run_ops (map Drain envs) cm u = (cm, u, []).
Proof.
  intros Hq. induction envs as [|env envs IH]; simpl; [reflexivity|].
  unfold processUploadQueue. rewrite Hq. simpl. rewrite orb_true_r. simpl.
  rewrite IH. reflexivity.
Qed.

End Provider.
End DeliveryFacts.

Section Throughput.
Import DataUploader QueueFacts CycleFacts DeliveryFacts.
Context {C : Type} `{ConfigProvider C}.

(** X7. When the service answers every upload with status 200, a run of
    [n] drain cycles from an idle uploader whose gate is open for the first
    of them delivers the first [5 n] items of the queue, in queue order,
    removes exactly those, and records the sync of each delivered item's
    characters in that order. *)
Theorem X7_queue_is_worked_off_five_per_cycle
    (envs : list CycleEnv) (cm : C) (u : DataUploader.t) :
  isUploading u = false ->
  Forall delivers_all envs ->
  match envs with env :: _ => gate_open env u | [] => True end ->
  let '(cm', u', log) := run_ops (map Drain envs) cm u in
  uploadQueue u' = drop (5 * length envs) (uploadQueue u)
  /\ map attempted log = take (5 * length envs) (uploadQueue u)
  /\ cm' = sync_batch (take (5 * length envs) (uploadQueue u)) cm
  /\ isUploading u' = false.
Proof.
  intros Hidle Hall. revert cm u Hidle.
  induction Hall as [|env envs Henv Hall IH]; intros cm u Hidle Hgate.
  - simpl. rewrite take_0. repeat split. exact Hidle.
  - destruct (uploadQueue u) as [|x q] eqn:Hq.
    + rewrite (drains_on_empty_queue (env :: envs) cm u Hq).
      rewrite Hq, drop_nil, take_nil. repeat split. exact Hidle.
    + assert (Hne : uploadQueue u <> []) by (rewrite Hq; discriminate).
      destruct (cycle_delivers env cm u Hidle Hne Hgate Henv)
        as (Hu & Hcm & Hlog & _ & _).
      cbn [map run_ops run_op].
      set (c := processUploadQueue env cm u) in *.
      assert (Hnext : match envs with e :: _ => gate_open e (uploader c) | [] => True end).
      { destruct envs; [exact I|]. left. rewrite Hu. simpl. lia. }
      assert (Hidle' : isUploading (uploader c) = false) by (rewrite Hu; reflexivity).
      specialize (IH (config c) (uploader c) Hidle' Hnext).
      destruct (run_ops (map Drain envs) (config c) (uploader c)) as [[cm' u'] log].
      destruct IH as (IHq & IHlog & IHcm & IHidle).
      rewrite Hu in IHq, IHlog, IHcm. simpl uploadQueue in IHq, IHlog, IHcm.
      rewrite Hq in *.
      replace (5 * length (env :: envs))%nat with (5 + 5 * length envs)%nat by (simpl; lia).
      split; [rewrite IHq, drop_drop; reflexivity|].
      split.
      * rewrite map_app, Hlog, IHlog. apply take_take_drop.
      * split; [|exact IHidle].
        rewrite IHcm, Hcm, <- sync_batch_app. f_equal. apply take_take_drop.
Qed.

End Throughput.

Section ThroughputExamples.
Import DataUploader.

Lemma delivering_delivers_all (gate finish : Z) : delivers_all (delivering gate finish).
Proof. intros i. eexists. reflexivity. Defined.

Lemma X7_witness_seven_items_two_cycles :
  let '(cm', u', log) :=
    run_ops (map Drain [delivering 30000 30010; delivering 31010 31020]) scenario_E_config
      backed_off in
  uploadQueue u' = [] /\ map attempted log = seven_items.
Proof.
  pose proof (X7_queue_is_worked_off_five_per_cycle
                [delivering 30000 30010; delivering 31010 31020] scenario_E_config
                backed_off eq_refl) as Hx.
  assert (Hall : Forall delivers_all [delivering 30000 30010; delivering 31010 31020]).
  { repeat constructor; apply delivering_delivers_all. }
  assert (Hgate : gate_open (delivering 30000 30010) backed_off).
  { right. unfold backoffTime. simpl. lia. }
  specialize (Hx Hall Hgate).
  destruct (run_ops _ scenario_E_config backed_off) as [[cm' u'] log].
  destruct Hx as (Hq & Hlog & _). split; [exact Hq | exact Hlog].
Defined.

End ThroughputExamples.

Module ConservationFacts.
Import DataUploader QueueFacts CycleFacts.

Lemma arrived_app (a b : list Interleaved) : arrived (a ++ b) = (arrived a ++ arrived b)%list.
Proof. unfold arrived. apply flat_map_app. Qed.

(** Without [clearQueue] the events that interleave only append what
    arrives. *)
Lemma interleave_all_queue (during : list Interleaved) (u : DataUploader.t) :
  Forall (fun e => clears e = false) during ->
  uploadQueue (interleave_all during u) = (uploadQueue u ++ arrived during)%list.
Proof.
  unfold interleave_all. intros Hall. revert u.
  induction Hall as [|e during He _ IH]; intros u; simpl.
  - symmetry. apply app_nil_r.
  - rewrite IH. destruct e as [item | o | |]; simpl in *; try discriminate.
    + rewrite <- app_assoc. reflexivity.
    + destruct o; reflexivity.
    + reflexivity.
Qed.

Section Provider.
Context {C : Type} `{ConfigProvider C}.

(** One delivery: the item either stays (at the head) or leaves. *)
Lemma attempt_conserves (item : QueueItem) (during : list Interleaved) (o : HttpOutcome)
    (cm : C) (u : DataUploader.t) :
  Forall (fun e => clears e = false) during ->
  exists removed,
    (removed = [] \/ removed = [item])
    /\ (uploadQueue (attempt item during o cm u).2 ++ removed)
       ≡ₚ item :: (uploadQueue u ++ arrived during).
Proof.
  intros Hall. pose proof (interleave_all_queue during u Hall) as Hq.
  unfold attempt, uploadSingleItem.
  destruct o as [m | status txt]; simpl.
  - destruct (_ <? 5); simpl.
    + exists []. split; [left; reflexivity|]. rewrite app_nil_r, Hq. reflexivity.
    + exists [item]. split; [right; reflexivity|]. rewrite Hq.
      symmetry. apply Permutation_cons_append.
  - destruct (status =? 200); simpl.
    + exists [item]. split; [right; reflexivity|]. rewrite Hq.
      symmetry. apply Permutation_cons_append.
    + exists []. split; [left; reflexivity|]. rewrite app_nil_r, Hq. reflexivity.
Qed.

Lemma run_batch_conserves (delivery : nat -> list Interleaved * HttpOutcome)
    (batch : list QueueItem) (i : nat) (cm : C) (u : DataUploader.t) :
  Forall (fun e => clears e = false)
    (flat_map (fun j => (delivery j).1) (seq i (length batch))) ->
  exists removed,
    removed `sublist_of` batch
    /\ (uploadQueue (run_batch delivery i batch cm u).1.2 ++ removed)
       ≡ₚ batch ++ uploadQueue u
          ++ arrived (flat_map (fun j => (delivery j).1) (seq i (length batch))).
Proof.
  revert i cm u. induction batch as [|x batch IH]; intros i cm u Hall.
  - exists []. split; [constructor|]. simpl. rewrite !app_nil_r. reflexivity.
  - cbn [length seq flat_map] in Hall |- *.
    apply Forall_app in Hall as [Hnow Hlater].
    cbn [run_batch]. destruct (delivery i) as [during o] eqn:Hd. simpl in Hnow.
    destruct (attempt_conserves x during o cm u Hnow) as (r1 & Hr1 & Hp1).
    destruct (attempt x during o cm u) as [cm1 u1]. simpl in Hp1.
    destruct (IH (S i) cm1 u1 Hlater) as (r2 & Hr2 & Hp2).
    destruct (run_batch delivery (S i) batch cm1 u1) as [[cm2 u2] log].
    simpl in Hp2 |- *.
    exists (r1 ++ r2)%list. split.
    + destruct Hr1 as [-> | ->]; simpl; [apply sublist_cons | apply sublist_skip]; exact Hr2.
    + rewrite arrived_app.
      rewrite (Permutation_app_comm r1 r2), app_assoc, Hp2.
      rewrite <- !app_assoc. rewrite (Permutation_app_comm _ r1).
      rewrite (app_assoc (uploadQueue u1)). rewrite (Permutation_app_comm _ r1).
      rewrite !app_assoc.
      rewrite <- (app_assoc batch). rewrite (Permutation_app_comm r1), Hp1.
      simpl. rewrite <- Permutation_middle. simpl. apply Permutation_skip.
      rewrite <- !app_assoc. reflexivity.
Qed.

End Provider.
End ConservationFacts.

Section Conservation.
Import DataUploader QueueFacts CycleFacts ConservationFacts.
Context {C : Type} `{ConfigProvider C}.

(** X8.  A drain cycle of an idle uploader neither invents nor duplicates
    queue items, and the only ones it can lose are among those it attempted:
    unless [clearQueue] runs during one of its deliveries, the queue it
    leaves, together with some sub-list of its batch, is a rearrangement of
    the queue it found together with the uploads that arrived meanwhile. *)
Theorem X8_a_cycle_loses_only_items_of_its_batch
    (env : CycleEnv) (cm : C) (u : DataUploader.t) :
  isUploading u = false -> gate_open env u -> never_cleared env u ->
  exists removed,
    removed `sublist_of` take 5 (uploadQueue u)
    /\ (uploadQueue (uploader (processUploadQueue env cm u)) ++ removed)
       ≡ₚ uploadQueue u
          ++ arrived (during_first env (length (take 5 (uploadQueue u)))).
Proof.
  intros Hidle Hgate Hclear.
  destruct (uploadQueue u) as [|x q] eqn:Hq.
  - exists []. split; [constructor|].
    unfold processUploadQueue. rewrite Hidle, Hq. simpl. rewrite Hq. reflexivity.
  - assert (Hne : uploadQueue u <> []) by (rewrite Hq; discriminate).
    rewrite (cycle_open env cm u Hidle Hne Hgate).
    unfold never_cleared, during_first in *. rewrite Hq in *. unfold batchSize.
    set (batch := take 5 (x :: q)) in *.
    set (started := set_queue (drop 5 (x :: q)) (set_isUploading true u)).
    destruct (run_batch_conserves (delivery env) batch 0 cm started Hclear)
      as (removed & Hsub & Hperm).
    exists removed. split; [exact Hsub|].
    cbn [finish uploader uploadQueue set_isUploading set_lastUploadAttempt].
    rewrite Hperm. cbn [started uploadQueue set_queue].
    rewrite app_assoc. unfold batch. rewrite take_drop. reflexivity.
Qed.

End Conservation.

Section ConservationExamples.
Import DataUploader.

(** X8 on a full batch: one delivered, one rejected, three answered with
    202, and an upload arriving in between. *)
Lemma X8_witness_mixed_cycle :
  exists removed,
    removed `sublist_of` take 5 five_items
    /\ (uploadQueue (uploader (processUploadQueue (mixed_cycle 2000 2500) scenario_E_config
                                 after_a_delivery)) ++ removed)
       ≡ₚ five_items ++ [item_X].
Proof.
  apply (X8_a_cycle_loses_only_items_of_its_batch (mixed_cycle 2000 2500) scenario_E_config
           after_a_delivery).
  - reflexivity.
  - left. simpl. lia.
  - unfold never_cleared. simpl. repeat constructor.
Defined.

End ConservationExamples.

Module ProbeFacts.
Import DataUploader QueueFacts CycleFacts.

Lemma probe_is_intercept (p : Probe) (u : DataUploader.t) :
  probe p u = intercept (probe_outcome p) u.
Proof. destruct p as [s e [m | st tx] d | now [m | st tx]]; reflexivity. Qed.

Lemma probes_frame (ps : list Probe) (u : DataUploader.t) :
  uploadQueue (probes ps u) = uploadQueue u
  /\ isUploading (probes ps u) = isUploading u
  /\ lastUploadAttempt (probes ps u) = lastUploadAttempt u.
Proof.
  unfold probes. revert u. induction ps as [|p ps IH]; intros u; simpl; [tauto|].
  destruct (IH (probe p u)) as (-> & -> & ->). rewrite probe_is_intercept.
  destruct (probe_outcome p); simpl; tauto.
Qed.

Lemma probes_rejected (ps : list Probe) (u : DataUploader.t) :
  Forall (fun p => resolved (probe_outcome p) = false) ps ->
  consecutiveFailures (probes ps u) = consecutiveFailures u + Z.of_nat (length ps).
Proof.
  unfold probes. intros Hall. revert u.
  induction Hall as [|p ps Hp _ IH]; intros u; [simpl; lia|].
  cbn [fold_left length]. rewrite IH, probe_is_intercept.
  destruct (probe_outcome p); [|discriminate]. simpl. lia.
Qed.

(** With the counter below 3 an idle uploader attempts the first five. *)
Lemma cycle_attempts_first_five {C} `{ConfigProvider C}
    (env : CycleEnv) (cm : C) (u : DataUploader.t) :
  isUploading u = false -> consecutiveFailures u < 3 ->
  map attempted (attempts (processUploadQueue env cm u)) = take 5 (uploadQueue u).
Proof.
  intros Hidle Hf.
  destruct (uploadQueue u) as [|x q] eqn:Hq.
  - unfold processUploadQueue. rewrite Hidle, Hq. reflexivity.
  - rewrite cycle_open; [|exact Hidle|rewrite Hq; discriminate|left; exact Hf].
    cbn [finish attempts]. rewrite run_batch_log, Hq. reflexivity.
Qed.

End ProbeFacts.

Section SharedCounter.
Import DataUploader QueueFacts ProbeFacts.
Context {C : Type} `{ConfigProvider C}.

(** X9.  The connection test and the forced sync go through the same HTTP
    client as the queue, so they move the queue's failure counter and
    nothing else.  Once one of them has resolved, or after
    [retryFailedUploads], the next drain cycle of an idle uploader attempts
    the first five queued items whatever the clock says: the back-off is
    over. *)
Theorem X9_a_resolved_probe_or_a_retry_ends_the_backoff
    (p : Probe) (env : CycleEnv) (cm : C) (u : DataUploader.t) :
  isUploading u = false ->
  (uploadQueue (probe p u) = uploadQueue u
   /\ isUploading (probe p u) = isUploading u
   /\ lastUploadAttempt (probe p u) = lastUploadAttempt u)
  /\ (resolved (probe_outcome p) = true ->
      consecutiveFailures (probe p u) = 0
      /\ map attempted (attempts (processUploadQueue env cm (probe p u)))
         = take 5 (uploadQueue u))
  /\ map attempted (attempts (retryFailedUploads env cm u)) = take 5 (uploadQueue u).
Proof.
  intros Hidle.
  destruct (probes_frame [p] u) as (Hq & Hb & Ht). change (probes [p] u) with (probe p u) in *.
  split; [tauto|]. split.
  - intros Hres.
    assert (Hzero : consecutiveFailures (probe p u) = 0).
    { rewrite probe_is_intercept. destruct (probe_outcome p); [discriminate|reflexivity]. }
    split; [exact Hzero|].
    rewrite cycle_attempts_first_five; [rewrite Hq; reflexivity|congruence|lia].
  - unfold retryFailedUploads.
    rewrite cycle_attempts_first_five; [reflexivity|exact Hidle|simpl; lia].
Qed.

(** X10.  Every connection test or forced sync that is rejected counts as
    one more consecutive upload failure.  Once the count has reached 3 that
    way, a drain cycle starting inside the back-off window attempts nothing
    and leaves the queue as it is, although no upload has failed. *)
Theorem X10_rejected_probes_count_as_upload_failures
    (ps : list Probe) (env : CycleEnv) (cm : C) (u : DataUploader.t) :
  Forall (fun p => resolved (probe_outcome p) = false) ps ->
  consecutiveFailures (probes ps u) = consecutiveFailures u + Z.of_nat (length ps)
  /\ (3 <= consecutiveFailures u + Z.of_nat (length ps) ->
      gate_time env - lastUploadAttempt u
        < Z.min ((consecutiveFailures u + Z.of_nat (length ps)) * 5000) 30000 ->
      attempts (processUploadQueue env cm (probes ps u)) = []
      /\ uploadQueue (uploader (processUploadQueue env cm (probes ps u))) = uploadQueue u).
Proof.
  intros Hall. pose proof (probes_rejected ps u Hall) as Hcount.
  split; [exact Hcount|]. intros Hf Hw.
  destruct (probes_frame ps u) as (Hq & _ & Ht).
  destruct (closed_gate env cm (probes ps u)) as (Hu & _ & Ha & _).
  - rewrite Hcount. exact Hf.
  - rewrite Hcount, Ht. exact Hw.
  - rewrite Ha, Hu, Hq. split; reflexivity.
Qed.

End SharedCounter.

Section SharedCounterExamples.
Import DataUploader.

(** X9 behind a closed gate: a connection test answered with 204 is enough
    for the next cycle to attempt the first five of the seven items. *)
Lemma X9_witness_probe_behind_closed_gate :
  attempts (processUploadQueue (delivering 2000 2500) scenario_E_config backed_off) = []
  /\ map attempted
       (attempts (processUploadQueue (delivering 2000 2500) scenario_E_config
                    (probe (TestConnection 1500 1600 (HttpResponse 204 "No Content") JNull)
                       backed_off)))
     = five_items.
Proof.
  split; [reflexivity|].
  apply (X9_a_resolved_probe_or_a_retry_ends_the_backoff
           (TestConnection 1500 1600 (HttpResponse 204 "No Content") JNull)
           (delivering 2000 2500) scenario_E_config backed_off); reflexivity.
Defined.

(** X10 from a clean state: three rejected connection tests, and the cycle
    one second after the last delivery attempts nothing. *)
Lemma X10_witness_three_failed_tests :
  let ps := [TestConnection 1100 1200 (HttpRejected "connect ECONNREFUSED") JUndefined;
             ForceSync 1300 (HttpRejected "connect ECONNREFUSED");
             TestConnection 1400 1500 (HttpRejected "connect ECONNREFUSED") JUndefined] in
  attempts (processUploadQueue (delivering 2000 2500) scenario_E_config
              (probes ps after_a_delivery)) = []
  /\ map attempted
       (attempts (processUploadQueue (delivering 2000 2500) scenario_E_config after_a_delivery))
     = five_items.
Proof.
  intros ps. split; [|reflexivity].
  assert (Hall : Forall (fun p => resolved (probe_outcome p) = false) ps)
    by (repeat constructor).
  apply (proj2 (X10_rejected_probes_count_as_upload_failures ps (delivering 2000 2500)
                  scenario_E_config after_a_delivery Hall)); simpl; lia.
Defined.

End SharedCounterExamples.

Module RequeueFacts.
Import DataUploader QueueFacts CycleFacts.

Section Provider.
Context {C : Type} `{ConfigProvider C}.

(** A batch whose requests all resolve with another status than 200 goes
    back to the front of the queue, last item first. *)
Lemma run_batch_never_200 (delivery : nat -> list Interleaved * HttpOutcome)
    (batch : list QueueItem) (i : nat) (cm : C) (u : DataUploader.t) :
  (forall j, exists status statusText,
     delivery j = ([], HttpResponse status statusText) /\ status <> 200) ->
  (run_batch delivery i batch cm u).1.1 = cm
  /\ uploadQueue (run_batch delivery i batch cm u).1.2 = (rev batch ++ uploadQueue u)%list
  /\ consecutiveFailures (run_batch delivery i batch cm u).1.2
     = match batch with [] => consecutiveFailures u | _ => 0 end
  /\ length (run_batch delivery i batch cm u).2 = length batch.
Proof.
  intros Hall. revert i cm u.
  induction batch as [|x batch IH]; intros i cm u.
  - simpl. split; [reflexivity|]. split; [reflexivity|]. split; reflexivity.
  - cbn [run_batch]. destruct (Hall i) as (status & statusText & -> & Hs).
    unfold attempt, uploadSingleItem. cbn [interleave_all fold_left intercept].
    apply Z.eqb_neq in Hs. rewrite Hs.
    cbn [consecutiveFailures set_consecutiveFailures]. change (0 <? 5) with true. cbv iota.
    set (u1 := set_queue _ _).
    destruct (IH (S i) cm u1) as (Hc & Hq & Hz & Hl).
    destruct (run_batch delivery (S i) batch cm u1) as [[cm2 u2] log].
    simpl in Hc, Hq, Hz, Hl |- *.
    split; [exact Hc|]. split.
    + rewrite Hq. unfold u1. simpl. rewrite <- app_assoc. reflexivity.
    + split; [|rewrite Hl; reflexivity].
      rewrite Hz. destruct batch; reflexivity.
Qed.

(** One such cycle. *)
Lemma cycle_never_200 (env : CycleEnv) (cm : C) (u : DataUploader.t) :
  isUploading u = false -> gate_open env u -> never_200 env ->
  let c := processUploadQueue env cm u in
  config c = cm
  /\ uploadQueue (uploader c)
     = (rev (take 5 (uploadQueue u)) ++ drop 5 (uploadQueue u))%list
  /\ length (attempts c) = length (take 5 (uploadQueue u))
  /\ isUploading (uploader c) = false
  /\ (uploadQueue u <> [] -> consecutiveFailures (uploader c) = 0).
Proof.
  intros Hidle Hgate Hall. cbv zeta.
  destruct (uploadQueue u) as [|x q] eqn:Hq.
  - unfold processUploadQueue. rewrite Hidle, Hq. simpl. rewrite Hq.
    split; [reflexivity|]. split; [reflexivity|]. split; [reflexivity|].
    split; [exact Hidle|congruence].
  - assert (Hne : uploadQueue u <> []) by (rewrite Hq; discriminate).
    rewrite (cycle_open env cm u Hidle Hne Hgate). rewrite Hq. unfold batchSize.
    set (started := set_queue _ _).
    destruct (run_batch_never_200 (delivery env) (take 5 (x :: q)) 0 cm started Hall)
      as (Hc & Hqueue & Hz & Hl).
    cbn [finish config uploader attempts uploadQueue isUploading consecutiveFailures
         set_isUploading set_lastUploadAttempt].
    split; [exact Hc|]. split; [exact Hqueue|]. split; [exact Hl|].
    split; [reflexivity|]. intros _. exact Hz.
Qed.

End Provider.
End RequeueFacts.

Section Unaccepted.
Import DataUploader QueueFacts CycleFacts DeliveryFacts RequeueFacts.
Context {C : Type} `{ConfigProvider C}.

(** X11.  A response that resolves with a status other than 200 is treated
    as a failed upload that never counts: the interceptor has reset the
    failure counter before the [catch] block compares it with 5, so the item
    is always put back.  A cycle whose requests all resolve that way puts its
    whole batch back at the front of the queue in reverse order, stamps no
    character and leaves the counter at 0; hence over any number of such
    cycles the queue keeps exactly its items, each cycle attempts a full
    batch again, and the back-off never starts. *)
Theorem X11_other_statuses_are_retried_without_limit
    (envs : list CycleEnv) (cm : C) (u : DataUploader.t) :
  isUploading u = false ->
  Forall never_200 envs ->
  match envs with env :: _ => gate_open env u | [] => True end ->
  (forall env, head envs = Some env ->
     uploadQueue (uploader (processUploadQueue env cm u))
     = (rev (take 5 (uploadQueue u)) ++ drop 5 (uploadQueue u))%list)
  /\ let '(cm', u', log) := run_ops (map Drain envs) cm u in
     cm' = cm
     /\ uploadQueue u' ≡ₚ uploadQueue u
     /\ length log = (length envs * length (take 5 (uploadQueue u)))%nat
     /\ isUploading u' = false.
Proof.
  intros Hidle Hall Hgate. split.
  - intros env Hhead. destruct envs as [|env' envs]; [discriminate|].
    injection Hhead as ->. apply Forall_cons in Hall as [Henv _].
    exact (proj1 (proj2 (cycle_never_200 env cm u Hidle Hgate Henv))).
  - destruct (uploadQueue u) as [|x q] eqn:Hq.
    { rewrite (drains_on_empty_queue envs cm u Hq), Hq. simpl.
      rewrite Nat.mul_0_r. repeat split; [reflexivity|exact Hidle]. }
    rewrite <- Hq. assert (Hne : uploadQueue u <> []) by (rewrite Hq; discriminate).
    clear x q Hq. revert u Hidle Hgate Hne.
    induction Hall as [|env envs Henv _ IH]; intros u Hidle Hgate Hne.
    + simpl. split; [reflexivity|]. split; [reflexivity|]. split; [reflexivity|exact Hidle].
    + cbn [map run_ops run_op].
      destruct (cycle_never_200 env cm u Hidle Hgate Henv) as (Hc & Hq & Hl & Hb & Hz).
      set (c := processUploadQueue env cm u) in *.
      assert (Hperm : uploadQueue (uploader c) ≡ₚ uploadQueue u).
      { rewrite Hq, <- Permutation_rev, take_drop. reflexivity. }
      assert (Hne' : uploadQueue (uploader c) <> []).
      { intros E. rewrite E in Hperm.
        apply Permutation_nil in Hperm. contradiction. }
      assert (Hnext : match envs with env' :: _ => gate_open env' (uploader c) | [] => True end).
      { destruct envs as [|env' envs]; [exact I|]. left. rewrite (Hz Hne). lia. }
      specialize (IH (uploader c) Hb Hnext Hne'). rewrite Hc.
      destruct (run_ops (map Drain envs) cm (uploader c)) as [[cm' u'] log].
      destruct IH as (Hcm & Hp & Hlen & Hidle').
      split; [exact Hcm|]. split; [rewrite Hp; exact Hperm|].
      split; [|exact Hidle'].
      rewrite length_app, Hl, Hlen. cbn [length].
      rewrite !length_take, (Permutation_length Hperm). lia.
Qed.

End Unaccepted.

Section UnacceptedExamples.
Import DataUploader.

Lemma accepting_never_200 (gate finish : Z) : never_200 (accepting gate finish).
Proof. intros i. exists 201, "Created". split; [reflexivity|lia]. Qed.

(** X11 on seven items and three cycles answered with 201: fifteen
    attempts, and all seven items are still queued. *)
Lemma X11_witness_three_cycles_of_201 :
  let u := {| uploadQueue := seven_items; isUploading := false;
              lastUploadAttempt := 1000; consecutiveFailures := 0 |} in
  let envs := [accepting 2000 2500; accepting 3500 4000; accepting 5000 5500] in
  let '(cm', u', log) := run_ops (map Drain envs) scenario_E_config u in
  cm' = scenario_E_config
  /\ uploadQueue u' ≡ₚ seven_items
  /\ length log = 15%nat
  /\ isUploading u' = false.
Proof.
  intros u envs.
  apply (X11_other_statuses_are_retried_without_limit envs scenario_E_config u).
  - reflexivity.
  - repeat constructor; apply accepting_never_200.
  - left. simpl. lia.
Defined.

End UnacceptedExamples.

Module WatcherFacts.
Import FileWatcher.

Ltac handler_branches :=
  unfold handleFileChange;
  repeat match goal with
         | |- context [match read ?ev with _ => _ end] => destruct (read ev) eqn:?
         | |- context [decide ?P] => destruct (decide P)
         | |- context [if ?a <? ?b then _ else _] => destruct (Z.ltb_spec a b)
         | |- context [match parseLuaData ?c ?s with _ => _ end] =>
             destruct (parseLuaData c s) eqn:?
         | |- context [if cfg_isAutoUploadEnabled ?cm then _ else _] =>
             destruct (cfg_isAutoUploadEnabled cm) eqn:?
         | |- context [match upload_summary ?v with _ => _ end] =>
             destruct (upload_summary v) eqn:?
         end;
  simpl.

Section Handler.
Context `{JsEngine} `{LuaParser} {C : Type} `{ConfigProvider C}.
Implicit Types (cm : C) (ev : FileEvent) (w : FileWatcher.t).

(** The upload time recorded for a path never moves backwards. *)
Lemma stamp_grows cm ev w (p : string) (s : Z) :
  lastUploadAttempt w !! p = Some s ->
  exists s', lastUploadAttempt (handleFileChange cm ev w).1 !! p = Some s' /\ s <= s'.
Proof.
  intros Hs. unfold handleFileChange.
  destruct (read ev); try (exists s; split; [exact Hs|lia]).
  destruct (decide _); [exists s; split; [exact Hs|lia]|]. simpl.
  destruct (Z.ltb_spec (now ev - default 0 (lastUploadAttempt w !! filePath ev)) UPLOAD_COOLDOWN)
    as [_|Hcool]; [exists s; split; [exact Hs|lia]|].
  destruct (parseLuaData _ _); [|exists s; split; [exact Hs|lia]].
  destruct (cfg_isAutoUploadEnabled cm); [|exists s; split; [exact Hs|lia]].
  assert (Hstamp : exists s', <[filePath ev := now ev]> (lastUploadAttempt w) !! p = Some s'
                              /\ s <= s').
  { destruct (decide (filePath ev = p)) as [<-|Hne].
    - exists (now ev). rewrite lookup_insert_eq. split; [reflexivity|].
      rewrite Hs in Hcool. simpl in Hcool. unfold UPLOAD_COOLDOWN in Hcool. lia.
    - exists s. rewrite lookup_insert_ne by exact Hne. split; [exact Hs|lia]. }
  destruct (upload_summary _); exact Hstamp.
Qed.

Lemma stamp_grows_all cm (evs : list FileEvent) w (p : string) (s : Z) :
  lastUploadAttempt w !! p = Some s ->
  exists s', lastUploadAttempt (handle_all cm evs w).1 !! p = Some s' /\ s <= s'.
Proof.
  revert w s. induction evs as [|ev evs IH]; intros w s Hs; simpl.
  - exists s. split; [exact Hs|lia].
  - destruct (stamp_grows cm ev w p s Hs) as (s1 & Hs1 & Hle1).
    destruct (handleFileChange cm ev w) as [w1 eff]. simpl in Hs1.
    destruct (IH w1 s1 Hs1) as (s2 & Hs2 & Hle2).
    destruct (handle_all cm evs w1) as [w2 effs]. simpl in *.
    exists s2. split; [exact Hs2|lia].
Qed.

(** An enqueue records the time of the event for its path, and happens only
    when the cooldown since the recorded time has passed. *)
Lemma enqueue_needs_cooldown cm ev w :
  is_Some (enqueued (handleFileChange cm ev w).2) ->
  lastUploadAttempt (handleFileChange cm ev w).1 !! filePath ev = Some (now ev)
  /\ UPLOAD_COOLDOWN <= now ev - default 0 (lastUploadAttempt w !! filePath ev).
Proof.
  handler_branches; intros [x Hx]; try discriminate.
  split; [apply lookup_insert_eq|assumption].
Qed.

(** The handler reads the watcher state only through the two maps. *)
Lemma handler_reads_memory cm ev w w' :
  same_memory w w' ->
  (handleFileChange cm ev w).2 = (handleFileChange cm ev w').2
  /\ same_memory (handleFileChange cm ev w).1 (handleFileChange cm ev w').1.
Proof.
  intros [Hc Hs]. unfold handleFileChange, same_memory.
  destruct (read ev); simpl; try (split; [reflexivity|split; assumption]).
  rewrite <- Hc.
  destruct (decide _); [split; [reflexivity|split; assumption]|]. simpl. rewrite <- Hs.
  destruct (_ <? _); [simpl; rewrite Hc, Hs; tauto|].
  destruct (parseLuaData _ _); [|simpl; rewrite Hc, Hs; tauto].
  destruct (cfg_isAutoUploadEnabled cm); [|simpl; rewrite Hc, Hs; tauto].
  destruct (upload_summary _); simpl; rewrite Hc, Hs; tauto.
Qed.

Lemma trace_reads_memory cm (evs : list FileEvent) w w' :
  same_memory w w' ->
  (handle_all cm evs w).2 = (handle_all cm evs w').2
  /\ same_memory (handle_all cm evs w).1 (handle_all cm evs w').1.
Proof.
  revert w w'. induction evs as [|ev evs IH]; intros w w' Hm; simpl.
  - split; [reflexivity|exact Hm].
  - destruct (handler_reads_memory cm ev w w' Hm) as [Heff Hm1].
    destruct (handleFileChange cm ev w) as [w1 eff].
    destruct (handleFileChange cm ev w') as [w1' eff']. simpl in Heff, Hm1.
    destruct (IH w1 w1' Hm1) as [Heffs Hm2].
    destruct (handle_all cm evs w1) as [w2 effs].
    destruct (handle_all cm evs w1') as [w2' effs']. simpl in *.
    split; [congruence|exact Hm2].
Qed.

End Handler.
End WatcherFacts.

Section UploadSpacing.
Import FileWatcher WatcherFacts.
Context `{JsEngine} `{LuaParser} {C : Type} `{ConfigProvider C}.

(** X12.  Two snapshots of one file are never handed to the upload queue
    less than 30 s apart on the handler's clock, whatever was handled in
    between (events of the same path included) and even if the clock of the
    events in between jumps: the time recorded for a path only grows. *)
Theorem X12_enqueues_of_one_path_are_30s_apart
    (cm : C) (w : FileWatcher.t) (ev1 ev2 : FileEvent) (between : list FileEvent) :
  filePath ev2 = filePath ev1 ->
  let first := handleFileChange cm ev1 w in
  let later := (handle_all cm between first.1).1 in
  is_Some (enqueued first.2) ->
  is_Some (enqueued (handleFileChange cm ev2 later).2) ->
  now ev1 + 30000 <= now ev2.
Proof.
  intros Hp first later Hfirst Hsecond.
  destruct (enqueue_needs_cooldown cm ev1 w Hfirst) as [Hstamp _].
  destruct (stamp_grows_all cm between first.1 (filePath ev1) (now ev1) Hstamp)
    as (s & Hs & Hle).
  destruct (enqueue_needs_cooldown cm ev2 later Hsecond) as [_ Hcool].
  rewrite Hp in Hcool. fold later in Hs. rewrite Hs in Hcool.
  simpl in Hcool. unfold UPLOAD_COOLDOWN in Hcool. lia.
Qed.

(** X13.  [stop] forgets what was read and when it was uploaded: what the
    handler does with the events that follow a [stop] does not depend on
    anything that happened before it.  In particular a file whose content
    was cached, or uploaded a moment ago, goes through the pipeline again. *)
Theorem X13_stop_forgets_the_past
    (cm : C) (w w' : FileWatcher.t) (evs : list FileEvent) :
  (handle_all cm evs (stop w)).2 = (handle_all cm evs (stop w')).2
  /\ (forall ev content,
        read ev = FileContent content -> 30000 <= now ev ->
        decoded (handleFileChange cm ev (stop w)).2 = true)
  /\ lastUpdate (stop w) = lastUpdate w
  /\ lastError (stop w) = lastError w.
Proof.
  split.
  - apply trace_reads_memory. split; reflexivity.
  - split; [|split; reflexivity].
    intros ev content Hr Hnow. unfold handleFileChange. rewrite Hr.
    cbn [stop lastFileContents]. rewrite lookup_empty.
    destruct (decide _) as [E|_]; [discriminate E|]. simpl.
    rewrite lookup_empty. simpl.
    destruct (Z.ltb_spec (now ev - 0) UPLOAD_COOLDOWN) as [Hlt|_];
      [unfold UPLOAD_COOLDOWN in Hlt; lia|].
    destruct (parseLuaData _ _); [|reflexivity].
    destruct (cfg_isAutoUploadEnabled cm); [|reflexivity].
    destruct (upload_summary _); reflexivity.
Qed.

End UploadSpacing.

Module WatcherErrorFacts.
Import FileWatcher WatcherFacts.

Section Handler.
Context `{JsEngine} `{LuaParser} {C : Type} `{ConfigProvider C}.
Implicit Types (cm : C) (ev : FileEvent) (w : FileWatcher.t).

Lemma handler_without_auto_upload cm ev w :
  cfg_isAutoUploadEnabled cm = false ->
  enqueued (handleFileChange cm ev w).2 = None
  /\ lastUploadAttempt (handleFileChange cm ev w).1 = lastUploadAttempt w.
Proof.
  intros Hoff. unfold handleFileChange. rewrite Hoff.
  destruct (read ev); simpl; try tauto.
  destruct (decide _); simpl; [tauto|].
  destruct (_ <? _); simpl; [tauto|].
  destruct (parseLuaData _ _); simpl; tauto.
Qed.

Lemma handler_keeps_an_error cm ev w :
  is_Some (lastError w) -> is_Some (lastError (handleFileChange cm ev w).1).
Proof. handler_branches; intros Herr; try exact Herr; eexists; reflexivity. Qed.

(** Whatever the parser throws is swallowed by [parseLuaData]. *)
Lemma parse_error_is_swallowed (clock : ParseClock) (content message : string) :
  luaparse_parse content = Throw message -> parseLuaData clock content = None.
Proof. intros Hp. unfold parseLuaData, parseLuaData_ledger. rewrite Hp. reflexivity. Qed.

End Handler.
End WatcherErrorFacts.

Section HandlerOutcomes.
Import FileWatcher WatcherFacts WatcherErrorFacts.
Context `{JsEngine} `{LuaParser} {C : Type} `{ConfigProvider C}.

(** X14.  With auto-upload switched off no event is handed to the upload
    queue and no upload time is recorded, so the cooldown never starts; the
    file is still read, cached and decoded. *)
Theorem X14_without_auto_upload_nothing_is_enqueued
    (cm : C) (w : FileWatcher.t) (evs : list FileEvent) :
  cfg_isAutoUploadEnabled cm = false ->
  Forall (fun eff => enqueued eff = None) (handle_all cm evs w).2
  /\ lastUploadAttempt (handle_all cm evs w).1 = lastUploadAttempt w
  /\ (forall ev content,
        read ev = FileContent content ->
        lastFileContents w !! filePath ev <> Some content ->
        30000 <= now ev - default 0 (lastUploadAttempt w !! filePath ev) ->
        decoded (handleFileChange cm ev w).2 = true
        /\ lastFileContents (handleFileChange cm ev w).1 !! filePath ev = Some content).
Proof.
  intros Hoff. split; [|split].
  - revert w. induction evs as [|ev evs IH]; intros w; simpl; [constructor|].
    destruct (handler_without_auto_upload cm ev w Hoff) as [Hnone _].
    destruct (handleFileChange cm ev w) as [w1 eff]. specialize (IH w1).
    destruct (handle_all cm evs w1) as [w2 effs]. simpl in *.
    constructor; assumption.
  - revert w. induction evs as [|ev evs IH]; intros w; simpl; [reflexivity|].
    destruct (handler_without_auto_upload cm ev w Hoff) as [_ Hkeep].
    destruct (handleFileChange cm ev w) as [w1 eff]. specialize (IH w1).
    destruct (handle_all cm evs w1) as [w2 effs]. simpl in *. congruence.
  - intros ev content Hr Hchanged Hcool. unfold handleFileChange. rewrite Hr, Hoff.
    destruct (decide _) as [E|_]; [contradiction|]. simpl.
    destruct (Z.ltb_spec (now ev - default 0 (lastUploadAttempt w !! filePath ev))
                UPLOAD_COOLDOWN) as [Hlt|_]; [unfold UPLOAD_COOLDOWN in Hlt; lia|].
    destruct (parseLuaData _ _); simpl; (split; [reflexivity|apply lookup_insert_eq]).
Qed.

(** X15.  The handler never clears [lastError]: once set it stays set
    through every later event.  And a file the Lua parser rejects sets no
    error at all: the text is cached, nothing is enqueued, no upload time is
    recorded, and [lastError] is what it was. *)
Theorem X15_errors_are_sticky_and_parse_failures_silent
    (cm : C) (w : FileWatcher.t) :
  (forall evs, is_Some (lastError w) -> is_Some (lastError (handle_all cm evs w).1))
  /\ (forall ev content message,
        read ev = FileContent content ->
        luaparse_parse content = Throw message ->
        lastFileContents w !! filePath ev <> Some content ->
        lastError (handleFileChange cm ev w).1 = lastError w
        /\ lastUploadAttempt (handleFileChange cm ev w).1 = lastUploadAttempt w
        /\ enqueued (handleFileChange cm ev w).2 = None
        /\ lastFileContents (handleFileChange cm ev w).1 !! filePath ev = Some content).
Proof.
  split.
  - intros evs. revert w. induction evs as [|ev evs IH]; intros w Herr; simpl; [exact Herr|].
    pose proof (handler_keeps_an_error cm ev w Herr) as Hone.
    destruct (handleFileChange cm ev w) as [w1 eff]. specialize (IH w1 Hone).
    destruct (handle_all cm evs w1) as [w2 effs]. exact IH.
  - intros ev content message Hr Hp Hchanged. unfold handleFileChange. rewrite Hr.
    destruct (decide _) as [E|_]; [contradiction|]. simpl.
    rewrite (parse_error_is_swallowed (clock ev) content message Hp).
    destruct (_ <? _); simpl;
      (split; [reflexivity|]; split; [reflexivity|]; split; [reflexivity|]);
      apply lookup_insert_eq.
Qed.

End HandlerOutcomes.

Section HandlerExamples.
Import FileWatcher.

(** X12 on the scenario file: uploaded, replaced by a text the parser
    rejects, and restored 40 s later. *)
Lemma X12_witness_restored_after_40s :
  now (scenario_A_event 1700000000000) + 30000 <= now (scenario_A_event 1700000040000).
Proof.
  apply (@X12_enqueues_of_one_path_are_30s_apart digits_engine scenario_parser
           ConfigManager.t ConfigManager.provider scenario_E_config fresh_watcher
           (scenario_A_event 1700000000000) (scenario_A_event 1700000040000)
           [unreadable_event 1700000010000]).
  - reflexivity.
  - apply (bool_decide_unpack _). vm_compute. exact I.
  - apply (bool_decide_unpack _). vm_compute. exact I.
Defined.

(** X13: one second after its upload the unchanged scenario file is decoded
    again when the watcher was stopped in between. *)
Lemma X13_witness_same_file_after_stop :
  decoded (example_handle scenario_E_config (scenario_A_event 1700000001000)
             (stop (example_handle scenario_E_config (scenario_A_event 1700000000000)
                      fresh_watcher).1)).2 = true.
Proof.
  unfold example_handle.
  apply (proj1 (proj2 (@X13_stop_forgets_the_past digits_engine scenario_parser
                         ConfigManager.t ConfigManager.provider scenario_E_config
                         (handleFileChange scenario_E_config (scenario_A_event 1700000000000)
                            fresh_watcher).1 fresh_watcher []))
           (scenario_A_event 1700000001000) scenario_A_text).
  - reflexivity.
  - simpl. lia.
Defined.

(** X14 on the scenario file with auto-upload switched off. *)
Lemma X14_witness_auto_upload_off :
  let cm := ConfigManager.setAutoUploadEnabled false scenario_E_config in
  Forall (fun eff => enqueued eff = None)
    (example_handle_all cm [scenario_A_event 1700000000000; unreadable_event 1700000040000;
                            scenario_A_event 1700000080000] fresh_watcher).2
  /\ lastUploadAttempt
       (example_handle_all cm [scenario_A_event 1700000000000; unreadable_event 1700000040000;
                               scenario_A_event 1700000080000] fresh_watcher).1 = ∅.
Proof.
  intros cm. unfold example_handle_all.
  destruct (@X14_without_auto_upload_nothing_is_enqueued digits_engine scenario_parser
              ConfigManager.t ConfigManager.provider cm fresh_watcher
              [scenario_A_event 1700000000000; unreadable_event 1700000040000;
               scenario_A_event 1700000080000] eq_refl) as (Hnone & Hkeep & _).
  split; [exact Hnone|exact Hkeep].
Defined.

(** X15 on a text the parser rejects. *)
Lemma X15_witness_rejected_text :
  lastError (example_handle scenario_E_config (unreadable_event 1700000000000) fresh_watcher).1
  = None
  /\ enqueued (example_handle scenario_E_config (unreadable_event 1700000000000)
                 fresh_watcher).2 = None.
Proof.
  unfold example_handle.
  destruct (proj2 (@X15_errors_are_sticky_and_parse_failures_silent digits_engine
                     scenario_parser ConfigManager.t ConfigManager.provider
                     scenario_E_config fresh_watcher)
              (unreadable_event 1700000000000) "ScribeyDB = " "unexpected symbol"
              eq_refl eq_refl) as (Herr & _ & Hnone & _).
  - simpl. rewrite lookup_empty. discriminate.
  - split; [exact Herr|exact Hnone].
Defined.

End HandlerExamples.

Module StrictnessFacts.
Import Js Decoder.

Lemma js_map_throws {A B} (f : A -> JsResult B) (l : list A) (x : A) (message : string) :
  In x l -> f x = Throw message -> exists message', js_map f l = Throw message'.
Proof.
  intros Hin Hx. induction l as [|y l IH]; [destruct Hin|].
  simpl. destruct Hin as [-> | Hin].
  - rewrite Hx. eauto.
  - destruct (f y); [|eauto]. destruct (IH Hin) as [m' ->]. eauto.
Qed.

Section Reduction.
Context `{JsEngine}.

(** An exception raised anywhere the reduction reaches aborts the whole
    reduction. *)
Lemma reduction_is_strict (root x : Ast) (message : string) :
  evaluated_in root x -> luaAstToJson x = Throw message ->
  exists message', luaAstToJson root = Throw message'.
Proof.
  intros Hev Hx.
  induction Hev as [x | argument x _ IH | key value x _ IH | key value x _ IH
                    | key value x _ IH | key value x _ IH | value x _ IH
                    | fields field x Hin _ IH].
  - eauto.
  - destruct (IH Hx) as [m Hm]. simpl. rewrite Hm. eauto.
  - destruct (IH Hx) as [m Hm]. simpl. rewrite Hm. eauto.
  - destruct (IH Hx) as [m Hm]. simpl. rewrite Hm.
    destruct (luaAstToJson key); simpl; eauto.
  - destruct (IH Hx) as [m Hm]. simpl. rewrite Hm. eauto.
  - destruct (IH Hx) as [m Hm]. simpl. rewrite Hm.
    destruct (luaAstToJson key); simpl; eauto.
  - destruct (IH Hx) as [m Hm]. simpl. rewrite Hm. eauto.
  - destruct (IH Hx) as [m Hm].
    change (luaAstToJson (TableConstructorExpression fields))
      with (if first_field_has_key fields then
              pairs ← js_map (fun field => r ← luaAstToJson field; destructure_key_value r)
                         fields;
              object ← fromEntries pairs;
              Ok (if Nat.eqb (length object) 0 then JArr [] else JObj object)
            else
              values ← js_map (fun field => value ← luaAstToJson field;
                                            surface_table_key value) fields;
              Ok (JArr values)).
    destruct (first_field_has_key fields).
    + destruct (js_map_throws (fun field => r ← luaAstToJson field; destructure_key_value r)
                  fields field m Hin) as [m' Hm']; [rewrite Hm; reflexivity|].
      rewrite Hm'. eauto.
    + destruct (js_map_throws (fun field => value ← luaAstToJson field;
                                            surface_table_key value)
                  fields field m Hin) as [m' Hm']; [rewrite Hm; reflexivity|].
      rewrite Hm'. eauto.
Qed.

End Reduction.
End StrictnessFacts.

Section Strictness.
Import Js Decoder DecoderFacts FileWatcher StrictnessFacts.
Context `{JsEngine} `{LuaParser}.

(** X16.  Decoding is all or nothing.  If the reduction of any expression
    it reaches inside the first binding of [ScribeyDB] throws (a node type
    the converter does not know, such as a function or a binary expression,
    always does), then the whole reduction throws,
    [extractScribeyDBFromAST] answers [null], and [parseLuaData] returns no
    snapshot for the file, however much valid data surrounds the
    offending expression. *)
Theorem X16_one_unsupported_expression_loses_the_file
    (pre post : list Stmt) (stmt : Stmt) (e x : Ast) (message : string)
    (clock : ParseClock) (content : string) :
  Forall (fun s => ~ binds s) pre ->
  first_binding stmt e ->
  evaluated_in e x ->
  luaAstToJson x = Throw message ->
  (forall type, luaAstToJson (OtherExpression type) = Throw (cant_parse type))
  /\ (exists message', luaAstToJson e = Throw message')
  /\ extractScribeyDBFromAST (pre ++ stmt :: post)%list = JNull
  /\ (luaparse_parse content = Ok (pre ++ stmt :: post)%list -> parseLuaData clock content = None).
Proof.
  intros Hpre Hfirst Hev Hx.
  destruct (reduction_is_strict e x message Hev Hx) as [m Hm].
  assert (Hnull : extractScribeyDBFromAST (pre ++ stmt :: post)%list = JNull).
  { unfold extractScribeyDBFromAST. rewrite (scan_body_skips pre _ Hpre).
    destruct stmt as [variables init | type].
    - simpl. rewrite (find_first_binding _ _ _ Hfirst), Hm. reflexivity.
    - destruct Hfirst as (i & [] & _). }
  split; [reflexivity|]. split; [eauto|]. split; [exact Hnull|].
  intros Hparse. unfold parseLuaData, parseLuaData_ledger. rewrite Hparse.
  simpl. unfold extract. rewrite Hnull. reflexivity.
Qed.

End Strictness.

Section StrictnessExamples.
Import Js Decoder FileWatcher.

(** X16 on a file with two characters, one of which stores a function. *)
Lemma X16_witness_function_value :
  @extractScribeyDBFromAST digits_engine body_with_function = JNull.
Proof.
  destruct body_with_function as [|stmt post] eqn:Hbody; [discriminate|].
  injection Hbody as <- <-.
  refine (proj1 (proj2 (proj2
    (@X16_one_unsupported_expression_loses_the_file digits_engine scenario_parser
       [] [] _ _ (OtherExpression "FunctionDeclaration") (cant_parse "FunctionDeclaration")
       (fixed_clock 0) "" (List.Forall_nil _) _ _ eq_refl)))).
  - exists 0%nat. split; [split; reflexivity|]. intros j e' Hj. lia.
  - eapply ev_field; [left; reflexivity|]. apply ev_name_value.
    eapply ev_field; [right; left; reflexivity|]. apply ev_key_value.
    eapply ev_field; [left; reflexivity|]. apply ev_name_value. apply ev_here.
Defined.

End StrictnessExamples.

Module KeyedTableFacts.
Import Js Decoder.

Lemma obj_get_None {V} (k : string) (o : list (string * V)) :
  obj_get k o = None <-> k ∉ map fst o.
Proof.
  induction o as [|[k' v] o IH]; simpl.
  - split; [intros _; apply not_elem_of_nil|reflexivity].
  - rewrite not_elem_of_cons. destruct (String.eqb_spec k k') as [->|Hne].
    + split; [discriminate|intros [Hk _]; contradiction].
    + rewrite IH. tauto.
Qed.

Lemma keys_obj_set {V} (x k : string) (v : V) (o : list (string * V)) :
  x ∈ map fst (obj_set k v o) -> x = k \/ x ∈ map fst o.
Proof.
  induction o as [|[k' v'] o IH]; simpl.
  - rewrite list_elem_of_singleton. tauto.
  - destruct (String.eqb_spec k k') as [->|Hne]; simpl.
    + rewrite !elem_of_cons. tauto.
    + destruct (key_precedes k k' && negb (has_own k o)); simpl.
      * rewrite !elem_of_cons. tauto.
      * rewrite !elem_of_cons. intros [-> | Hin]; [tauto|]. destruct (IH Hin); tauto.
Qed.

(** [CreateDataProperty] never makes a key appear twice. *)
Lemma NoDup_obj_set {V} (k : string) (v : V) (o : list (string * V)) :
  NoDup (map fst o) -> NoDup (map fst (obj_set k v o)).
Proof.
  induction o as [|[k' v'] o IH]; simpl.
  - intros _. apply NoDup_singleton.
  - rewrite NoDup_cons. intros [Hk' Hnd].
    destruct (String.eqb_spec k k') as [->|Hne]; simpl.
    + apply NoDup_cons. split; assumption.
    + destruct (key_precedes k k' && negb (has_own k o)) eqn:Hfront; simpl.
      * apply andb_true_iff in Hfront as [_ Hown]. unfold has_own in Hown.
        destruct (obj_get k o) eqn:Hget; [discriminate|].
        apply obj_get_None in Hget.
        apply NoDup_cons. split.
        -- rewrite not_elem_of_cons. split; assumption.
        -- apply NoDup_cons. split; assumption.
      * apply NoDup_cons. split; [|exact (IH Hnd)].
        intros Hin. destruct (keys_obj_set _ _ _ _ Hin) as [-> | Hin']; contradiction.
Qed.








Section Fields.
Context `{JsEngine}.


End Fields.
End KeyedTableFacts.

Section KeyedTables.
Import Js Decoder KeyedTableFacts.
Context `{JsEngine}.


End KeyedTables.

Section KeyedTablesExamples.
Import Js Decoder.


End KeyedTablesExamples.

Module PositionalTableFacts.
Import Js Decoder.

Lemma surface_unmarked (v : JsVal) :
  not_nil v -> unmarked v -> surface_table_key v = Ok v.
Proof.
  intros [Hnull Hundef] Hplain. unfold surface_table_key.
  destruct v as [| |b|n|s|l|o]; try contradiction; try reflexivity.
  simpl. rewrite (Hplain o eq_refl). reflexivity.
Qed.

Lemma surface_never_throws (v : JsVal) :
  not_nil v -> exists v', surface_table_key v = Ok v'.
Proof.
  intros [Hnull Hundef]. unfold surface_table_key.
  destruct v as [| |b|n|s|l|o]; try contradiction; simpl; eauto.
  destruct (truthy _); simpl; eauto.
Qed.

Lemma surface_nil (v : JsVal) : ~ not_nil v -> surface_table_key v = Throw TypeError_read.
Proof.
  intros Hnil. destruct v; try reflexivity; exfalso; apply Hnil; split; discriminate.
Qed.

Lemma not_nil_dec (v : JsVal) : {not_nil v} + {~ not_nil v}.
Proof.
  destruct v; try (left; split; discriminate); right; intros [Hnull Hundef]; contradiction.
Qed.

Section Elements.
Context `{JsEngine}.

Lemma positional_fields (elements : list Ast) :
  first_field_has_key (map TableValue elements) = false.
Proof. destruct elements; reflexivity. Qed.

Lemma positional_map (elements : list Ast) (values : list JsVal) :
  Forall2 (fun e v => luaAstToJson e = Ok v) elements values ->
  js_map (fun field => value ← luaAstToJson field; surface_table_key value)
    (map TableValue elements)
  = js_map surface_table_key values.
Proof.
  induction 1 as [|e v elements values He _ IH]; [reflexivity|].
  cbn [map js_map].
  fold (js_map (fun field => value ← luaAstToJson field; surface_table_key value)).
  fold (js_map surface_table_key).
  rewrite IH. cbn [luaAstToJson]. rewrite He. reflexivity.
Qed.

Lemma surface_all (values : list JsVal) :
  Forall not_nil values -> Forall unmarked values ->
  js_map surface_table_key values = Ok values.
Proof.
  induction 1 as [|v values Hv _ IH]; intros Hplain; [reflexivity|].
  apply Forall_cons in Hplain as [Hp Hplain].
  cbn [js_map]. fold (js_map surface_table_key).
  rewrite (surface_unmarked v Hv Hp), (IH Hplain). reflexivity.
Qed.

Lemma surface_some_nil (values : list JsVal) :
  Exists (fun v => ~ not_nil v) values ->
  js_map surface_table_key values = Throw TypeError_read.
Proof.
  induction values as [|v values IH]; intros Hex; [inversion Hex|].
  cbn [js_map]. fold (js_map surface_table_key).
  destruct (not_nil_dec v) as [Hv|Hv].
  - destruct (surface_never_throws v Hv) as [v' ->].
    rewrite IH; [reflexivity|].
    apply Exists_cons in Hex as [Hnil|Hex]; [contradiction|exact Hex].
  - rewrite (surface_nil v Hv). reflexivity.
Qed.

End Elements.
End PositionalTableFacts.

Section PositionalTables.
Import Js Decoder PositionalTableFacts.
Context `{JsEngine}.

(** X18.  A table of positional fields whose elements all reduce decodes to
    the array of the reduced elements exactly when none of them is [nil]:
    with a [nil] among them (at any position) the reduction throws a
    [TypeError], because the converter reads a property off every element. *)
Theorem X18_positional_table_decodes_unless_it_holds_nil
    (elements : list Ast) (values : list JsVal) :
  Forall2 (fun e v => luaAstToJson e = Ok v) elements values ->
  (Forall not_nil values -> Forall unmarked values ->
   luaAstToJson (TableConstructorExpression (map TableValue elements)) = Ok (JArr values))
  /\ (Exists (fun v => ~ not_nil v) values ->
      luaAstToJson (TableConstructorExpression (map TableValue elements))
      = Throw TypeError_read).
Proof.
  intros Hred.
  assert (Hrule : luaAstToJson (TableConstructorExpression (map TableValue elements))
                  = (values ← js_map surface_table_key values; Ok (JArr values))).
  { change (luaAstToJson (TableConstructorExpression (map TableValue elements)))
      with (if first_field_has_key (map TableValue elements) then
              pairs ← js_map (fun field => r ← luaAstToJson field; destructure_key_value r)
                         (map TableValue elements);
              object ← fromEntries pairs;
              Ok (if Nat.eqb (length object) 0 then JArr [] else JObj object)
            else
              values ← js_map (fun field => value ← luaAstToJson field;
                                            surface_table_key value)
                          (map TableValue elements);
              Ok (JArr values)).
    rewrite positional_fields, (positional_map elements values Hred). reflexivity. }
  rewrite Hrule. split.
  - intros Hnn Hplain. rewrite (surface_all values Hnn Hplain). reflexivity.
  - intros Hex. rewrite (surface_some_nil values Hex). reflexivity.
Qed.

End PositionalTables.

Section PositionalTablesExamples.
Import Js Decoder.

(** X18 on the list of two profession names, and on the same list with a
    hole in front. *)
Lemma X18_witness_list_and_hole :
  @luaAstToJson digits_engine
    (TableConstructorExpression
       (map TableValue [string_literal "Tailoring"; string_literal "Inscription"]))
  = Ok (JArr [JStr "Tailoring"; JStr "Inscription"])
  /\ @luaAstToJson digits_engine
       (TableConstructorExpression
          (map TableValue [NilLiteral; string_literal "Tailoring"; string_literal "Inscription"]))
     = Throw TypeError_read.
Proof.
  split.
  - apply (@X18_positional_table_decodes_unless_it_holds_nil digits_engine
             [string_literal "Tailoring"; string_literal "Inscription"]
             [JStr "Tailoring"; JStr "Inscription"]).
    + repeat constructor.
    + repeat constructor; discriminate.
    + repeat constructor; intros o Ho; discriminate Ho.
  - apply (@X18_positional_table_decodes_unless_it_holds_nil digits_engine
             [NilLiteral; string_literal "Tailoring"; string_literal "Inscription"]
             [JNull; JStr "Tailoring"; JStr "Inscription"]).
    + repeat constructor.
    + apply Exists_cons_hd. intros [Hnull _]. apply Hnull. reflexivity.
Defined.

End PositionalTablesExamples.

Module VersionFacts.
Import FileWatcher.

Lemma append_cons (x : ascii) (a b : string) : String x a +:+ b = String x (a +:+ b).
Proof. reflexivity. Qed.

Lemma append_nil_l (b : string) : "" +:+ b = b.
Proof. reflexivity. Qed.

Lemma append_assoc (a b c : string) : (a +:+ b) +:+ c = a +:+ b +:+ c.
Proof.
  induction a as [|x a IH]; [reflexivity|].
  rewrite !append_cons, IH. reflexivity.
Qed.

Lemma drop_prefix_Some (p s r : string) : drop_prefix p s = Some r <-> s = p +:+ r.
Proof.
  revert s. induction p as [|a p IH]; intros s; simpl.
  - split; [intros [= ->]; reflexivity|intros ->; reflexivity].
  - destruct s as [|b s]; [split; discriminate|].
    destruct (Ascii.eqb_spec a b) as [->|Hne].
    + rewrite IH. split; [intros ->; reflexivity|intros [= ->]; reflexivity].
    + split; [discriminate|intros [= E _]; congruence].
Qed.

Lemma skip_spaces_split (s : string) :
  exists ws, all_spaces ws /\ s = ws +:+ skip_spaces s.
Proof.
  induction s as [|c s (ws & Hws & Hs)]; simpl.
  - exists "". split; [constructor|reflexivity].
  - destruct (is_space c) eqn:Hc.
    + exists (String c ws). split; [constructor; assumption|].
      rewrite append_cons, <- Hs. reflexivity.
    + exists "". split; [constructor|reflexivity].
Qed.

Lemma skip_spaces_app (ws : string) (c : ascii) (r : string) :
  all_spaces ws -> is_space c = false -> skip_spaces (ws +:+ String c r) = String c r.
Proof.
  unfold all_spaces. induction ws as [|x ws IH]; intros Hws Hc.
  - change ("" +:+ String c r) with (String c r). simpl. rewrite Hc. reflexivity.
  - rewrite append_cons. simpl in Hws |- *.
    apply Forall_cons in Hws as [Hx Hws]. rewrite Hx. apply IH; assumption.
Qed.

Lemma until_quote_Some (s v : string) :
  until_quote s = Some v <-> quote_free v /\ exists post, s = v +:+ String double_quote post.
Proof.
  unfold quote_free. revert v. induction s as [|c s IH]; intros v; simpl.
  - split; [discriminate|]. intros [_ [post E]].
    destruct v; [rewrite append_nil_l in E|rewrite append_cons in E]; discriminate E.
  - destruct (Ascii.eqb_spec c double_quote) as [->|Hne].
    + split.
      * intros [= <-]. split; [constructor|]. exists s. reflexivity.
      * intros [Hv [post E]]. destruct v as [|x v]; [reflexivity|].
        rewrite append_cons in E. injection E as <- E.
        simpl in Hv. apply Forall_cons in Hv as [Hx _]. contradiction.
    + destruct (until_quote s) as [v'|] eqn:Hu; simpl.
      * destruct (proj1 (IH v') eq_refl) as [Hv' [post ->]]. split.
        -- intros [= <-]. split; [constructor; assumption|]. exists post. reflexivity.
        -- intros [Hv [post' E]]. destruct v as [|x v].
           ++ rewrite append_nil_l in E. injection E as -> _. contradiction.
           ++ rewrite append_cons in E. injection E as <- E.
              simpl in Hv. apply Forall_cons in Hv as [_ Hv].
              assert (Hsome : Some v' = Some v) by (apply IH; eauto).
              congruence.
      * split; [discriminate|]. intros [Hv [post E]].
        destruct v as [|x v].
        -- rewrite append_nil_l in E. injection E as -> _. contradiction.
        -- rewrite append_cons in E. injection E as <- E.
           simpl in Hv. apply Forall_cons in Hv as [_ Hv].
           assert (Hsome : None = Some v) by (apply IH; eauto). discriminate.
Qed.

Lemma match_here_sound (s v : string) :
  match_version_here s = Some v ->
  v <> "" /\ quote_free v
  /\ exists ws1 ws2 post,
       all_spaces ws1 /\ all_spaces ws2
       /\ s = "version" +:+ ws1 +:+ "=" +:+ ws2 +:+ quoted v +:+ post.
Proof.
  unfold match_version_here.
  destruct (drop_prefix "version" s) as [s1|] eqn:H1; [|discriminate].
  cbn [mbind option_bind].
  destruct (drop_prefix "=" (skip_spaces s1)) as [s2|] eqn:H2; [|discriminate].
  cbn [mbind option_bind].
  destruct (drop_prefix (String double_quote "") (skip_spaces s2)) as [s3|] eqn:H3;
    [|discriminate].
  cbn [mbind option_bind].
  destruct (until_quote s3) as [v'|] eqn:H4; [|discriminate].
  cbn [mbind option_bind].
  destruct (String.eqb_spec v' "") as [_|Hne]; [discriminate|]. intros [= ->].
  apply drop_prefix_Some in H1, H2, H3. apply until_quote_Some in H4 as [Hq [post ->]].
  destruct (skip_spaces_split s1) as (ws1 & Hws1 & Hs1).
  destruct (skip_spaces_split s2) as (ws2 & Hws2 & Hs2).
  split; [exact Hne|]. split; [exact Hq|].
  exists ws1, ws2, post. split; [exact Hws1|]. split; [exact Hws2|].
  rewrite H1, Hs1, H2, Hs2, H3. unfold quoted.
  change (String double_quote (v +:+ String double_quote "") +:+ post)
    with (String double_quote ((v +:+ String double_quote "") +:+ post)).
  rewrite (append_assoc v). reflexivity.
Qed.

Lemma not_space_equals : is_space "=" = false.
Proof. reflexivity. Qed.

Lemma not_space_quote : is_space double_quote = false.
Proof. reflexivity. Qed.

Lemma match_here_complete (v ws1 ws2 post : string) :
  v <> "" -> quote_free v -> all_spaces ws1 -> all_spaces ws2 ->
  match_version_here ("version" +:+ ws1 +:+ "=" +:+ ws2 +:+ quoted v +:+ post) = Some v.
Proof.
  intros Hne Hq Hws1 Hws2. unfold match_version_here.
  rewrite (proj2 (drop_prefix_Some "version" _ (ws1 +:+ "=" +:+ ws2 +:+ quoted v +:+ post))
             eq_refl).
  cbn [mbind option_bind].
  change ("=" +:+ ws2 +:+ quoted v +:+ post) with (String "=" (ws2 +:+ quoted v +:+ post)).
  rewrite (skip_spaces_app ws1 "=" _ Hws1 not_space_equals).
  rewrite (proj2 (drop_prefix_Some "=" (String "=" (ws2 +:+ quoted v +:+ post))
                    (ws2 +:+ quoted v +:+ post)) eq_refl).
  cbn [mbind option_bind].
  unfold quoted.
  change (String double_quote (v +:+ String double_quote "") +:+ post)
    with (String double_quote ((v +:+ String double_quote "") +:+ post)).
  rewrite (skip_spaces_app ws2 double_quote _ Hws2 not_space_quote).
  rewrite (proj2 (drop_prefix_Some (String double_quote "")
                    (String double_quote ((v +:+ String double_quote "") +:+ post))
                    ((v +:+ String double_quote "") +:+ post)) eq_refl).
  cbn [mbind option_bind].
  rewrite (proj2 (until_quote_Some ((v +:+ String double_quote "") +:+ post) v)).
  - cbn [mbind option_bind]. apply String.eqb_neq in Hne. rewrite Hne. reflexivity.
  - split; [exact Hq|]. exists post. rewrite append_assoc. reflexivity.
Qed.

Lemma extractVersion_eq (content : string) :
  extractVersion content
  = match match_version_here content with
    | Some v => Some v
    | None => match content with
              | EmptyString => None
              | String _ rest => extractVersion rest
              end
    end.
Proof. destruct content; reflexivity. Qed.

End VersionFacts.

Section Version.
Import FileWatcher VersionFacts.

(** X19.  [extractVersion] answers exactly when the text contains the word
    [version], an equals sign and a non-empty double-quoted text, separated
    by nothing but white space; what it returns then occurs in the text in
    that shape, is never empty and holds no double quote.  The word is not
    required to stand alone, so any identifier that ends in it qualifies. *)
Theorem X19_extractVersion_finds_a_version_assignment (content : string) :
  (forall v, extractVersion content = Some v ->
     v <> "" /\ quote_free v /\ assigns_version content v)
  /\ (forall v, v <> "" -> quote_free v -> assigns_version content v ->
        is_Some (extractVersion content)).
Proof.
  split.
  - induction content as [|c content IH]; intros v; rewrite extractVersion_eq.
    + destruct (match_version_here "") as [v'|] eqn:Hm; [|discriminate].
      intros [= ->].
      destruct (match_here_sound "" v Hm) as (Hne & Hq & ws1 & ws2 & post & Hs1 & Hs2 & E).
      split; [exact Hne|]. split; [exact Hq|]. exists "", ws1, ws2, post. auto.
    + destruct (match_version_here (String c content)) as [v'|] eqn:Hm.
      * intros [= ->].
        destruct (match_here_sound _ v Hm) as (Hne & Hq & ws1 & ws2 & post & Hs1 & Hs2 & E).
        split; [exact Hne|]. split; [exact Hq|]. exists "", ws1, ws2, post. auto.
      * intros Hrest.
        destruct (IH v Hrest) as (Hne & Hq & pre & ws1 & ws2 & post & Hs1 & Hs2 & E).
        split; [exact Hne|]. split; [exact Hq|].
        exists (String c pre), ws1, ws2, post. split; [exact Hs1|]. split; [exact Hs2|].
        rewrite append_cons, <- E. reflexivity.
  - intros v Hne Hq (pre & ws1 & ws2 & post & Hs1 & Hs2 & ->).
    induction pre as [|c pre IH].
    + rewrite append_nil_l, extractVersion_eq.
      rewrite (match_here_complete v ws1 ws2 post Hne Hq Hs1 Hs2). eauto.
    + rewrite append_cons, extractVersion_eq.
      destruct (match_version_here _); [eauto|exact IH].
Qed.

End Version.

Section VersionExamples.
Import FileWatcher.

(** X19 on a file that only sets [addon_version]. *)
Lemma X19_witness_addon_version :
  is_Some (extractVersion ("ScribeyDB = { addon_version = " +:+ quoted "2.1" +:+ " }")).
Proof.
  apply (proj2 (X19_extractVersion_finds_a_version_assignment
                  ("ScribeyDB = { addon_version = " +:+ quoted "2.1" +:+ " }")) "2.1").
  - discriminate.
  - repeat constructor; discriminate.
  - exists "ScribeyDB = { addon_", " ", " ", " }".
    split; [repeat constructor|]. split; [repeat constructor|reflexivity].
Defined.

End VersionExamples.

Module CharacterFacts.
Import Js FileWatcher PositionalTableFacts.

Lemma or_else_truthy_r (a b : JsVal) : truthy b = true -> truthy (or_else a b) = true.
Proof. intros Hb. unfold or_else. destruct (truthy a) eqn:Ha; assumption. Qed.

Lemma or_else_cases (a b : JsVal) :
  truthy (or_else a b) = true \/ or_else a b = b.
Proof. unfold or_else. destruct (truthy a) eqn:Ha; [left; exact Ha|right; reflexivity]. Qed.

Lemma get_nil (v : JsVal) (p : string) : ~ not_nil v -> get v p = Throw TypeError_read.
Proof.
  intros Hnil. destruct v; try reflexivity; exfalso; apply Hnil; split; discriminate.
Qed.

Lemma get_not_nil (v : JsVal) (p : string) : not_nil v -> exists x, get v p = Ok x.
Proof. intros [Hnull Hundef]. destruct v; try contradiction; simpl; eauto. Qed.

Lemma parseProfessions_eq (prof : JsVal) (l : list JsVal) :
  parseProfessions (prof :: l)
  = (n ← get prof "name";
     if truthy n then
       skill_level ← get prof "skill_level";
       max_skill_level ← get prof "max_skill_level";
       rest ← parseProfessions l;
       Ok ({| ProfessionData.name := n;
              ProfessionData.skillLevel := or_else skill_level (JNum (Num 0));
              ProfessionData.maxSkill := or_else max_skill_level (JNum (Num 525));
              ProfessionData.recipes := [] |} :: rest)
     else parseProfessions l).
Proof. reflexivity. Qed.

(** The loop over the professions throws exactly on a hole. *)
Lemma parseProfessions_throws (l : list JsVal) :
  Exists (fun p => ~ not_nil p) l -> parseProfessions l = Throw TypeError_read.
Proof.
  induction l as [|prof l IH]; intros Hex; [inversion Hex|].
  rewrite parseProfessions_eq.
  destruct (not_nil_dec prof) as [Hp|Hp]; [|rewrite (get_nil prof "name" Hp); reflexivity].
  apply Exists_cons in Hex as [Hnil|Hex]; [contradiction|]. specialize (IH Hex).
  destruct (get_not_nil prof "name" Hp) as [n ->].
  destruct (get_not_nil prof "skill_level" Hp) as [sl ->].
  destruct (get_not_nil prof "max_skill_level" Hp) as [ms ->].
  simpl. rewrite IH. destruct (truthy n); reflexivity.
Qed.

Lemma parseProfessions_ok (l : list JsVal) :
  Forall not_nil l ->
  exists ps, parseProfessions l = Ok ps /\ Forall profession_ok ps.
Proof.
  induction 1 as [|prof l Hp _ (ps & IH & Hps)].
  - exists []. split; [reflexivity|constructor].
  - rewrite parseProfessions_eq.
    destruct (get_not_nil prof "name" Hp) as [n ->].
    destruct (get_not_nil prof "skill_level" Hp) as [sl ->].
    destruct (get_not_nil prof "max_skill_level" Hp) as [ms ->].
    simpl. rewrite IH. destruct (truthy n) eqn:Hn; simpl; [|eauto].
    eexists. split; [reflexivity|]. constructor; [|exact Hps].
    split; [exact Hn|]. split; [apply or_else_truthy_r; reflexivity|].
    split; [apply or_else_cases|reflexivity].
Qed.

Lemma holes_dec (l : list JsVal) :
  {Forall not_nil l} + {Exists (fun p => ~ not_nil p) l}.
Proof.
  induction l as [|p l [IH|IH]].
  - left. constructor.
  - destruct (not_nil_dec p) as [Hp|Hp].
    + left. constructor; assumption.
    + right. apply Exists_cons_hd. exact Hp.
  - right. apply Exists_cons_tl. exact IH.
Qed.

End CharacterFacts.

Section CharacterRecords.
Import Js FileWatcher PositionalTableFacts CharacterFacts.

(** X20.  [parseScribeyCharacterFromJson] gives up on exactly two kinds of
    entry: one that is [nil] itself, and one whose [professions] is an array
    with a hole.  Every other entry, a number or a string included, yields
    a record; and every record it yields has a truthy realm and class, no
    cards, the clock reading as [lastUpdate], a name that is truthy or the
    first part of the key, and only professions with a truthy name, a
    truthy maximum, a skill that is truthy or 0, and no recipes. *)
Theorem X20_character_extraction_fails_only_on_nil
    (fullName : string) (charData : JsVal) (now : Z) :
  (parseScribeyCharacterFromJson fullName charData now = None
   <-> ~ not_nil charData
       \/ exists l, get charData "professions" = Ok (JArr l)
                    /\ Exists (fun p => ~ not_nil p) l)
  /\ (forall c, parseScribeyCharacterFromJson fullName charData now = Some c ->
        character_ok fullName now c).
Proof.
  unfold parseScribeyCharacterFromJson, character_body.
  destruct (not_nil_dec charData) as [Hc|Hc].
  - destruct (get_not_nil charData "character_name" Hc) as [cn ->].
    destruct (get_not_nil charData "realm_name" Hc) as [rn ->].
    destruct (get_not_nil charData "class" Hc) as [cl ->].
    destruct (get_not_nil charData "professions" Hc) as [profs ->].
    cbn [mbind JsResult_bind js_bind].
    assert (Hrest : forall ps, Forall profession_ok ps ->
              character_ok fullName now
                {| CharacterData.name := or_else cn (split_part fullName 0);
                   CharacterData.realm := or_else (or_else rn (split_part fullName 1))
                                            (JStr "Unknown");
                   CharacterData.cards := [];
                   CharacterData.professions := ps;
                   CharacterData.class := or_else cl (JStr "WARRIOR");
                   CharacterData.lastUpdate := now |}).
    { intros ps Hps. split; [apply or_else_cases|].
      split; [apply or_else_truthy_r; reflexivity|].
      split; [apply or_else_truthy_r; reflexivity|].
      split; [reflexivity|]. split; [reflexivity|exact Hps]. }
    assert (Hplain : (forall l, profs <> JArr l) ->
              (js_catch (Some <$> (professions ← match profs with
                                                 | JArr l => parseProfessions l
                                                 | _ => Ok []
                                                 end;
                         Ok {| CharacterData.name := or_else cn (split_part fullName 0);
                               CharacterData.realm :=
                                 or_else (or_else rn (split_part fullName 1)) (JStr "Unknown");
                               CharacterData.cards := [];
                               CharacterData.professions := professions;
                               CharacterData.class := or_else cl (JStr "WARRIOR");
                               CharacterData.lastUpdate := now |})) None
               = Some {| CharacterData.name := or_else cn (split_part fullName 0);
                         CharacterData.realm :=
                           or_else (or_else rn (split_part fullName 1)) (JStr "Unknown");
                         CharacterData.cards := [];
                         CharacterData.professions := [];
                         CharacterData.class := or_else cl (JStr "WARRIOR");
                         CharacterData.lastUpdate := now |})).
    { intros Hna. destruct profs; try reflexivity. exfalso. eapply Hna. reflexivity. }
    destruct profs as [| |b|n|s|l|o];
      try (rewrite Hplain by (intros l' E; discriminate E); split;
           [split; [discriminate|intros [Hn|(l' & E & _)]; [contradiction|discriminate E]]
           |intros c [= <-]; apply Hrest; constructor]).
    destruct (holes_dec l) as [Hl|Hl].
    + destruct (parseProfessions_ok l Hl) as (ps & -> & Hps). simpl. split.
      * split; [discriminate|]. intros [Hn|(l' & E & Hex)]; [contradiction|].
        injection E as <-. exfalso.
        apply Exists_exists in Hex as (p & Hin & Hp).
        apply Hp. exact (proj1 (Forall_forall _ _) Hl p Hin).
      * intros c [= <-]. apply Hrest. exact Hps.
    + rewrite (parseProfessions_throws l Hl). simpl. split.
      * split; [intros _|reflexivity]. right. exists l. split; [reflexivity|exact Hl].
      * intros c E. discriminate E.
  - rewrite (get_nil charData "character_name" Hc). simpl. split.
    + split; [intros _; left; exact Hc|reflexivity].
    + intros c E. discriminate E.
Qed.

End CharacterRecords.

Section CharacterRecordsExamples.
Import Js FileWatcher.

(** X20 on an entry whose profession list has a hole, and on an entry that
    is a number. *)
Lemma X20_witness_hole_and_number :
  parseScribeyCharacterFromJson "Foo-Bar" entry_with_hole 1700000000000 = None
  /\ character_ok "Foo-Bar" 1700000000000
       {| CharacterData.name := JStr "Foo"; CharacterData.realm := JStr "Bar";
          CharacterData.cards := []; CharacterData.professions := [];
          CharacterData.class := JStr "WARRIOR"; CharacterData.lastUpdate := 1700000000000 |}.
Proof.
  split.
  - apply (proj1 (X20_character_extraction_fails_only_on_nil "Foo-Bar" entry_with_hole
                    1700000000000)).
    right. exists [JObj [("name", JStr "Tailoring")]; JNull]. split; [reflexivity|].
    apply Exists_cons_tl, Exists_cons_hd. intros [Hnull _]. apply Hnull. reflexivity.
  - apply (proj2 (X20_character_extraction_fails_only_on_nil "Foo-Bar" (JNum (Num 7))
                    1700000000000)).
    reflexivity.
Defined.

End CharacterRecordsExamples.

Module SnapshotFacts.
Import Js Decoder FileWatcher KeyedTableFacts.

Ltac step_extract :=
  match goal with
  | |- context [js_bind ?m _] =>
      match m with
      | Ok _ => fail 1
      | Throw _ => fail 1
      | _ => let E := fresh "Hstep" in destruct m eqn:E; cbn [js_bind]; [|discriminate]
      end
  end.

Section Extract.
Context `{JsEngine}.

(** What a snapshot tells about the run of [extract] that produced it. *)
Lemma extract_Some_inv (clock : ParseClock) (content : string) (body : list Stmt)
    (d : AddonData.t) (ledger : list ParseResult) :
  extract clock content body = Ok (Some (d, ledger)) ->
  exists cd es,
    truthy (extractScribeyDBFromAST body) = true
    /\ get (extractScribeyDBFromAST body) "character_data" = Ok cd
    /\ truthy cd = true
    /\ entries cd = Ok es
    /\ AddonData.characters d = (parse_entries clock es).1
    /\ ledger = (parse_entries clock es).2
    /\ AddonData.timestamp d = snapshot_time clock
    /\ AddonData.version d = default "1.0.0" (ConfigManager.nonempty (extractVersion content)).
Proof.
  unfold extract. cbv zeta.
  destruct (truthy (extractScribeyDBFromAST body)) eqn:Hdb; cbn [negb]; [|discriminate].
  unfold mbind, JsResult_bind.
  step_extract.
  destruct (truthy a) eqn:Hcd; cbn [negb]; [|discriminate].
  assert (Hor : or_else a (JObj []) = a) by (unfold or_else; rewrite Hcd; reflexivity).
  rewrite !Hor. unfold keys, fmap, JsResult_fmap.
  destruct (entries a) as [es|] eqn:Hes; cbn [js_bind]; [|discriminate].
  repeat step_extract.
  destruct (parse_entries clock es) as [chars led] eqn:Hloop.
  repeat step_extract.
  intros [= <- <-]. exists a, es. rewrite Hloop.
  split; [reflexivity|]. split; [reflexivity|]. split; [exact Hcd|]. split; [exact Hes|].
  split; [reflexivity|]. split; [reflexivity|]. split; reflexivity.
Qed.

End Extract.

Lemma elem_obj_set {V} (k k' : string) (c c' : V) (o : list (string * V)) :
  (k, c) ∈ obj_set k' c' o -> (k, c) = (k', c') \/ (k, c) ∈ o.
Proof.
  induction o as [|[k'' c''] o IH]; simpl.
  - rewrite list_elem_of_singleton. tauto.
  - destruct (String.eqb k' k''); simpl.
    + rewrite !elem_of_cons. tauto.
    + destruct (key_precedes k' k'' && negb (has_own k' o)); simpl.
      * rewrite !elem_of_cons. tauto.
      * rewrite !elem_of_cons. intros [E | Hin]; [tauto|]. destruct (IH Hin); tauto.
Qed.

Section Loop.
Context (clock : ParseClock).
Implicit Types (es : list (string * JsVal)).

(** What the loop over the character entries stores, it has extracted from
    an entry of the same key; it never stores a key twice, and never under
    [__proto__]. *)
Lemma loop_stores_only_extracted es
    (acc : list (string * CharacterData.t) * list ParseResult) (k : string)
    (c : CharacterData.t) :
  (k, c) ∈ (fold_left (parse_entry clock) es acc).1 ->
  (k, c) ∈ acc.1
  \/ exists v, (k, v) ∈ es
        /\ parseScribeyCharacterFromJson k v (character_time clock k) = Some c.
Proof.
  revert acc. induction es as [|[k' v'] es IH]; intros [chars led]; simpl; [tauto|].
  intros Hin. destruct (IH _ Hin) as [Hacc | (v & Hv & Hc)].
  - simpl in Hacc.
    destruct (parseScribeyCharacterFromJson k' v' (character_time clock k')) as [c'|] eqn:E;
      [|left; exact Hacc].
    unfold obj_assign in Hacc. destruct (String.eqb k' "__proto__"); [left; exact Hacc|].
    destruct (elem_obj_set _ _ _ _ _ Hacc) as [[= -> ->] | Hold]; [|left; exact Hold].
    right. exists v'. split; [apply list_elem_of_here|exact E].
  - right. exists v. split; [apply list_elem_of_further; exact Hv|exact Hc].
Qed.

Lemma loop_keys es (acc : list (string * CharacterData.t) * list ParseResult) :
  NoDup (map fst acc.1) -> "__proto__" ∉ map fst acc.1 ->
  NoDup (map fst (fold_left (parse_entry clock) es acc).1)
  /\ "__proto__" ∉ map fst (fold_left (parse_entry clock) es acc).1.
Proof.
  revert acc. induction es as [|[k' v'] es IH]; intros [chars led] Hnd Hproto; simpl;
    [split; assumption|].
  apply IH; simpl.
  - destruct (parseScribeyCharacterFromJson k' v' (character_time clock k')); [|exact Hnd].
    unfold obj_assign. destruct (String.eqb k' "__proto__"); [exact Hnd|].
    apply NoDup_obj_set. exact Hnd.
  - destruct (parseScribeyCharacterFromJson k' v' (character_time clock k')); [|exact Hproto].
    unfold obj_assign. destruct (String.eqb_spec k' "__proto__") as [_|Hne]; [exact Hproto|].
    intros Hin. destruct (keys_obj_set _ _ _ _ Hin) as [E | Hold]; [|contradiction].
    apply Hne. symmetry. exact E.
Qed.

Lemma ledger_names es :
  map fullCharacterName (map (parse_result clock) es) = map fst es.
Proof.
  induction es as [|[k v] es IH]; simpl; [reflexivity|]. rewrite IH.
  destruct (parseScribeyCharacterFromJson k v (character_time clock k)); reflexivity.
Qed.

End Loop.
End SnapshotFacts.

Section Snapshot.
Import Js Decoder FileWatcher LoopFacts SnapshotFacts.
Context `{JsEngine} `{LuaParser}.

(** X21.  A snapshot never holds anything that was not extracted.  When
    [parseLuaData] returns one, the file parsed, its [ScribeyDB] has a
    truthy [character_data], and every character of the snapshot is the
    record extracted from an entry of [character_data] with the same key;
    no key occurs twice and none is [__proto__]; the ledger names the
    entries in order; the time stamp is the clock reading and the version
    is never empty. *)
Theorem X21_snapshot_holds_only_what_was_extracted
    (clock : ParseClock) (content : string) (d : AddonData.t) (ledger : list ParseResult) :
  parseLuaData_ledger clock content = Some (d, ledger) ->
  exists body cd es,
    luaparse_parse content = Ok body
    /\ get (extractScribeyDBFromAST body) "character_data" = Ok cd
    /\ truthy cd = true
    /\ entries cd = Ok es
    /\ (forall k c, (k, c) ∈ AddonData.characters d ->
          exists v, (k, v) ∈ es
            /\ parseScribeyCharacterFromJson k v (character_time clock k) = Some c)
    /\ NoDup (map fst (AddonData.characters d))
    /\ ("__proto__" ∉ map fst (AddonData.characters d))
    /\ map fullCharacterName ledger = map fst es
    /\ AddonData.timestamp d = snapshot_time clock
    /\ AddonData.version d <> "".
Proof.
  unfold parseLuaData_ledger.
  destruct (luaparse_parse content) as [body|] eqn:Hparse; [|discriminate].
  cbn [mbind JsResult_bind js_bind].
  destruct (extract clock content body) as [[[d' ledger']|]|] eqn:Hextract; try discriminate.
  intros [= -> ->].
  destruct (extract_Some_inv clock content body d ledger Hextract)
    as (cd & es & Hdb & Hget & Hcd & Hes & Hchars & Hledger & Htime & Hversion).
  exists body, cd, es.
  split; [reflexivity|]. split; [exact Hget|]. split; [exact Hcd|]. split; [exact Hes|].
  destruct (loop_keys clock es ([], [])) as [Hnd Hproto];
    [constructor|apply not_elem_of_nil|].
  fold (parse_entries clock es) in Hnd, Hproto. rewrite <- Hchars in Hnd, Hproto.
  split.
  { intros k c Hin. rewrite Hchars in Hin.
    destruct (loop_stores_only_extracted clock es ([], []) k c Hin) as [Hnil|Hv];
      [|exact Hv].
    simpl in Hnil. apply elem_of_nil in Hnil. contradiction. }
  split; [exact Hnd|]. split; [exact Hproto|].
  split.
  { rewrite Hledger. unfold parse_entries. rewrite fold_ledger. apply ledger_names. }
  split; [exact Htime|].
  rewrite Hversion. destruct (extractVersion content) as [v|]; simpl; [|discriminate].
  destruct (String.eqb_spec v "") as [_|Hne]; simpl; [discriminate|exact Hne].
Qed.

End Snapshot.

Section SnapshotExamples.
Import Js Decoder FileWatcher.

(** X21 on Scenario A. *)
Lemma X21_witness_scenario_A :
  NoDup (map fst (AddonData.characters (scenario_A_snapshot 1700000000000)))
  /\ AddonData.version (scenario_A_snapshot 1700000000000) <> "".
Proof.
  destruct (@X21_snapshot_holds_only_what_was_extracted digits_engine scenario_parser
              (fixed_clock 1700000000000) scenario_A_text
              (scenario_A_snapshot 1700000000000) (scenario_A_ledger 1700000000000)
              eq_refl)
    as (body & cd & es & _ & _ & _ & _ & _ & Hnd & _ & _ & _ & Hversion).
  split; [exact Hnd|exact Hversion].
Defined.

End SnapshotExamples.

Module InFlightFacts.
Import DataUploader.

Lemma pushes_and_clears_keep_the_counter (during : list Interleaved) (u : DataUploader.t) :
  only_pushes_and_clears during ->
  consecutiveFailures (interleave_all during u) = consecutiveFailures u.
Proof.
  unfold interleave_all. intros Hall. revert u.
  induction Hall as [|e during He _ IH]; intros u; simpl; [reflexivity|].
  rewrite IH. destruct e; try contradiction; reflexivity.
Qed.

End InFlightFacts.

Section InFlight.
Import DataUploader QueueFacts CycleFacts InFlightFacts.
Context {C : Type} `{ConfigProvider C}.

(** X22.  [clearQueue] does not cancel the delivery in flight.  The batch has
    already been taken out of the queue when the request is sent, so when
    the request of a single queued item is rejected (fewer than four
    failures before), the item is put back at the head of the queue even if
    the queue was cleared while the request was pending, and the cycle is
    scheduled again. *)
Theorem X22_a_rejected_item_survives_clearQueue
    (env : CycleEnv) (cm : C) (u : DataUploader.t) (x : QueueItem)
    (during : list Interleaved) (message : string) :
  isUploading u = false -> gate_open env u ->
  uploadQueue u = [x] ->
  delivery env 0%nat = (during, HttpRejected message) ->
  only_pushes_and_clears during ->
  consecutiveFailures u < 4 ->
  head (uploadQueue (uploader (processUploadQueue env cm u))) = Some x
  /\ rescheduled (processUploadQueue env cm u) = true
  /\ consecutiveFailures (uploader (processUploadQueue env cm u)) = consecutiveFailures u + 1.
Proof.
  intros Hidle Hgate Hq Hd Honly Hf.
  rewrite (cycle_open env cm u Hidle); [|rewrite Hq; discriminate|exact Hgate].
  rewrite Hq. unfold batchSize. cbn [take drop run_batch]. rewrite Hd.
  rewrite attempt_rejected. cbn [intercept].
  rewrite (pushes_and_clears_keep_the_counter during _ Honly).
  cbn [consecutiveFailures set_consecutiveFailures set_queue set_isUploading].
  destruct (Z.ltb_spec (consecutiveFailures u + 1) 5) as [_|Hge]; [|lia].
  cbn. repeat split.
Qed.

End InFlight.

Section InFlightExamples.
Import DataUploader.

(** X22 on one item and a clean uploader. *)
Lemma X22_witness_cleared_in_flight :
  let u := {| uploadQueue := [item_X]; isUploading := false;
              lastUploadAttempt := 1000; consecutiveFailures := 0 |} in
  head (uploadQueue (uploader (processUploadQueue (cleared_in_flight 2000 2500)
                                 scenario_E_config u))) = Some item_X.
Proof.
  intros u.
  apply (X22_a_rejected_item_survives_clearQueue (cleared_in_flight 2000 2500)
           scenario_E_config u item_X [ClearQueue] "socket hang up").
  - reflexivity.
  - left. simpl. lia.
  - reflexivity.
  - reflexivity.
  - repeat constructor.
  - simpl. lia.
Defined.

End InFlightExamples.

Module PipelineFacts.
Import FileWatcher WatcherFacts.

Section Handler.
Context `{JsEngine} `{LuaParser} {C : Type} `{ConfigProvider C}.

(** What an enqueue tells about the handler run that made it. *)
Lemma enqueue_inv (cm : C) (ev : FileEvent) (w : FileWatcher.t) (content : string)
    (d : AddonData.t) (path : string) :
  read ev = FileContent content ->
  enqueued (handleFileChange cm ev w).2 = Some (d, path) ->
  path = filePath ev
  /\ parseLuaData (clock ev) content = Some d
  /\ cfg_isAutoUploadEnabled cm = true
  /\ lastFileContents w !! filePath ev <> Some content
  /\ lastUploadAttempt (handleFileChange cm ev w).1 !! filePath ev = Some (now ev).
Proof.
  intros Hr. unfold handleFileChange. rewrite Hr.
  destruct (decide _) as [|Hchanged]; [discriminate|]. cbn [lastUploadAttempt cache_content].
  destruct (_ <? _); [discriminate|].
  destruct (parseLuaData (clock ev) content) as [d'|]; [|discriminate].
  destruct (cfg_isAutoUploadEnabled cm); [|discriminate].
  destruct (upload_summary d'); [|discriminate].
  cbn. intros [= -> <-].
  split; [reflexivity|]. split; [reflexivity|]. split; [reflexivity|].
  split; [exact Hchanged|]. apply lookup_insert_eq.
Qed.

End Handler.
End PipelineFacts.

Section Pipeline.
Import FileWatcher WatcherFacts PipelineFacts DeliveryFacts.
Context `{JsEngine} `{LuaParser} {C : Type} `{ConfigProvider C}.

(** X23.  From a file change to the sync stamps.  When the handler hands a
    snapshot to the uploader, the snapshot is the decoded content of the
    file that changed, under that file's path, and the path's cooldown has
    started; and when the uploader is idle with an empty queue and the
    service answers with status 200, [uploadData] delivers exactly that
    snapshot in the same call, leaves the queue empty without scheduling
    another cycle, and has called [updateCharacterSync] for every character
    key of the snapshot with the time of the [uploadData] call. *)
Theorem X23_from_file_change_to_sync_stamp
    (cm : C) (ev : FileEvent) (w : FileWatcher.t) (content : string)
    (d : AddonData.t) (path : string)
    (t : Z) (env : DataUploader.CycleEnv) (u : DataUploader.t) :
  read ev = FileContent content ->
  enqueued (handleFileChange cm ev w).2 = Some (d, path) ->
  DataUploader.isUploading u = false ->
  DataUploader.uploadQueue u = [] ->
  gate_open env u ->
  DataUploader.delivers_all env ->
  let c := DataUploader.uploadData d path t env cm u in
  path = filePath ev
  /\ parseLuaData (clock ev) content = Some d
  /\ lastUploadAttempt (handleFileChange cm ev w).1 !! path = Some (now ev)
  /\ map DataUploader.attempted (DataUploader.attempts c)
     = [{| DataUploader.data := d; DataUploader.filePath := path;
           DataUploader.timestamp := t |}]
  /\ DataUploader.uploadQueue (DataUploader.uploader c) = []
  /\ DataUploader.rescheduled c = false
  /\ DataUploader.config c
     = DataUploader.sync_characters (map fst (AddonData.characters d)) t cm.
Proof.
  intros Hr Henq Hidle Hq Hgate Hall c.
  destruct (enqueue_inv cm ev w content d path Hr Henq) as (-> & Hparse & _ & _ & Hstamp).
  split; [reflexivity|]. split; [exact Hparse|]. split; [exact Hstamp|].
  unfold c, DataUploader.uploadData. rewrite Hq.
  cbn [DataUploader.isUploading DataUploader.set_queue app]. rewrite Hidle. cbn [negb].
  set (item := {| DataUploader.data := d; DataUploader.filePath := filePath ev;
                  DataUploader.timestamp := t |}).
  set (u1 := DataUploader.set_queue [item] u).
  destruct (cycle_delivers env cm u1) as (Hu & Hc & Ha & Hs & _);
    [exact Hidle|discriminate|exact Hgate|exact Hall|].
  rewrite Hu, Hc, Ha, Hs. repeat split.
Qed.

End Pipeline.

Section PipelineExamples.
Import FileWatcher.

(** X23 on Scenario A with the configuration of Scenario E. *)
Lemma X23_witness_scenario_A :
  DataUploader.uploadQueue
    (DataUploader.uploader
       (DataUploader.uploadData (scenario_A_snapshot 1700000000000)
          "acct/SavedVariables/Scribey.lua" 1700000000100 (delivering 1700000000100 1700000000900)
          scenario_E_config DataUploader.initial)) = []
  /\ DataUploader.config
       (DataUploader.uploadData (scenario_A_snapshot 1700000000000)
          "acct/SavedVariables/Scribey.lua" 1700000000100 (delivering 1700000000100 1700000000900)
          scenario_E_config DataUploader.initial)
     = DataUploader.sync_characters ["Foo-Bar"] 1700000000100 scenario_E_config.
Proof.
  destruct (@X23_from_file_change_to_sync_stamp digits_engine scenario_parser
              ConfigManager.t ConfigManager.provider scenario_E_config
              (scenario_A_event 1700000000000) fresh_watcher scenario_A_text
              (scenario_A_snapshot 1700000000000) "acct/SavedVariables/Scribey.lua"
              1700000000100 (delivering 1700000000100 1700000000900) DataUploader.initial)
    as (_ & _ & _ & _ & Hq & _ & Hc).
  - reflexivity.
  - vm_compute. reflexivity.
  - reflexivity.
  - reflexivity.
  - left. simpl. lia.
  - intros i. exists "OK". reflexivity.
  - split; [exact Hq|exact Hc].
Defined.

End PipelineExamples.

Module StartFacts.
Import FileWatcher WatcherFacts.

Section Handler.
Context `{JsEngine} `{LuaParser} {C : Type} `{ConfigProvider C}.

(** The handler never switches the watcher on or off. *)
Lemma handler_keeps_watching (cm : C) (ev : FileEvent) (w : FileWatcher.t) :
  isActive (handleFileChange cm ev w).1 = isActive w
  /\ watchedFiles (handleFileChange cm ev w).1 = watchedFiles w.
Proof. handler_branches; split; reflexivity. Qed.

Lemma trace_keeps_watching (cm : C) (evs : list FileEvent) (w : FileWatcher.t) :
  isActive (handle_all cm evs w).1 = isActive w
  /\ watchedFiles (handle_all cm evs w).1 = watchedFiles w.
Proof.
  revert w. induction evs as [|ev evs IH]; intros w; simpl; [split; reflexivity|].
  pose proof (handler_keeps_watching cm ev w) as Hone.
  destruct (handleFileChange cm ev w) as [w1 eff]. specialize (IH w1).
  destruct (handle_all cm evs w1) as [w2 effs]. simpl in *.
  destruct IH as [-> ->]. exact Hone.
Qed.

Lemma trace_length (cm : C) (evs : list FileEvent) (w : FileWatcher.t) :
  length (handle_all cm evs w).2 = length evs.
Proof.
  revert w. induction evs as [|ev evs IH]; intros w; simpl; [reflexivity|].
  destruct (handleFileChange cm ev w) as [w1 eff]. specialize (IH w1).
  destruct (handle_all cm evs w1) as [w2 effs]. simpl in *. rewrite IH. reflexivity.
Qed.

End Handler.

Section Restart.
Context `{JsEngine} `{LuaParser} `{FileSystem}.

(** Started on a running watcher, [start] does with the files what it
    does on any other running watcher. *)
Lemma restart_effects (readings : string -> Reading) (cm : ConfigManager.t)
    (v w : FileWatcher.t) :
  isActive v = true -> isActive w = true ->
  (start readings cm v).2 = (start readings cm w).2.
Proof.
  intros Hv Hw. unfold start. rewrite Hv, Hw. cbv zeta.
  destruct (String.eqb (ConfigManager.getWowPath cm) ""); [reflexivity|].
  destruct (negb (ConfigManager.validateWowPath (ConfigManager.getWowPath cm)));
    [reflexivity|].
  destruct (_ ≫= _) as [luaFiles|e]; [|reflexivity].
  destruct (trace_reads_memory cm (initial_events readings luaFiles)
              (armed luaFiles (stop v)) (armed luaFiles (stop w))) as [Heffs _];
    [split; reflexivity|].
  destruct (handle_all cm (initial_events readings luaFiles) (armed luaFiles (stop v)))
    as [v2 effs'].
  destruct (handle_all cm (initial_events readings luaFiles) (armed luaFiles (stop w)))
    as [w2 effs]. exact Heffs.
Qed.

End Restart.
End StartFacts.

Section Start.
Import FileWatcher WatcherFacts StartFacts.
Context `{JsEngine} `{LuaParser} `{FileSystem}.

(** X24.  A [start] that throws never leaves the watcher running: an
    active watcher has been stopped (its caches are gone), an inactive one
    is as it was, and no file was handled.  Whether the error is recorded
    depends on where it arose: a missing or invalid installation path is
    thrown before the [try] and leaves [lastError] alone, every later
    failure is stored in [lastError]. *)
Theorem X24_a_failed_start_leaves_the_watcher_stopped
    (readings : string -> Reading) (cm : ConfigManager.t) (w : FileWatcher.t)
    (message : string) (w' : FileWatcher.t) (effs : list Effects) :
  start readings cm w = (Throw message, w', effs) ->
  isActive w' = false
  /\ effs = []
  /\ (isActive w = true ->
      watchedFiles w' = [] /\ lastFileContents w' = ∅ /\ lastUploadAttempt w' = ∅)
  /\ (isActive w = false ->
      watchedFiles w' = watchedFiles w /\ lastFileContents w' = lastFileContents w
      /\ lastUploadAttempt w' = lastUploadAttempt w)
  /\ (ConfigManager.getWowPath cm = ""
      \/ ConfigManager.validateWowPath (ConfigManager.getWowPath cm) = false ->
      lastError w' = lastError w)
  /\ (ConfigManager.getWowPath cm <> "" ->
      ConfigManager.validateWowPath (ConfigManager.getWowPath cm) = true ->
      lastError w' = Some message).
Proof.
  unfold start. cbv zeta.
  set (w0 := if isActive w then stop w else w).
  assert (Hw0 : isActive w0 = false
                /\ (isActive w = true ->
                    watchedFiles w0 = [] /\ lastFileContents w0 = ∅
                    /\ lastUploadAttempt w0 = ∅)
                /\ (isActive w = false -> w0 = w)
                /\ lastError w0 = lastError w).
  { unfold w0. destruct (isActive w) eqn:Ha; simpl.
    - split; [reflexivity|]. split; [tauto|]. split; [discriminate|reflexivity].
    - split; [exact Ha|]. split; [discriminate|]. split; reflexivity. }
  destruct Hw0 as (Hoff & Hstopped & Hsame & Herr).
  destruct (String.eqb_spec (ConfigManager.getWowPath cm) "") as [Hempty|Hpath].
  - intros [= <- <- <-]. split; [exact Hoff|]. split; [reflexivity|].
    split; [exact Hstopped|]. split; [intros Ha; rewrite (Hsame Ha); tauto|].
    split; [intros _; exact Herr|]. intros Hne. contradiction.
  - destruct (ConfigManager.validateWowPath (ConfigManager.getWowPath cm)) eqn:Hvalid;
      cbn [negb].
    + destruct (_ ≫= _) as [luaFiles|e] eqn:Hfiles.
      * destruct (handle_all cm _ _) as [w2 effs2]. discriminate.
      * intros [= <- <- <-]. cbn [set_lastError isActive watchedFiles lastFileContents
                                  lastUploadAttempt lastError].
        split; [exact Hoff|]. split; [reflexivity|].
        split; [exact Hstopped|]. split; [intros Ha; rewrite (Hsame Ha); tauto|].
        split; [intros [Hempty|Hinvalid]; [contradiction|discriminate]|].
        intros _ _. reflexivity.
    + intros [= <- <- <-]. split; [exact Hoff|]. split; [reflexivity|].
      split; [exact Hstopped|]. split; [intros Ha; rewrite (Hsame Ha); tauto|].
      split; [intros _; exact Herr|]. intros _ Hv. discriminate Hv.
Qed.

(** X25.  A [start] that returns has found at least one file, watches
    exactly the files found, and has handled, in the order found, those of
    them that exist, starting from a cleared [lastError].  On a watcher
    that was running it is a restart: what it does with the files does not
    depend on what the watcher had cached or uploaded before. *)
Theorem X25_a_successful_start_reads_every_file_found
    (readings : string -> Reading) (cm : ConfigManager.t) (w : FileWatcher.t)
    (w' : FileWatcher.t) (effs : list Effects) :
  start readings cm w = (Ok (), w', effs) ->
  (exists luaFiles,
     findScribeyFiles (ConfigManager.getWowPath cm) = Ok luaFiles
     /\ luaFiles <> []
     /\ isActive w' = true
     /\ watchedFiles w' = luaFiles
     /\ length effs = length (List.filter fs_existsSync luaFiles)
     /\ (w', effs)
        = handle_all cm (initial_events readings luaFiles)
            (armed luaFiles (if isActive w then stop w else w)))
  /\ ConfigManager.validateWowPath (ConfigManager.getWowPath cm) = true
  /\ (forall v : FileWatcher.t,
        isActive w = true -> isActive v = true -> (start readings cm v).2 = effs).
Proof.
  intros Hstart.
  assert (Hrestart : forall v : FileWatcher.t,
            isActive w = true -> isActive v = true -> (start readings cm v).2 = effs).
  { intros v Hw Hv. rewrite (restart_effects readings cm v w Hv Hw), Hstart. reflexivity. }
  split; [|split; [|exact Hrestart]]; clear Hrestart; revert Hstart; unfold start; cbv zeta.
  all: destruct (String.eqb_spec (ConfigManager.getWowPath cm) "") as [Hempty|Hpath];
    [discriminate|].
  all: destruct (ConfigManager.validateWowPath (ConfigManager.getWowPath cm)) eqn:Hvalid;
    cbn [negb]; [|discriminate].
  2: reflexivity.
  destruct (ConfigManager.getAddonSavedVariablesPath None cm) as [pattern|e] eqn:Hpattern;
    cbn [mbind JsResult_bind js_bind]; [|discriminate].
  destruct (findScribeyFiles (ConfigManager.getWowPath cm)) as [luaFiles|e] eqn:Hfiles;
    cbn [mbind JsResult_bind js_bind]; [|discriminate].
  destruct (Nat.eqb_spec (length luaFiles) 0) as [Hzero|Hsome]; [discriminate|].
  destruct (handle_all cm (initial_events readings luaFiles)
              (armed luaFiles (if isActive w then stop w else w))) as [w2 effs2] eqn:Hrun.
  intros [= <- <-].
  pose proof (trace_keeps_watching cm (initial_events readings luaFiles)
                (armed luaFiles (if isActive w then stop w else w))) as [Hactive Hwatched].
  pose proof (trace_length cm (initial_events readings luaFiles)
                (armed luaFiles (if isActive w then stop w else w))) as Hlen.
  rewrite Hrun in Hactive, Hwatched, Hlen. simpl in Hactive, Hwatched, Hlen.
  exists luaFiles. split; [reflexivity|].
  split; [intros ->; apply Hsome; reflexivity|].
  split; [exact Hactive|]. split; [exact Hwatched|].
  split; [|symmetry; exact Hrun].
  rewrite Hlen. unfold initial_events. apply length_map.
Qed.

End Start.

Section StartExamples.
Import FileWatcher.

(** X24 without a [WTF] directory: the path passes validation, the search
    fails, and the running watcher ends up stopped with the error stored. *)
Lemma X24_witness_missing_WTF :
  let cm := ConfigManager.setWowPath "C:/WoW" scenario_E_config in
  let w' := (@start digits_engine scenario_parser never_logged_in
               (reads_scenario_A 1700000000000) cm fresh_watcher).1.2 in
  isActive w' = false /\ is_Some (lastError w').
Proof.
  intros cm. cbv zeta.
  destruct (@start digits_engine scenario_parser never_logged_in
              (reads_scenario_A 1700000000000) cm fresh_watcher) as [[r w1] effs] eqn:E.
  cbn [fst snd].
  assert (Hr : exists message, r = Throw message).
  { revert E. vm_compute. intros [= <- _ _]. eauto. }
  destruct Hr as [message ->].
  destruct (@X24_a_failed_start_leaves_the_watcher_stopped digits_engine scenario_parser
              never_logged_in (reads_scenario_A 1700000000000) cm fresh_watcher
              message w1 effs E) as (Hoff & _ & _ & _ & _ & Herr).
  split; [exact Hoff|].
  rewrite Herr; [eexists; reflexivity|discriminate|reflexivity].
Defined.

(** X25 on the installed game: the restart decodes the file although the
    running watcher had uploaded it a moment before. *)
Lemma X25_witness_restart :
  let cm := ConfigManager.setWowPath "C:/WoW" scenario_E_config in
  exists w' effs,
    @start digits_engine scenario_parser installed (reads_scenario_A 1700000001000) cm
      (example_handle cm (scenario_A_event 1700000000000) fresh_watcher).1
    = (Ok (), w', effs)
    /\ watchedFiles w' = ["acct/SavedVariables/Scribey.lua"]
    /\ length effs = 1%nat.
Proof.
  intros cm.
  destruct (@start digits_engine scenario_parser installed (reads_scenario_A 1700000001000) cm
              (example_handle cm (scenario_A_event 1700000000000) fresh_watcher).1)
    as [[r w'] effs] eqn:E.
  assert (Hr : r = Ok ()).
  { revert E. vm_compute. intros [= <- _ _]. reflexivity. }
  subst r. exists w', effs. split; [reflexivity|].
  destruct (@X25_a_successful_start_reads_every_file_found digits_engine scenario_parser
              installed (reads_scenario_A 1700000001000) cm _ w' effs E)
    as ((luaFiles & Hfound & _ & _ & Hwatched & Hlen & _) & _ & _).
  vm_compute in Hfound. injection Hfound as <-.
  split; [exact Hwatched|exact Hlen].
Defined.

End StartExamples.

Section SummaryFailure.
Import Js FileWatcher.
Context `{JsEngine} `{LuaParser} {C : Type} `{ConfigProvider C}.

(** X26.  A snapshot whose upload summary cannot be built is not uploaded,
    yet it uses up the cooldown of its file: the upload time is recorded
    before the summary is built, so [lastError] reports the failure and for
    the next 30 s no change of that file is even decoded.  A [last_scan]
    that does not convert to a number is one such case: the date of the
    summary is invalid. *)
Theorem X26_a_failed_summary_uses_up_the_cooldown
    (cm : C) (ev : FileEvent) (w : FileWatcher.t) (content : string)
    (d : AddonData.t) (e : string) :
  read ev = FileContent content ->
  lastFileContents w !! filePath ev <> Some content ->
  30000 <= now ev - default 0 (lastUploadAttempt w !! filePath ev) ->
  parseLuaData (clock ev) content = Some d ->
  cfg_isAutoUploadEnabled cm = true ->
  upload_summary d = Throw e ->
  let r := handleFileChange cm ev w in
  enqueued r.2 = None
  /\ decoded r.2 = true
  /\ lastError r.1 = Some ("Upload failed: " +:+ e)
  /\ lastUploadAttempt r.1 !! filePath ev = Some (now ev)
  /\ (forall ev', filePath ev' = filePath ev -> now ev' - now ev < 30000 ->
        (handleFileChange cm ev' r.1).2 = no_effect)
  /\ (ToNumber (AuctionData.lastScan (AddonData.auctionData d)) = Ok NaN ->
      e = "Invalid time value").
Proof.
  intros Hr Hchanged Hcool Hparse Hauto Hsummary r.
  assert (Hrun : r = (set_lastError (Some ("Upload failed: " +:+ e))
                        (stamp_upload (filePath ev) (now ev)
                           (cache_content (filePath ev) content (update_time ev) w)),
                      {| decoded := true; enqueued := None |})).
  { unfold r, handleFileChange. rewrite Hr.
    destruct (decide _) as [E|_]; [contradiction|].
    cbn [lastUploadAttempt cache_content].
    destruct (Z.ltb_spec (now ev - default 0 (lastUploadAttempt w !! filePath ev))
                UPLOAD_COOLDOWN) as [Hlt|_]; [unfold UPLOAD_COOLDOWN in Hlt; lia|].
    rewrite Hparse, Hauto, Hsummary. reflexivity. }
  rewrite Hrun. cbn [fst snd enqueued decoded lastError set_lastError lastUploadAttempt
                     stamp_upload].
  split; [reflexivity|]. split; [reflexivity|]. split; [reflexivity|].
  split; [apply lookup_insert_eq|]. split.
  - intros ev' Hpath Hsoon. apply (cooldown_noop cm ev' _ (now ev)).
    + cbn [lastUploadAttempt set_lastError stamp_upload]. rewrite Hpath.
      apply lookup_insert_eq.
    + unfold UPLOAD_COOLDOWN. exact Hsoon.
  - intros Hnan. revert Hsummary. unfold upload_summary, summary_date.
    rewrite Hnan. cbn [mbind JsResult_bind js_bind]. intros [= <-]. reflexivity.
Qed.

End SummaryFailure.

Section SummaryFailureExamples.
Import Js FileWatcher.

(** X26 on a file whose last scan is a word. *)
Lemma X26_witness_worded_scan :
  let r := @handleFileChange digits_engine (parser_of body_with_worded_scan)
             ConfigManager.t ConfigManager.provider scenario_E_config
             (worded_scan_event 1700000000000) fresh_watcher in
  enqueued r.2 = None
  /\ lastError r.1 = Some "Upload failed: Invalid time value"
  /\ lastUploadAttempt r.1 !! "acct/SavedVariables/Scribey.lua" = Some 1700000000000.
Proof.
  destruct (@X26_a_failed_summary_uses_up_the_cooldown digits_engine
              (parser_of body_with_worded_scan) ConfigManager.t ConfigManager.provider
              scenario_E_config (worded_scan_event 1700000000000) fresh_watcher
              "ScribeyDB = { }" (worded_scan_snapshot 1700000000000) "Invalid time value")
    as (Hnone & _ & Herr & Hstamp & _ & _).
  - reflexivity.
  - simpl. rewrite lookup_empty. discriminate.
  - simpl. rewrite lookup_empty. simpl. lia.
  - vm_compute. reflexivity.
  - reflexivity.
  - vm_compute. reflexivity.
  - split; [exact Hnone|]. split; [exact Herr|exact Hstamp].
Defined.

End SummaryFailureExamples.
